(** * OAuth login flow and Casdoor organisation sync

    A shallow embedding of [api/controllers/console/auth/oauth.py]:
    the callback endpoint [OAuthCallback.get], [_generate_account],
    [_get_account_by_openid_or_email] and [_sync_user_organizations];
    with them the login endpoint [OAuthLogin.get], the hierarchy listing
    of [api/services/workspace_service.py] and the API-key resources of
    [api/controllers/service_api/app/app.py].

    The database session is an explicit [Store] threaded through every
    function; ORM objects ([Account], [Tenant]) are rows of the store and
    are referred to by their primary key, so that a mutation made through
    one reference is seen through every other one.  Python exceptions are
    the left summand of a result. *)

From Stdlib Require Import Ascii String List Arith Lia Bool.
From stdpp Require Import base option list gmap strings.

Local Open Scope string_scope.
Local Open Scope list_scope.

(** ** Strings *)

Module Py.

(** [c in s] for a one-character needle. *)
Fixpoint contains (c : ascii) (s : string) : bool :=
  match s with
  | EmptyString => false
  | String d s' => if Ascii.eqb c d then true else contains c s'
  end.

(** [s.split(c, 1)] when [c] occurs in [s]: the text before the first
    occurrence and the text after it.  When [c] does not occur the
    second component is empty; the code only calls it under [c in s]. *)
Fixpoint split_once (c : ascii) (s : string) : string * string :=
  match s with
  | EmptyString => (EmptyString, EmptyString)
  | String d s' =>
      if Ascii.eqb c d then (EmptyString, s')
      else let '(a, b) := split_once c s' in (String d a, b)
  end.

(** [s.split(c)]: never the empty list, [''.split('-') == ['']]. *)
Fixpoint split (c : ascii) (s : string) : list string :=
  match s with
  | EmptyString => [EmptyString]
  | String d s' =>
      if Ascii.eqb c d then EmptyString :: split c s'
      else match split c s' with
           | [] => [String d EmptyString]
           | w :: ws => String d w :: ws
           end
  end.

(** [sep.join(l)]. *)
Fixpoint join (sep : string) (l : list string) : string :=
  match l with
  | [] => EmptyString
  | [w] => w
  | w :: ws => w ++ sep ++ join sep ws
  end.

(** [enumerate(l)]. *)
Definition enumerate {A} (l : list A) : list (nat * A) :=
  combine (seq 0 (length l)) l.

(** Truthiness of a string and of an optional string. *)
Definition truthy (s : string) : bool :=
  match s with EmptyString => false | _ => true end.

Definition truthy_opt (o : option string) : bool :=
  match o with Some s => truthy s | None => false end.

End Py.

(** ** Data model *)

Inductive AccountStatus := PENDING | UNINITIALIZED | ACTIVE | BANNED | CLOSED.

#[global] Instance AccountStatus_eq_dec : EqDecision AccountStatus.
Proof. solve_decision. Defined.

Record Account := mkAccount {
  account_id : nat;
  account_email : string;
  account_name : string;
  account_status : AccountStatus;
  account_interface_language : string;
  account_initialized_at : option nat;
  account_current_tenant : option nat
}.

Record Tenant := mkTenant {
  tenant_id : nat;
  tenant_name : string;
  tenant_casdoor_org_id : option string;
  tenant_parent_id : option nat;
  tenant_plan : string;
  tenant_status : string
}.

Record CasdoorOrganizationMapping := mkMapping {
  mapping_casdoor_org_id : string;
  mapping_tenant_id : nat
}.

Record TenantAccountJoin := mkJoin {
  join_tenant_id : nat;
  join_account_id : nat;
  join_role : string
}.

Record AccountIntegrate := mkIntegrate {
  integrate_provider : string;
  integrate_open_id : string;
  integrate_account_id : nat
}.

(** What [libs.oauth.OAuthUserInfo] carries. *)
Record OAuthUserInfo := mkUserInfo {
  ui_id : string;
  ui_name : option string;
  ui_email : string;
  ui_organizations : list string
}.

(** Calls to collaborators that leave no row behind, in the order they
    are made. *)
Inductive Call :=
| CallGetAccessToken (provider code : string)
| CallGetUserInfo (provider token : string)
| CallLinkAccountIntegrate (provider open_id : string) (account : nat)
| CallSyncUserOrganizations (account : nat)
| CallTenantWasCreated (tenant : nat)
| CallLogin (account : nat)
| CallLogInfo (msg : string).

(** The session: one list per table, rows in insertion order. *)
Record Store := mkStore {
  accounts : list Account;
  tenants : list Tenant;
  mappings : list CasdoorOrganizationMapping;
  joins : list TenantAccountJoin;
  integrates : list AccountIntegrate;
  calls : list Call
}.

Definition empty_store : Store := mkStore [] [] [] [] [] [].

(** ** Table access *)

Definition add_tenant (t : Tenant) (s : Store) : Store :=
  mkStore (accounts s) (tenants s ++ [t]) (mappings s) (joins s)
          (integrates s) (calls s).

Definition add_mapping (m : CasdoorOrganizationMapping) (s : Store) : Store :=
  mkStore (accounts s) (tenants s) (mappings s ++ [m]) (joins s)
          (integrates s) (calls s).

Definition add_join (j : TenantAccountJoin) (s : Store) : Store :=
  mkStore (accounts s) (tenants s) (mappings s) (joins s ++ [j])
          (integrates s) (calls s).

Definition add_account (a : Account) (s : Store) : Store :=
  mkStore (accounts s ++ [a]) (tenants s) (mappings s) (joins s)
          (integrates s) (calls s).

Definition add_integrate (i : AccountIntegrate) (s : Store) : Store :=
  mkStore (accounts s) (tenants s) (mappings s) (joins s)
          (integrates s ++ [i]) (calls s).

Definition record_call (c : Call) (s : Store) : Store :=
  mkStore (accounts s) (tenants s) (mappings s) (joins s)
          (integrates s) (calls s ++ [c]).

(** Attribute assignment on the [Account] row with primary key [a]. *)
Definition update_account (a : nat) (f : Account -> Account) (s : Store) : Store :=
  mkStore (map (fun acc => if Nat.eqb (account_id acc) a then f acc else acc) (accounts s))
          (tenants s) (mappings s) (joins s) (integrates s) (calls s).

Definition set_current_tenant (t : nat) (acc : Account) : Account :=
  mkAccount (account_id acc) (account_email acc) (account_name acc)
            (account_status acc) (account_interface_language acc)
            (account_initialized_at acc) (Some t).

Definition set_interface_language (l : string) (acc : Account) : Account :=
  mkAccount (account_id acc) (account_email acc) (account_name acc)
            (account_status acc) l
            (account_initialized_at acc) (account_current_tenant acc).

Definition activate (now : nat) (acc : Account) : Account :=
  mkAccount (account_id acc) (account_email acc) (account_name acc)
            ACTIVE (account_interface_language acc)
            (Some now) (account_current_tenant acc).

(** [db.session.query(Account)] by primary key. *)
Definition find_account (s : Store) (a : nat) : option Account :=
  List.find (fun acc => Nat.eqb (account_id acc) a) (accounts s).

(** [db.session.query(Tenant).filter_by(id=t).first()]. *)
Definition find_tenant (s : Store) (t : nat) : option Tenant :=
  List.find (fun x => Nat.eqb (tenant_id x) t) (tenants s).

(** [account.current_tenant] and [account.status], read through the row. *)
Definition current_tenant_of (s : Store) (a : nat) : option nat :=
  acc ← find_account s a; account_current_tenant acc.

Definition status_of (s : Store) (a : nat) : option AccountStatus :=
  account_status <$> find_account s a.

(** Every tenant key the store mentions.  [db.session.flush()] gives a
    new [Tenant] a primary key that no row uses or refers to; the model
    takes the least number above all of them. *)
Definition mentioned_tenant_ids (s : Store) : list nat :=
  map tenant_id (tenants s)
  ++ omap tenant_parent_id (tenants s)
  ++ map mapping_tenant_id (mappings s)
  ++ map join_tenant_id (joins s)
  ++ omap account_current_tenant (accounts s).

Definition fresh_tenant_id (s : Store) : nat :=
  S (max_list (mentioned_tenant_ids s)).

Definition mentioned_account_ids (s : Store) : list nat :=
  map account_id (accounts s)
  ++ map join_account_id (joins s)
  ++ map integrate_account_id (integrates s).

Definition fresh_account_id (s : Store) : nat :=
  S (max_list (mentioned_account_ids s)).

(** ** Collaborators from [services.account_service] *)

Definition is_member (s : Store) (a t : nat) : bool :=
  existsb (fun j => (Nat.eqb (join_tenant_id j) t) && (Nat.eqb (join_account_id j) a)) (joins s).

(** Modelled from the spec: [TenantService.get_join_tenants] is not among
    the sources.  The spec speaks of the tenants the account "is already
    a member" of: the tenants that have a membership row for the
    account. *)
Definition get_join_tenants (s : Store) (a : nat) : list Tenant :=
  List.filter (fun t => is_member s a (tenant_id t)) (tenants s).

(** Modelled from the spec: [TenantService.create_tenant_member] is not
    among the sources.  "The pair (tenant_id, account_id) should be
    unique -- duplicate attachment attempts must be no-ops." *)
Definition create_tenant_member (t : Tenant) (a : nat) (role : string)
    (s : Store) : Store :=
  if is_member s a (tenant_id t) then s
  else add_join (mkJoin (tenant_id t) a role) s.

(** Modelled from the spec: [TenantService.create_tenant] is not among
    the sources; it makes the "default personal tenant", a root tenant
    with no organisation key. *)
Definition create_tenant (name : string) (s : Store) : Tenant * Store :=
  let t := mkTenant (fresh_tenant_id s) name None None "basic" "normal" in
  (t, add_tenant t s).

(** ** [_sync_user_organizations] *)

(** The local variables that live across the loop over organisations. *)
Record SyncState := mkSync {
  st_store : Store;
  org_to_tenant : gmap string nat;
  tenant_to_org : gmap nat string;
  user_tenant_ids : list nat
}.

(** [{m.casdoor_org_id: m.tenant_id for m in existing_mappings}]: a later
    row overwrites an earlier one with the same key. *)
Definition load_org_to_tenant (ms : list CasdoorOrganizationMapping)
    : gmap string nat :=
  foldl (fun d m => <[mapping_casdoor_org_id m := mapping_tenant_id m]> d) ∅ ms.

Definition load_tenant_to_org (ms : list CasdoorOrganizationMapping)
    : gmap nat string :=
  foldl (fun d m => <[mapping_tenant_id m := mapping_casdoor_org_id m]> d) ∅ ms.

(** The block the source repeats for the root, for every level and for
    the flat case: [if key not in org_to_tenant:] create the [Tenant],
    flush, create its mapping, and record both in the two dicts. *)
Definition ensure_tenant (name key : string) (parent : option nat)
    (st : SyncState) : SyncState :=
  match org_to_tenant st !! key with
  | Some _ => st
  | None =>
      let new_id := fresh_tenant_id (st_store st) in
      let new_tenant := mkTenant new_id name (Some key) parent "basic" "normal" in
      let s1 := add_tenant new_tenant (st_store st) in
      let s2 := add_mapping (mkMapping key new_id) s1 in
      mkSync s2 (<[key := new_id]> (org_to_tenant st))
                (<[new_id := key]> (tenant_to_org st))
                (user_tenant_ids st)
  end.

(** [if tenant_id not in user_tenant_ids: tenant = ...first();
     if tenant: create_tenant_member(...); user_tenant_ids.append(...)]. *)
Definition attach (a : nat) (st : SyncState) (t : nat) : SyncState :=
  if decide (t ∈ user_tenant_ids st) then st
  else match find_tenant (st_store st) t with
       | Some tenant =>
           mkSync (create_tenant_member tenant a "owner" (st_store st))
                  (org_to_tenant st) (tenant_to_org st)
                  (user_tenant_ids st ++ [t])
       | None => st
       end.

(** The cumulative key of level [i]. *)
Definition full_org_path (root_org : string) (org_path_parts : list string)
    (i : nat) : string :=
  root_org ++ "/" ++ Py.join "-" (take (i + 1) org_path_parts).

(** One turn of [for i, part in enumerate(org_path_parts)]; the
    accumulator is the state, [current_parent_tenant_id] and
    [all_level_tenant_ids]. *)
Definition level_step (root_org : string) (org_path_parts : list string)
    (acc : SyncState * nat * list nat) (ip : nat * string)
    : SyncState * nat * list nat :=
  let '(st, current_parent_tenant_id, all_level_tenant_ids) := acc in
  let '(i, part) := ip in
  let key := full_org_path root_org org_path_parts i in
  let st' := ensure_tenant part key (Some current_parent_tenant_id) st in
  let current_tenant_id := org_to_tenant st' !!! key in
  (st', current_tenant_id, all_level_tenant_ids ++ [current_tenant_id]).

(** The branch [if '/' in org]. *)
Definition sync_path (a : nat) (org : string) (st : SyncState) : SyncState :=
  let '(root_org, child_org_part) := Py.split_once "/" org in
  let org_path_parts := Py.split "-" child_org_part in
  let st1 := ensure_tenant root_org root_org None st in
  let root_id := org_to_tenant st1 !!! root_org in
  let '(st2, _, all_level_tenant_ids) :=
    foldl (level_step root_org org_path_parts) (st1, root_id, [root_id])
          (Py.enumerate org_path_parts) in
  foldl (attach a) st2 all_level_tenant_ids.

(** The [else] branch: an organisation without ["/"]. *)
Definition sync_flat (a : nat) (org : string) (st : SyncState) : SyncState :=
  let st1 := ensure_tenant org org None st in
  attach a st1 (org_to_tenant st1 !!! org).

(** The body of [for org in user_info.organizations]. *)
Definition sync_org (a : nat) (st : SyncState) (org : string) : SyncState :=
  if Py.truthy org then
    if Py.contains "/" org then sync_path a org st else sync_flat a org st
  else st.

(** The closing block: choose a current tenant when none is set. *)
Definition select_current_tenant (a : nat) (st : SyncState) : Store :=
  let s := st_store st in
  match current_tenant_of s a, user_tenant_ids st with
  | None, first :: _ =>
      match find_tenant s first with
      | Some first_tenant => update_account a (set_current_tenant (tenant_id first_tenant)) s
      | None => s
      end
  | _, _ => s
  end.

Definition sync_init (a : nat) (s : Store) : SyncState :=
  mkSync s (load_org_to_tenant (mappings s)) (load_tenant_to_org (mappings s))
         (map tenant_id (get_join_tenants s a)).

Definition _sync_user_organizations (a : nat) (user_info : OAuthUserInfo)
    (s : Store) : Store :=
  let s := record_call (CallSyncUserOrganizations a) s in
  match ui_organizations user_info with
  | [] => record_call (CallLogInfo "No organizations to sync") s
  | orgs =>
      select_current_tenant a (foldl (sync_org a) (sync_init a s) orgs)
  end.

(** ** Exceptions and the session monad *)

Inductive Exn :=
| AccountNotFoundError
| WorkSpaceNotFoundError
| WorkSpaceNotAllowedCreateError
| AccountRegisterError (description : string)
| Unauthorized
| MultipleResultsFound
| RequestError (text : string)
| OtherError (text : string).

(** A computation reads and writes the session and either returns or
    raises; what it wrote before raising stays written. *)
Definition M (A : Type) : Type := Store -> (Exn + A) * Store.

Definition ret {A} (x : A) : M A := fun s => (inr x, s).
Definition raise {A} (e : Exn) : M A := fun s => (inl e, s).
Definition bind {A B} (m : M A) (k : A -> M B) : M B :=
  fun s => match m s with
           | (inl e, s') => (inl e, s')
           | (inr x, s') => k x s'
           end.
Definition gets {A} (f : Store -> A) : M A := fun s => (inr (f s), s).
Definition modify (f : Store -> Store) : M unit := fun s => (inr tt, f s).
Definition try_catch {A} (m : M A) (h : Exn -> M A) : M A :=
  fun s => match m s with
           | (inl e, s') => h e s'
           | (inr x, s') => (inr x, s')
           end.

Notation "x <~ m ;; k" := (bind m (fun x => k))
  (at level 100, m at level 99, k at level 200, right associativity).
Notation "m ;;; k" := (bind m (fun _ => k))
  (at level 100, k at level 200, right associativity).

(** ** Configuration, feature flags and the other ambient services *)

Record Config := mkConfig {
  GITHUB_CLIENT_ID : option string;
  GITHUB_CLIENT_SECRET : option string;
  CASDOOR_CLIENT_ID : option string;
  CASDOOR_CLIENT_SECRET : option string;
  CONSOLE_API_URL : string;
  CONSOLE_WEB_URL : string;
  BILLING_ENABLED : bool
}.

Inductive OAuthKind := GitHubOAuth | CasdoorOAuth.

Record OAuthClient := mkClient {
  client_kind : OAuthKind;
  client_id : string;
  client_secret : string;
  redirect_uri : string
}.

Record TokenPair := mkTokenPair {
  access_token : string;
  refresh_token : string;
  csrf_token : string
}.

(** Everything the module reaches through imports and cannot see into:
    the settings, the [languages] constant, the feature flags, the
    billing freeze list, the provider's two HTTP calls, the invitation
    store, the clock and the token issuer. *)
Record Env := mkEnv {
  dify_config : Config;
  languages : list string;
  is_allow_register : bool;
  is_allow_create_workspace : bool;
  is_email_in_freeze : string -> bool;
  provider_get_access_token : OAuthClient -> string -> Exn + string;
  provider_get_user_info : OAuthClient -> string -> Exn + OAuthUserInfo;
  is_valid_invite_token : string -> bool;
  get_invitation_by_token : string -> option (list (string * string));
  naive_utc_now : nat;
  issue_tokens : nat -> string -> TokenPair
}.

(** The parts of the Flask request the endpoint reads. *)
Record Request := mkRequest {
  args_code : option string;
  args_state : option string;
  accept_languages_best_match : list string -> option string;
  remote_ip : string
}.

Inductive Response :=
| Json (error : string) (status : nat)
| Redirect (location : string) (cookies : option TokenPair).

(** [dict.get(key, None)] on a dict kept as an association list. *)
Fixpoint dict_get (key : string) (d : list (string * string)) : option string :=
  match d with
  | [] => None
  | (k, v) :: d' => if String.eqb k key then Some v else dict_get key d'
  end.

(** ** The remaining collaborators *)

(** Modelled from the spec: [Account.get_by_openid] is not among the
    sources.  "Lookup by (provider, external_id) via a provider-link
    index": the link row for the pair, then the account it names. *)
Definition get_by_openid (provider open_id : string) (s : Store) : option Account :=
  i ← List.find (fun i => String.eqb (integrate_provider i) provider
                          && String.eqb (integrate_open_id i) open_id)
                (integrates s);
  find_account s (integrate_account_id i).

(** Modelled from the spec: [AccountService.link_account_integrate] is not
    among the sources.  It "links the account to the external identity
    (provider, external_id)" and "this link must be idempotent". *)
Definition link_account_integrate (provider open_id : string) (a : nat) : M unit :=
  modify (record_call (CallLinkAccountIntegrate provider open_id a)) ;;;
  modify (fun s =>
    if existsb (fun i => String.eqb (integrate_provider i) provider
                         && String.eqb (integrate_open_id i) open_id
                         && Nat.eqb (integrate_account_id i) a) (integrates s)
    then s else add_integrate (mkIntegrate provider open_id a) s).

(** Modelled from the spec: [RegisterService.register] is not among the
    sources.  It "creates Account with status PENDING, immediately
    promoted" and "links the new account to the external identity". *)
Definition register (env : Env) (email name open_id provider : string) : M nat :=
  a <~ gets fresh_account_id ;;
  modify (add_account (mkAccount a email name ACTIVE
                         (List.hd "en-US" (languages env))
                         (Some (naive_utc_now env)) None)) ;;;
  link_account_integrate provider open_id a ;;;
  ret a.

(** The default workspace of an account without memberships, as
    [_generate_account] writes it out. *)
Definition create_default_workspace (a : nat) (account_name : string) : M unit :=
  fun s =>
    let '(new_tenant, s1) := create_tenant (account_name ++ "'s Workspace") s in
    let s2 := create_tenant_member new_tenant a "owner" s1 in
    let s3 := update_account a (set_current_tenant (tenant_id new_tenant)) s2 in
    (inr tt, record_call (CallTenantWasCreated (tenant_id new_tenant)) s3).

(** Modelled from the spec: [TenantService.create_owner_tenant_if_not_exist]
    is not among the sources.  "If the account has no tenant memberships at
    all, either auto-create a default personal tenant (if workspace
    self-creation is allowed) or reject (workspace-not-allowed)." *)
Definition create_owner_tenant_if_not_exist (env : Env) (a : nat) : M unit :=
  fun s =>
    if existsb (fun j => Nat.eqb (join_account_id j) a) (joins s) then (inr tt, s)
    else if is_allow_create_workspace env then
      create_default_workspace a
        (from_option account_name "" (find_account s a)) s
    else (inl WorkSpaceNotAllowedCreateError, s).

(** Modelled from the spec: [AccountService.login] is not among the
    sources; it "returns an access/refresh/csrf token triple". *)
Definition login (env : Env) (a : nat) (ip_address : string) : M TokenPair :=
  modify (record_call (CallLogin a)) ;;;
  ret (issue_tokens env a ip_address).

(** ** [get_oauth_providers] *)

Definition get_oauth_providers (env : Env) (provider : string) : option OAuthClient :=
  let c := dify_config env in
  let github_oauth :=
    match GITHUB_CLIENT_ID c, GITHUB_CLIENT_SECRET c with
    | Some i, Some k =>
        if Py.truthy i && Py.truthy k then
          Some (mkClient GitHubOAuth i k
                  (CONSOLE_API_URL c ++ "/console/api/oauth/authorize/github"))
        else None
    | _, _ => None
    end in
  let casdoor_oauth :=
    match CASDOOR_CLIENT_ID c, CASDOOR_CLIENT_SECRET c with
    | Some i, Some k =>
        if Py.truthy i && Py.truthy k then
          Some (mkClient CasdoorOAuth i k
                  (CONSOLE_API_URL c ++ "/console/api/oauth/authorize/casdoor"))
        else None
    | _, _ => None
    end in
  if String.eqb provider "github" then github_oauth
  else if String.eqb provider "casdoor" then casdoor_oauth
  else None.

(** ** [_get_account_by_openid_or_email] *)

(** [scalar_one_or_none()]. *)
Definition scalar_one_or_none {A} (rows : list A) : M (option A) :=
  match rows with
  | [] => ret None
  | [x] => ret (Some x)
  | _ => raise MultipleResultsFound
  end.

Definition accounts_by_email (email : string) (s : Store) : list Account :=
  List.filter (fun acc => String.eqb (account_email acc) email) (accounts s).

Definition _get_account_by_openid_or_email (provider : string)
    (user_info : OAuthUserInfo) : M (option Account) :=
  account <~ gets (get_by_openid provider (ui_id user_info)) ;;
  match account with
  | Some acc => ret (Some acc)
  | None =>
      rows <~ gets (accounts_by_email (ui_email user_info)) ;;
      scalar_one_or_none rows
  end.

(** ** [_generate_account] *)

Definition freeze_description : string :=
  "This email account has been deleted within the past "
  ++ "30 days and is temporarily unavailable for new account registration".

(** The branch [if account:]. *)
Definition ensure_workspace (env : Env) (acc : Account) : M unit :=
  tenants <~ gets (fun s => get_join_tenants s (account_id acc)) ;;
  match tenants with
  | [] =>
      if negb (is_allow_create_workspace env) then raise WorkSpaceNotAllowedCreateError
      else create_default_workspace (account_id acc) (account_name acc)
  | _ => ret tt
  end.

(** The branch [if not account:]. *)
Definition provision (env : Env) (req : Request) (provider : string)
    (user_info : OAuthUserInfo) : M nat :=
  if negb (is_allow_register env) then
    if BILLING_ENABLED (dify_config env) && is_email_in_freeze env (ui_email user_info)
    then raise (AccountRegisterError freeze_description)
    else raise (AccountRegisterError "Invalid email or password")
  else
    let account_name :=
      if Py.truthy_opt (ui_name user_info)
      then default "Dify" (ui_name user_info) else "Dify" in
    a <~ register env (ui_email user_info) account_name (ui_id user_info) provider ;;
    let preferred_lang := accept_languages_best_match req (languages env) in
    let interface_language :=
      match preferred_lang with
      | Some l =>
          if Py.truthy l && bool_decide (l ∈ languages env) then l
          else List.hd "en-US" (languages env)
      | None => List.hd "en-US" (languages env)
      end in
    modify (update_account a (set_interface_language interface_language)) ;;;
    ret a.

(** [if account: ...] followed by [if not account: ...]; the result is
    the account the rest of the function works on. *)
Definition resolve_account (env : Env) (req : Request) (provider : string)
    (user_info : OAuthUserInfo) (account : option Account) : M nat :=
  match account with
  | Some acc => ensure_workspace env acc ;;; ret (account_id acc)
  | None => provision env req provider user_info
  end.

Definition _generate_account (env : Env) (req : Request) (provider : string)
    (user_info : OAuthUserInfo) : M nat :=
  account <~ _get_account_by_openid_or_email provider user_info ;;
  a <~ resolve_account env req provider user_info account ;;
  link_account_integrate provider (ui_id user_info) a ;;;
  modify (_sync_user_organizations a user_info) ;;;
  ret a.

(** ** [OAuthCallback.get] *)

Definition signin_message (env : Env) (msg : string) : Response :=
  Redirect (CONSOLE_WEB_URL (dify_config env) ++ "/signin?message=" ++ msg) None.

Definition workspace_not_found_message : string :=
  "Workspace not found, please contact system admin to invite you to join in a workspace.".

(** After the status check: ensure a workspace (the only call inside the
    [try]), then log in and set the cookies. *)
Definition finish_login (env : Env) (req : Request) (a : nat) : M Response :=
  rejected <~ try_catch
    (create_owner_tenant_if_not_exist env a ;;; ret None)
    (fun e => match e with
              | Unauthorized => ret (Some (signin_message env "Workspace not found."))
              | WorkSpaceNotAllowedCreateError =>
                  ret (Some (signin_message env workspace_not_found_message))
              | _ => raise e
              end) ;;
  match rejected with
  | Some response => ret response
  | None =>
      token_pair <~ login env a (remote_ip req) ;;
      ret (Redirect (CONSOLE_WEB_URL (dify_config env)) (Some token_pair))
  end.

(** Whether the account object [_generate_account] hands back belongs to
    [db.session].  One found through the provider link or just registered
    does.  The email fallback reads the account in a [Session] of its own,
    closed when the [with] block ends (lines 174-175): that object is
    detached, and what is assigned to it later is not written by
    [db.session.commit()]. *)
Definition in_db_session (provider : string) (user_info : OAuthUserInfo)
    (s : Store) : bool :=
  match get_by_openid provider (ui_id user_info) s with
  | Some _ => true
  | None =>
      match accounts_by_email (ui_email user_info) s with
      | [_] => false
      | _ => true
      end
  end.

(** The [# Check account status] block and what follows it.  [attached]
    says whether [account] belongs to [db.session]: the two assignments of
    the PENDING branch reach the row only then. *)
Definition check_status (env : Env) (req : Request) (attached : bool) (a : nat)
    : M Response :=
  status <~ gets (fun s => status_of s a) ;;
  match status with
  | Some BANNED => ret (signin_message env "Account is banned.")
  | Some PENDING =>
      (if attached then modify (update_account a (activate (naive_utc_now env)))
       else ret tt) ;;;
      finish_login env req a
  | _ => finish_login env req a
  end.

(** From [try: account = _generate_account(...)] on. *)
Definition login_account (env : Env) (req : Request) (provider : string)
    (user_info : OAuthUserInfo) : M Response :=
  fun s =>
    match _generate_account env req provider user_info s with
    | (inr a, s') => check_status env req (in_db_session provider user_info s) a s'
    | (inl AccountNotFoundError, s') =>
        (inr (signin_message env "Account not found."), s')
    | (inl WorkSpaceNotFoundError, s')
    | (inl WorkSpaceNotAllowedCreateError, s') =>
        (inr (signin_message env workspace_not_found_message), s')
    | (inl (AccountRegisterError description), s') =>
        (inr (signin_message env description), s')
    | (inl e, s') => (inl e, s')
    end.

(** The invitation branch; [None] when it does not apply. *)
Definition invite_redirect (env : Env) (invite_token : option string)
    (user_info : OAuthUserInfo) : option Response :=
  match invite_token with
  | Some tok =>
      if is_valid_invite_token env tok then
        match get_invitation_by_token env tok with
        | Some ((_ :: _) as invitation) =>
            if bool_decide (dict_get "email" invitation = Some (ui_email user_info))
            then Some (Redirect (CONSOLE_WEB_URL (dify_config env)
                                 ++ "/signin/invite-settings?invite_token=" ++ tok) None)
            else Some (signin_message env "Invalid invitation token.")
        | _ => Some (Redirect (CONSOLE_WEB_URL (dify_config env)
                               ++ "/signin/invite-settings?invite_token=" ++ tok) None)
        end
      else None
  | None => None
  end.

(** [token = get_access_token(code); user_info = get_user_info(token)]. *)
Definition exchange (env : Env) (provider : string) (client : OAuthClient)
    (code : string) : M OAuthUserInfo :=
  modify (record_call (CallGetAccessToken provider code)) ;;;
  match provider_get_access_token env client code with
  | inl e => raise e
  | inr token =>
      modify (record_call (CallGetUserInfo provider token)) ;;;
      match provider_get_user_info env client token with
      | inl e => raise e
      | inr user_info => ret user_info
      end
  end.

Definition OAuthCallback_get (env : Env) (req : Request) (provider : string)
    : M Response :=
  match get_oauth_providers env provider with
  | None => ret (Json "Invalid provider" 400)
  | Some oauth_provider =>
      let code := args_code req in
      let state := args_state req in
      let invite_token := if Py.truthy_opt state then state else None in
      if negb (Py.truthy_opt code) then ret (Json "Authorization code is required" 400)
      else
        fun s =>
          match exchange env provider oauth_provider (default "" code) s with
          | (inl (RequestError error_text), s') =>
              (inr (Json "OAuth process failed" 400),
               record_call (CallLogInfo error_text) s')
          | (inl e, s') => (inl e, s')
          | (inr user_info, s') =>
              match invite_redirect env invite_token user_info with
              | Some r => (inr r, s')
              | None => login_account env req provider user_info s'
              end
          end
  end.

(** ** What a sync may add *)

(** The mapping row the sync writes next to a tenant it creates. *)
Definition mapping_of_tenant (t : Tenant) : CasdoorOrganizationMapping :=
  mkMapping (default "" (tenant_casdoor_org_id t)) (tenant_id t).

(** The shape of every tenant the sync creates. *)
Definition organisation_tenant (t : Tenant) : Prop :=
  is_Some (tenant_casdoor_org_id t)
  /\ tenant_plan t = "basic" /\ tenant_status t = "normal".

(** The shape of every membership the sync creates for account [a]. *)
Definition owner_join_of (a : nat) (j : TenantAccountJoin) : Prop :=
  join_account_id j = a /\ join_role j = "owner".

(** The store of [st] is [s0] with tenants, their mappings and owner
    memberships of [a] appended. *)
Definition grown_from (a : nat) (s0 : Store) (st : SyncState) : Prop :=
  exists ts js,
    tenants (st_store st) = tenants s0 ++ ts /\
    mappings (st_store st) = mappings s0 ++ map mapping_of_tenant ts /\
    joins (st_store st) = joins s0 ++ js /\
    Forall organisation_tenant ts /\ Forall (owner_join_of a) js.

Definition join_pair (j : TenantAccountJoin) : nat * nat :=
  (join_tenant_id j, join_account_id j).

(** ** [OAuthLogin.get] *)

(** [get_authorization_url] belongs to the provider client and is taken
    as given; [invite_token_arg] is [request.args.get("invite_token")]. *)
Definition OAuthLogin_get (env : Env)
    (get_authorization_url : OAuthClient -> option string -> string)
    (invite_token_arg : option string) (provider : string) : Response :=
  let invite_token :=
    if Py.truthy_opt invite_token_arg then invite_token_arg else None in
  match get_oauth_providers env provider with
  | None => Json "Invalid provider" 400
  | Some oauth_provider =>
      Redirect (get_authorization_url oauth_provider invite_token) None
  end.

(** The provider name is one of the two known ones and both of its
    settings are non-empty. *)
Definition provider_configured (env : Env) (provider : string) : Prop :=
  (provider = "github"
   /\ Py.truthy_opt (GITHUB_CLIENT_ID (dify_config env)) = true
   /\ Py.truthy_opt (GITHUB_CLIENT_SECRET (dify_config env)) = true)
  \/ (provider = "casdoor"
      /\ Py.truthy_opt (CASDOOR_CLIENT_ID (dify_config env)) = true
      /\ Py.truthy_opt (CASDOOR_CLIENT_SECRET (dify_config env)) = true).

(** The five tables, without the call log. *)
Definition same_tables (s s' : Store) : Prop :=
  accounts s' = accounts s /\ tenants s' = tenants s /\
  mappings s' = mappings s /\ joins s' = joins s /\
  integrates s' = integrates s.

(** The invite token the callback works with: [state] when it is
    non-empty. *)
Definition invite_token_of (req : Request) : option string :=
  if Py.truthy_opt (args_state req) then args_state req else None.

(** The test [create_owner_tenant_if_not_exist] makes: does the account
    have any membership row. *)
Definition has_membership (s : Store) (a : nat) : bool :=
  existsb (fun j => Nat.eqb (join_account_id j) a) (joins s).

(** The store after the two provider calls of the callback. *)
Definition after_exchange (provider code token : string) (s : Store) : Store :=
  record_call (CallGetUserInfo provider token)
    (record_call (CallGetAccessToken provider code) s).

(** ** [WorkspaceService]: the tenant hierarchy *)

Local Unset Elimination Schemes.

(** The dict [{"id": ..., "name": ..., "children": [...]}]. *)
Inductive HierarchyNode :=
| mkNode (id : nat) (name : string) (children : list HierarchyNode).

Local Set Elimination Schemes.

Definition node_id (n : HierarchyNode) : nat :=
  match n with mkNode i _ _ => i end.

Definition node_name (n : HierarchyNode) : string :=
  match n with mkNode _ x _ => x end.

Definition node_children (n : HierarchyNode) : list HierarchyNode :=
  match n with mkNode _ _ c => c end.

(** [db.session.query(Tenant).filter_by(parent_id=tid).all()]. *)
Definition children_of (s : Store) (tid : nat) : list Tenant :=
  List.filter (fun t => bool_decide (tenant_parent_id t = Some tid)) (tenants s).

(** [db.session.query(Tenant).filter_by(parent_id=None).all()]. *)
Definition root_tenants (s : Store) : list Tenant :=
  List.filter (fun t => bool_decide (tenant_parent_id t = None)) (tenants s).

(** The nested function [get_children].  It calls itself once per child
    and nothing in it stops at a tenant met before; Python ends a
    recursion that gets too deep with [RecursionError].  [depth] is the
    number of nested calls still allowed, [None] the error. *)
Fixpoint get_children (depth : nat) (s : Store) (tid : nat)
    : option (list HierarchyNode) :=
  match depth with
  | 0 => None
  | S d =>
      mapM (fun child =>
              children ← get_children d s (tenant_id child);
              Some (mkNode (tenant_id child) (tenant_name child) children))
           (children_of s tid)
  end.

(** [WorkspaceService.get_tenant_hierarchy]; the inner [None] is the
    empty dict returned for an unknown tenant. *)
Definition get_tenant_hierarchy (depth : nat) (s : Store) (tid : nat)
    : option (option HierarchyNode) :=
  match find_tenant s tid with
  | None => Some None
  | Some tenant =>
      children ← get_children depth s (tenant_id tenant);
      Some (Some (mkNode (tenant_id tenant) (tenant_name tenant) children))
  end.

(** [WorkspaceService.get_all_tenants_with_hierarchy]. *)
Definition get_all_tenants_with_hierarchy (depth : nat) (s : Store)
    : option (list HierarchyNode) :=
  mapM (fun tenant =>
          children ← get_children depth s (tenant_id tenant);
          Some (mkNode (tenant_id tenant) (tenant_name tenant) children))
       (root_tenants s).

(** [c] is the key of a tenant whose parent is [p]. *)
Definition is_child (s : Store) (p c : nat) : Prop :=
  exists t, t ∈ tenants s /\ tenant_id t = c /\ tenant_parent_id t = Some p.

(** Every tenant with a parent sits on a higher level than the parent,
    and no level exceeds [bound]. *)
Definition levelled (level : nat -> nat) (bound : nat) (s : Store) : Prop :=
  forall t p, t ∈ tenants s -> tenant_parent_id t = Some p ->
              level p < level (tenant_id t) /\ level (tenant_id t) <= bound.

(** The parent links form no cycle. *)
Definition acyclic (s : Store) : Prop :=
  exists level bound, levelled level bound s.

(** ** [service_api/app/app.py]: the API keys of an app *)

Module ApiKeys.

Record App := mkApp {
  app_id : string;
  app_tenant_id : string
}.

Record ApiToken := mkApiToken {
  token_id : string;
  token_app_id : option string;
  token_tenant_id : option string;
  token_type : string;
  token_token : string
}.

(** The two tables the resources touch. *)
Record KeyStore := mkKeyStore {
  apps : list App;
  api_tokens : list ApiToken
}.

(** What the resources read of [current_user]. *)
Record CurrentUser := mkCurrentUser {
  current_tenant_id : string;
  is_editor : bool;
  is_admin_or_owner : bool
}.

(** [flask_restful.abort(status, message=...)] and [raise Forbidden()]. *)
Inductive HttpError :=
| Abort (status : nat) (message : string)
| Forbidden.

(** The class attributes of [AppApiKeyListResource] and
    [AppApiKeyResource]; [max_keys] is inherited from the base class. *)
Definition resource_type : string := "app".
Definition token_prefix : string := "app-".
Definition max_keys : nat := 10.

(** [_get_resource(resource_id, tenant_id, App)]. *)
Definition _get_resource (resource_id tenant_id : string) (s : KeyStore)
    : HttpError + App :=
  match List.find (fun r => String.eqb (app_id r) resource_id
                            && String.eqb (app_tenant_id r) tenant_id) (apps s) with
  | None => inl (Abort 404 "App not found.")
  | Some resource => inr resource
  end.

(** [ApiToken.type == resource_type, ApiToken.app_id == resource_id]. *)
Definition key_of_resource (resource_id : string) (k : ApiToken) : bool :=
  String.eqb (token_type k) resource_type
  && bool_decide (token_app_id k = Some resource_id).

Definition resource_keys (s : KeyStore) (resource_id : string) : list ApiToken :=
  List.filter (key_of_resource resource_id) (api_tokens s).

(** [BaseApiKeyListResource.get]: [{"items": keys}]. *)
Definition list_get (user : CurrentUser) (resource_id : string) (s : KeyStore)
    : HttpError + list ApiToken :=
  match _get_resource resource_id (current_tenant_id user) s with
  | inl e => inl e
  | inr _ => inr (resource_keys s resource_id)
  end.

(** [BaseApiKeyListResource.post].  [generate_api_key] stands for
    [ApiToken.generate_api_key] and [new_id] for the primary key the
    database gives the new row. *)
Definition list_post (generate_api_key : string -> nat -> string) (new_id : string)
    (user : CurrentUser) (resource_id : string) (s : KeyStore)
    : (HttpError + ApiToken * nat) * KeyStore :=
  match _get_resource resource_id (current_tenant_id user) s with
  | inl e => (inl e, s)
  | inr _ =>
      if negb (is_editor user) then (inl Forbidden, s)
      else
        let current_key_count := length (resource_keys s resource_id) in
        if Nat.leb max_keys current_key_count then
          (inl (Abort 400 "Cannot create more than 10 API keys for this resource type."),
           s)
        else
          let key := generate_api_key token_prefix 24 in
          let api_token :=
            mkApiToken new_id (Some resource_id) (Some (current_tenant_id user))
                       resource_type key in
          (inr (api_token, 201), mkKeyStore (apps s) (api_tokens s ++ [api_token]))
  end.

(** [BaseApiKeyResource.delete]; the result on success is
    [{"result": "success"}, 204]. *)
Definition key_delete (user : CurrentUser) (resource_id api_key_id : string)
    (s : KeyStore) : (HttpError + string * nat) * KeyStore :=
  match _get_resource resource_id (current_tenant_id user) s with
  | inl e => (inl e, s)
  | inr _ =>
      if negb (is_admin_or_owner user) then (inl Forbidden, s)
      else
        match List.find (fun k => bool_decide (token_app_id k = Some resource_id)
                                  && String.eqb (token_type k) resource_type
                                  && String.eqb (token_id k) api_key_id)
                        (api_tokens s) with
        | None => (inl (Abort 404 "API key not found"), s)
        | Some _ =>
            (inr ("success", 204),
             mkKeyStore (apps s)
               (List.filter (fun k => negb (String.eqb (token_id k) api_key_id))
                            (api_tokens s)))
        end
  end.

(** The app is one of the user's current tenant. *)
Definition owns_app (user : CurrentUser) (resource_id : string) (s : KeyStore) : Prop :=
  exists r, r ∈ apps s /\ app_id r = resource_id
            /\ app_tenant_id r = current_tenant_id user.

End ApiKeys.

(** * Vocabulary of the properties *)

(** The local dict is the mapping table, and [user_tenant_ids] holds the
    keys of the existing tenants the account is a member of. *)
Definition sync_inv (a : nat) (st : SyncState) : Prop :=
  org_to_tenant st = load_org_to_tenant (mappings (st_store st)) /\
  forall t, t ∈ user_tenant_ids st <->
            is_Some (find_tenant (st_store st) t)
            /\ is_member (st_store st) a t = true.

(** The cumulative keys of the levels in [l], a part of
    [enumerate(org_path_parts)]. *)
Definition level_keys (root_org : string) (org_path_parts : list string)
    (l : list (nat * string)) : list string :=
  map (fun ip => full_org_path root_org org_path_parts ip.1) l.

(** Every key one organisation string makes the loop look up. *)
Definition org_keys (org : string) : list string :=
  if Py.truthy org then
    if Py.contains "/" org then
      let '(root_org, child_org_part) := Py.split_once "/" org in
      let org_path_parts := Py.split "-" child_org_part in
      root_org :: level_keys root_org org_path_parts (Py.enumerate org_path_parts)
    else [org]
  else [].

(** A key is settled when it is mapped, and its tenant is either among
    [user_tenant_ids] or missing from the tenant table. *)
Definition settled (k : string) (st : SyncState) : Prop :=
  exists t, org_to_tenant st !! k = Some t /\
            (t ∈ user_tenant_ids st \/ find_tenant (st_store st) t = None).

Definition add_joins (js : list TenantAccountJoin) (s : Store) : Store :=
  mkStore (accounts s) (tenants s) (mappings s) (joins s ++ js)
          (integrates s) (calls s).

Ltac in_list :=
  rewrite ?elem_of_app, ?elem_of_cons, ?list_elem_of_singleton; tauto.

(** The list grows by the tenants attached in this pass, and the join
    table grows by one owner row for each of them, in the same order. *)
Definition attached_since (a : nat) (s0 : Store) (ids0 : list nat)
    (st : SyncState) : Prop :=
  exists new_ids,
    user_tenant_ids st = ids0 ++ new_ids /\
    joins (st_store st) = joins s0 ++ map (fun t => mkJoin t a "owner") new_ids.

(** * Sample data *)

Definition demo_config : Config :=
  mkConfig None None (Some "casdoor-client") (Some "casdoor-secret")
           "https://api.example.com" "https://console.example.com" false.

Definition ann : OAuthUserInfo :=
  mkUserInfo "cas-ann" (Some "Ann") "ann@example.com" ["Acme"].

(** Registration is closed, billing is off, every email counts as frozen;
    the provider answers every code with Ann's identity; the one valid
    invite token is bound to Bob's email. *)
Definition demo_env : Env :=
  mkEnv demo_config ["en-US"; "zh-Hans"] false true (fun _ => true)
        (fun _ code => inr ("token-for-" ++ code)%string)
        (fun _ _ => inr ann)
        (fun tok => String.eqb tok "invite-1")
        (fun _ => Some [("email", "bob@example.com")])
        1000
        (fun _ _ => mkTokenPair "access" "refresh" "csrf").

Definition demo_request : Request :=
  mkRequest (Some "code-1") None (fun _ => None) "127.0.0.1".

Definition casdoor_client : OAuthClient :=
  mkClient CasdoorOAuth "casdoor-client" "casdoor-secret"
           "https://api.example.com/console/api/oauth/authorize/casdoor".

Definition old_tenant : Tenant := mkTenant 7 "Old" None None "basic" "normal".

(** Ann has an account and is a member of one workspace; [status] is the
    status of her account. *)
Definition ann_store (status : AccountStatus) : Store :=
  mkStore [mkAccount 1 "ann@example.com" "Ann" status "en-US" None None]
          [old_tenant] [] [mkJoin 7 1 "normal"] [] [].

Definition acme_tenant (t : nat) : Tenant :=
  mkTenant t "Acme" (Some "Acme") None "basic" "normal".

Definition with_orgs (orgs : list string) : OAuthUserInfo :=
  mkUserInfo "cas-ann" (Some "Ann") "ann@example.com" orgs.

Definition exchanged (s : Store) : Store :=
  record_call (CallGetUserInfo "casdoor" "token-for-code-1")
    (record_call (CallGetAccessToken "casdoor" "code-1") s).

Definition invite_request : Request :=
  mkRequest (Some "code-1") (Some "invite-1") (fun _ => None) "127.0.0.1".

Definition codeless_request : Request :=
  mkRequest None None (fun _ => None) "127.0.0.1".

(** ** More sample data *)

Definition answer_with_ann : OAuthClient -> string -> Exn + OAuthUserInfo :=
  fun _ _ => inr ann.

Definition token_for : OAuthClient -> string -> Exn + string :=
  fun _ code => inr ("token-for-" ++ code)%string.

(** Registration is open and workspaces may be created. *)
Definition open_env : Env :=
  mkEnv demo_config ["en-US"; "zh-Hans"] true true (fun _ => false)
        token_for answer_with_ann (fun _ => false) (fun _ => None) 1000
        (fun _ _ => mkTokenPair "access" "refresh" "csrf").

(** Registration is closed and workspaces may not be created. *)
Definition strict_env : Env :=
  mkEnv demo_config ["en-US"; "zh-Hans"] false false (fun _ => false)
        token_for answer_with_ann (fun _ => false) (fun _ => None) 1000
        (fun _ _ => mkTokenPair "access" "refresh" "csrf").

(** The provider cannot be reached. *)
Definition failing_env : Env :=
  mkEnv demo_config ["en-US"; "zh-Hans"] true true (fun _ => false)
        (fun _ _ => inl (RequestError "timed out")) answer_with_ann
        (fun _ => false) (fun _ => None) 1000
        (fun _ _ => mkTokenPair "access" "refresh" "csrf").

(** The valid invite token is bound to Ann's own email. *)
Definition own_invite_env : Env :=
  mkEnv demo_config ["en-US"; "zh-Hans"] true true (fun _ => false)
        token_for answer_with_ann
        (fun tok => String.eqb tok "invite-1")
        (fun _ => Some [("email", "ann@example.com")]) 1000
        (fun _ _ => mkTokenPair "access" "refresh" "csrf").

Definition ann_account (status : AccountStatus) : Account :=
  mkAccount 1 "ann@example.com" "Ann" status "en-US" None None.

(** Ann has an account and no workspace. *)
Definition lonely_store : Store :=
  mkStore [ann_account ACTIVE] [] [] [] [] [].

(** Two accounts share Ann's email. *)
Definition twin_store : Store :=
  mkStore [ann_account ACTIVE;
           mkAccount 2 "ann@example.com" "Ann B" ACTIVE "en-US" None None]
          [] [] [] [] [].

Definition bob_account : Account :=
  mkAccount 2 "bob@example.com" "Bob" ACTIVE "en-US" None None.

(** Ann's Casdoor identity is linked to Bob's account, while Ann's own
    account carries the identity's email. *)
Definition crossed_store : Store :=
  mkStore [ann_account ACTIVE; bob_account] [] [] []
          [mkIntegrate "casdoor" "cas-ann" 2] [].

(** Ann's account is PENDING and linked to her Casdoor identity. *)
Definition linked_store : Store :=
  mkStore [ann_account PENDING] [old_tenant] [] [mkJoin 7 1 "normal"]
          [mkIntegrate "casdoor" "cas-ann" 1] [].

(** The organisation "Acme" is mapped to the old tenant; Ann is not a
    member of it. *)
Definition mapped_store : Store :=
  mkStore [ann_account ACTIVE] [old_tenant] [mkMapping "Acme" 7] [] [] [].

(** A tenant that is its own parent. *)
Definition cyclic_store : Store :=
  mkStore [] [mkTenant 1 "Loop" None (Some 1) "basic" "normal"] [] [] [] [].

(** A root with a child and a grandchild. *)
Definition tree_store : Store :=
  mkStore []
          [mkTenant 1 "Acme" (Some "Acme") None "basic" "normal";
           mkTenant 2 "dept" (Some "Acme/dept") (Some 1) "basic" "normal";
           mkTenant 3 "team" (Some "Acme/dept-team") (Some 2) "basic" "normal"]
          [] [] [] [].

Definition key_1 : ApiKeys.ApiToken :=
  ApiKeys.mkApiToken "key-1" (Some "app-1") (Some "tenant-1") "app" "app-abc".

(** One app of tenant-1 with one key. *)
Definition key_store : ApiKeys.KeyStore :=
  ApiKeys.mkKeyStore [ApiKeys.mkApp "app-1" "tenant-1"] [key_1].

Definition owner_of_tenant_1 : ApiKeys.CurrentUser :=
  ApiKeys.mkCurrentUser "tenant-1" true true.

Definition owner_of_tenant_2 : ApiKeys.CurrentUser :=
  ApiKeys.mkCurrentUser "tenant-2" true true.

Definition sample_generate_api_key : string -> nat -> string :=
  fun prefix _ => (prefix ++ "generated")%string.

Definition key_2 : ApiKeys.ApiToken :=
  ApiKeys.mkApiToken "key-2" (Some "app-1") (Some "tenant-1") "app" "app-generated".

(** Decide a closed decidable proposition by evaluation. *)
Ltac by_evaluation := refine (bool_decide_unpack _ _); vm_compute; exact I.

(** * Properties *)

(** ** The sync loop is built from two steps *)

Section SyncInduction.
Variable a : nat.
Variable P : SyncState -> Prop.
Hypothesis P_ensure : forall name key parent st,
  P st -> P (ensure_tenant name key parent st).
Hypothesis P_attach : forall st t, P st -> P (attach a st t).

Lemma levels_fold_preserves root parts l st p ids :
  P st -> P (foldl (level_step root parts) (st, p, ids) l).1.1.
Proof.
  revert st p ids; induction l as [|[i part] l IH]; intros st p ids H; simpl.
  - exact H.
  - apply IH. now apply P_ensure.
Qed.

Lemma attach_fold_preserves ts st : P st -> P (foldl (attach a) st ts).
Proof.
  revert st; induction ts as [|t ts IH]; intros st H; simpl; auto.
Qed.

Lemma sync_org_preserves st org : P st -> P (sync_org a st org).
Proof.
  intros H. unfold sync_org.
  destruct (Py.truthy org); [|exact H].
  destruct (Py.contains "/" org).
  - unfold sync_path. destruct (Py.split_once "/" org) as [root_org child].
    pose proof (levels_fold_preserves root_org (Py.split "-" child)
                  (Py.enumerate (Py.split "-" child))
                  (ensure_tenant root_org root_org None st)
                  (org_to_tenant (ensure_tenant root_org root_org None st) !!! root_org)
                  [org_to_tenant (ensure_tenant root_org root_org None st) !!! root_org]
                  (P_ensure _ _ _ _ H)) as H2.
    destruct (foldl _ _ _) as [[st2 p] ids]. simpl in H2.
    now apply attach_fold_preserves.
  - unfold sync_flat. apply P_attach. now apply P_ensure.
Qed.

Lemma sync_loop_preserves orgs st : P st -> P (foldl (sync_org a) st orgs).
Proof.
  revert st; induction orgs as [|org orgs IH]; intros st H; simpl; auto.
  apply IH. now apply sync_org_preserves.
Qed.
End SyncInduction.

(** ** Reading the tables *)

Lemma find_app_l {A} (f : A -> bool) l1 l2 x :
  List.find f l1 = Some x -> List.find f (l1 ++ l2) = Some x.
Proof.
  induction l1 as [|y l1 IH]; simpl; [discriminate|].
  destruct (f y); auto.
Qed.

Lemma find_app_r {A} (f : A -> bool) l1 l2 :
  List.find f l1 = None -> List.find f (l1 ++ l2) = List.find f l2.
Proof.
  induction l1 as [|y l1 IH]; simpl; [reflexivity|].
  destruct (f y); [discriminate|auto].
Qed.

Lemma find_tenant_Some s t x :
  find_tenant s t = Some x -> x ∈ tenants s /\ tenant_id x = t.
Proof.
  unfold find_tenant. intros H. apply find_some in H as [H1 H2].
  split; [now apply list_elem_of_In|now apply Nat.eqb_eq].
Qed.

Lemma find_tenant_None s t :
  find_tenant s t = None <-> (forall x, x ∈ tenants s -> tenant_id x <> t).
Proof.
  unfold find_tenant. split.
  - intros H x Hx E. apply list_elem_of_In in Hx.
    pose proof (find_none _ _ H x Hx) as Hn. simpl in Hn.
    apply Nat.eqb_neq in Hn. contradiction.
  - intros H. destruct (List.find _ _) as [x|] eqn:E; [|reflexivity].
    apply find_some in E as [E1 E2]. apply Nat.eqb_eq in E2.
    apply list_elem_of_In in E1. now destruct (H x E1).
Qed.

Lemma find_tenant_is_Some s t :
  is_Some (find_tenant s t) <-> exists x, x ∈ tenants s /\ tenant_id x = t.
Proof.
  split.
  - intros [x Hx]. exists x. now apply find_tenant_Some.
  - intros (x & Hx & E). destruct (find_tenant s t) eqn:F; [eauto|].
    rewrite find_tenant_None in F. now destruct (F x Hx).
Qed.

Lemma is_member_true s a t :
  is_member s a t = true <->
  exists j, j ∈ joins s /\ join_tenant_id j = t /\ join_account_id j = a.
Proof.
  unfold is_member. rewrite existsb_exists. split.
  - intros (j & Hj & E). apply andb_true_iff in E as [E1 E2].
    apply Nat.eqb_eq in E1, E2. exists j. now rewrite <- list_elem_of_In in Hj.
  - intros (j & Hj & E1 & E2). exists j. rewrite <- list_elem_of_In. split; [done|].
    apply andb_true_iff. now rewrite !Nat.eqb_eq.
Qed.

Lemma joined_ids_spec s a t :
  t ∈ map tenant_id (get_join_tenants s a) <->
  is_Some (find_tenant s t) /\ is_member s a t = true.
Proof.
  unfold get_join_tenants. rewrite find_tenant_is_Some. split.
  - intros H. apply list_elem_of_fmap in H as (x & -> & Hx).
    apply list_elem_of_In, filter_In in Hx as [Hx Hm].
    apply list_elem_of_In in Hx. eauto.
  - intros [(x & Hx & <-) Hm]. apply list_elem_of_fmap. exists x. split; [done|].
    apply list_elem_of_In, filter_In. split; [now apply list_elem_of_In|done].
Qed.

(** ** Fresh keys *)

Lemma fresh_tenant_id_gt s t :
  t ∈ mentioned_tenant_ids s -> t < fresh_tenant_id s.
Proof.
  intros H. apply max_list_elem_of_le in H. unfold fresh_tenant_id. lia.
Qed.

Lemma tenant_id_lt_fresh s x : x ∈ tenants s -> tenant_id x < fresh_tenant_id s.
Proof.
  intros H. apply fresh_tenant_id_gt. unfold mentioned_tenant_ids.
  apply elem_of_app. left. apply list_elem_of_fmap. eauto.
Qed.

Lemma mapping_id_lt_fresh s m :
  m ∈ mappings s -> mapping_tenant_id m < fresh_tenant_id s.
Proof.
  intros H. apply fresh_tenant_id_gt. unfold mentioned_tenant_ids.
  rewrite !elem_of_app. right. right. left. apply list_elem_of_fmap. eauto.
Qed.

Lemma join_id_lt_fresh s j :
  j ∈ joins s -> join_tenant_id j < fresh_tenant_id s.
Proof.
  intros H. apply fresh_tenant_id_gt. unfold mentioned_tenant_ids.
  rewrite !elem_of_app. right. right. right. left. apply list_elem_of_fmap. eauto.
Qed.

Lemma find_tenant_fresh s t : fresh_tenant_id s <= t -> find_tenant s t = None.
Proof.
  intros H. apply find_tenant_None. intros x Hx E.
  apply tenant_id_lt_fresh in Hx. lia.
Qed.

Lemma is_member_fresh s a t : fresh_tenant_id s <= t -> is_member s a t = false.
Proof.
  intros H. destruct (is_member s a t) eqn:E; [|reflexivity].
  apply is_member_true in E as (j & Hj & E1 & _).
  apply join_id_lt_fresh in Hj. lia.
Qed.

(** ** The dict read from the mapping table *)

Lemma load_org_to_tenant_snoc ms m :
  load_org_to_tenant (ms ++ [m]) =
  <[mapping_casdoor_org_id m := mapping_tenant_id m]> (load_org_to_tenant ms).
Proof. unfold load_org_to_tenant. now rewrite foldl_app. Qed.

Lemma load_org_to_tenant_Some ms k t :
  load_org_to_tenant ms !! k = Some t ->
  exists m, m ∈ ms /\ mapping_casdoor_org_id m = k /\ mapping_tenant_id m = t.
Proof.
  induction ms as [|m ms IH] using rev_ind.
  - unfold load_org_to_tenant; simpl. now rewrite lookup_empty.
  - rewrite load_org_to_tenant_snoc.
    destruct (decide (mapping_casdoor_org_id m = k)) as [E|N].
    + rewrite E, lookup_insert_eq. intros [= <-].
      exists m. rewrite elem_of_app, list_elem_of_singleton. auto.
    + rewrite lookup_insert_ne by done. intros H.
      destruct (IH H) as (m' & Hm & ?). exists m'. rewrite elem_of_app. auto.
Qed.

Lemma load_org_to_tenant_None ms k :
  load_org_to_tenant ms !! k = None <->
  (forall m, m ∈ ms -> mapping_casdoor_org_id m <> k).
Proof.
  induction ms as [|m ms IH] using rev_ind.
  - unfold load_org_to_tenant; simpl. rewrite lookup_empty. split; [|done].
    intros _ m Hm. now apply elem_of_nil in Hm.
  - rewrite load_org_to_tenant_snoc. split.
    + intros H m' Hm'. destruct (decide (mapping_casdoor_org_id m = k)) as [E|N].
      * now rewrite E, lookup_insert_eq in H.
      * rewrite lookup_insert_ne in H by done.
        apply elem_of_app in Hm' as [Hm'|Hm'].
        -- now apply IH.
        -- apply list_elem_of_singleton in Hm'. now subst.
    + intros H. rewrite lookup_insert_ne.
      * apply IH. intros m' Hm'. apply H, elem_of_app. auto.
      * apply H, elem_of_app. right. now apply list_elem_of_singleton.
Qed.

(** ** What the two steps do *)

Lemma ensure_tenant_present name key parent st t :
  org_to_tenant st !! key = Some t -> ensure_tenant name key parent st = st.
Proof. unfold ensure_tenant. now intros ->. Qed.

Lemma ensure_tenant_absent name key parent st :
  org_to_tenant st !! key = None ->
  ensure_tenant name key parent st =
  let new_id := fresh_tenant_id (st_store st) in
  mkSync (add_mapping (mkMapping key new_id)
            (add_tenant (mkTenant new_id name (Some key) parent "basic" "normal")
               (st_store st)))
         (<[key := new_id]> (org_to_tenant st))
         (<[new_id := key]> (tenant_to_org st))
         (user_tenant_ids st).
Proof. unfold ensure_tenant. now intros ->. Qed.

(** [org_to_tenant[key]] right after the block cannot raise [KeyError]. *)
Lemma ensure_tenant_lookup name key parent st :
  org_to_tenant (ensure_tenant name key parent st) !! key
  = Some (org_to_tenant (ensure_tenant name key parent st) !!! key).
Proof.
  apply lookup_lookup_total. unfold ensure_tenant.
  destruct (org_to_tenant st !! key) eqn:E; simpl.
  - rewrite E. eauto.
  - rewrite lookup_insert_eq. eauto.
Qed.

Lemma ensure_tenant_keeps name key parent st k t :
  org_to_tenant st !! k = Some t ->
  org_to_tenant (ensure_tenant name key parent st) !! k = Some t.
Proof.
  intros H. unfold ensure_tenant.
  destruct (org_to_tenant st !! key) eqn:E; simpl; [done|].
  rewrite lookup_insert_ne; [done|]. intros ->. congruence.
Qed.

Lemma ensure_tenant_user_tenant_ids name key parent st :
  user_tenant_ids (ensure_tenant name key parent st) = user_tenant_ids st.
Proof. unfold ensure_tenant. now destruct (org_to_tenant st !! key). Qed.

Lemma attach_skip a st t :
  t ∈ user_tenant_ids st \/ find_tenant (st_store st) t = None ->
  attach a st t = st.
Proof.
  unfold attach. intros [H|H].
  - now rewrite decide_True.
  - rewrite H. now destruct (decide _).
Qed.

Lemma attach_new a st t x :
  t ∉ user_tenant_ids st ->
  find_tenant (st_store st) t = Some x ->
  is_member (st_store st) a t = false ->
  attach a st t =
  mkSync (add_join (mkJoin t a "owner") (st_store st))
         (org_to_tenant st) (tenant_to_org st) (user_tenant_ids st ++ [t]).
Proof.
  intros H1 H2 H3. unfold attach. rewrite decide_False, H2 by done.
  apply find_tenant_Some in H2 as [_ E]. unfold create_tenant_member.
  now rewrite E, H3.
Qed.

Lemma attach_org_to_tenant a st t :
  org_to_tenant (attach a st t) = org_to_tenant st.
Proof.
  unfold attach. destruct (decide _); [done|].
  now destruct (find_tenant _ _).
Qed.

Lemma attach_tenants a st t :
  tenants (st_store (attach a st t)) = tenants (st_store st).
Proof.
  unfold attach. destruct (decide _); [done|].
  destruct (find_tenant _ _); [|done]. simpl.
  unfold create_tenant_member. now destruct (is_member _ _ _).
Qed.

Lemma attach_mappings a st t :
  mappings (st_store (attach a st t)) = mappings (st_store st).
Proof.
  unfold attach. destruct (decide _); [done|].
  destruct (find_tenant _ _); [|done]. simpl.
  unfold create_tenant_member. now destruct (is_member _ _ _).
Qed.

Lemma attach_grows a st t t' :
  t' ∈ user_tenant_ids st -> t' ∈ user_tenant_ids (attach a st t).
Proof.
  intros H. unfold attach. destruct (decide _); [done|].
  destruct (find_tenant _ _); [|done]. simpl. apply elem_of_app. auto.
Qed.

Lemma attach_done a st t :
  t ∈ user_tenant_ids (attach a st t)
  \/ find_tenant (st_store (attach a st t)) t = None.
Proof.
  unfold attach. destruct (decide _) as [H|H]; [auto|].
  destruct (find_tenant _ _) eqn:E; [|auto]. left. simpl.
  apply elem_of_app. right. now apply list_elem_of_singleton.
Qed.

(** ** The invariant of the loop *)

Lemma sync_inv_init a s : sync_inv a (sync_init a s).
Proof.
  split; [reflexivity|]. intros t. simpl. apply joined_ids_spec.
Qed.

Lemma find_tenant_add_tenant s x t :
  is_Some (find_tenant (add_tenant x s) t) <->
  is_Some (find_tenant s t) \/ tenant_id x = t.
Proof.
  rewrite !find_tenant_is_Some. simpl. split.
  - intros (y & Hy & E). apply elem_of_app in Hy as [Hy|Hy]; [eauto|].
    apply list_elem_of_singleton in Hy. subst. auto.
  - intros [(y & Hy & E)|E].
    + exists y. rewrite elem_of_app. auto.
    + exists x. rewrite elem_of_app, list_elem_of_singleton. auto.
Qed.

Lemma sync_inv_ensure a name key parent st :
  sync_inv a st -> sync_inv a (ensure_tenant name key parent st).
Proof.
  intros [I1 I2]. unfold ensure_tenant.
  destruct (org_to_tenant st !! key) eqn:E; [now split|].
  split; simpl.
  - now rewrite load_org_to_tenant_snoc, I1.
  - intros t. rewrite I2.
    change (find_tenant (add_mapping ?m ?s) t) with (find_tenant s t).
    change (is_member (add_mapping ?m (add_tenant ?x ?s)) a t) with (is_member s a t).
    rewrite find_tenant_add_tenant. simpl. split; [tauto|].
    intros [[H| <-] Hm]; [tauto|].
    now rewrite is_member_fresh in Hm.
Qed.

Lemma is_member_add_join s j a t :
  is_member (add_join j s) a t = true <->
  is_member s a t = true \/ (join_tenant_id j = t /\ join_account_id j = a).
Proof.
  rewrite !is_member_true. simpl. split.
  - intros (j' & Hj & E). apply elem_of_app in Hj as [Hj|Hj]; [eauto|].
    apply list_elem_of_singleton in Hj. subst. auto.
  - intros [(j' & Hj & E)|E].
    + exists j'. rewrite elem_of_app. auto.
    + exists j. rewrite elem_of_app, list_elem_of_singleton. auto.
Qed.

Lemma sync_inv_attach a st t : sync_inv a st -> sync_inv a (attach a st t).
Proof.
  intros [I1 I2]. unfold attach.
  destruct (decide _) as [H|H]; [now split|].
  destruct (find_tenant _ _) as [x|] eqn:F; [|now split].
  assert (is_member (st_store st) a t = false) as Hm.
  { destruct (is_member _ _ _) eqn:M; [|done]. destruct H. apply I2. eauto. }
  pose proof (find_tenant_Some _ _ _ F) as [_ Ex].
  unfold create_tenant_member. rewrite Ex, Hm.
  split; simpl; [done|]. intros t'.
  rewrite elem_of_app, list_elem_of_singleton, I2, is_member_add_join. simpl.
  change (find_tenant (add_join ?j ?s) t') with (find_tenant s t').
  split.
  - intros [[? ?]| ->]; [tauto|]. split; [rewrite F; eauto|auto].
  - intros [? [?|[? _]]]; auto.
Qed.

Lemma sync_inv_loop a orgs st :
  sync_inv a st -> sync_inv a (foldl (sync_org a) st orgs).
Proof.
  apply sync_loop_preserves.
  - intros; now apply sync_inv_ensure.
  - intros; now apply sync_inv_attach.
Qed.

(** ** Keys that need no more work *)

Lemma settled_ensure a k name key parent st :
  sync_inv a st -> settled k st -> settled k (ensure_tenant name key parent st).
Proof.
  intros [I1 _] (t & Ht & Hs). exists t. split; [now apply ensure_tenant_keeps|].
  rewrite ensure_tenant_user_tenant_ids. destruct Hs as [Hs|Hs]; [auto|right].
  unfold ensure_tenant. destruct (org_to_tenant st !! key) eqn:E; [done|]. simpl.
  apply find_tenant_None. simpl. intros x Hx.
  apply elem_of_app in Hx as [Hx|Hx].
  - rewrite find_tenant_None in Hs. now apply Hs.
  - apply list_elem_of_singleton in Hx. subst x. simpl.
    rewrite I1 in Ht. apply load_org_to_tenant_Some in Ht as (m & Hm & _ & <-).
    apply mapping_id_lt_fresh in Hm. lia.
Qed.

Lemma settled_attach a k st t : settled k st -> settled k (attach a st t).
Proof.
  intros (t' & Ht & Hs). exists t'. rewrite attach_org_to_tenant. split; [done|].
  destruct Hs as [Hs|Hs]; [left; now apply attach_grows|right].
  unfold find_tenant in *. now rewrite attach_tenants.
Qed.

Lemma settled_loop a k orgs st :
  sync_inv a st -> settled k st ->
  sync_inv a (foldl (sync_org a) st orgs) /\ settled k (foldl (sync_org a) st orgs).
Proof.
  intros H1 H2.
  apply (sync_loop_preserves a (fun st => sync_inv a st /\ settled k st)); [| |done].
  - intros name key parent st' [? ?].
    split; [now apply sync_inv_ensure|now apply (settled_ensure a)].
  - intros st' t [? ?]. split; [now apply sync_inv_attach|now apply settled_attach].
Qed.

(** *** A pass over settled keys changes nothing *)

Lemma levels_fold_noop root parts l st p ids :
  (forall k, k ∈ level_keys root parts l -> is_Some (org_to_tenant st !! k)) ->
  exists p', foldl (level_step root parts) (st, p, ids) l =
             (st, p', ids ++ map (fun k => org_to_tenant st !!! k)
                                 (level_keys root parts l)).
Proof.
  revert p ids; induction l as [|[i part] l IH]; intros p ids H; simpl.
  - exists p. now rewrite app_nil_r.
  - destruct (H (full_org_path root parts i)) as [t Ht].
    { simpl. apply elem_of_cons. auto. }
    rewrite (ensure_tenant_present _ _ _ _ _ Ht).
    destruct (IH (org_to_tenant st !!! full_org_path root parts i)
                 (ids ++ [org_to_tenant st !!! full_org_path root parts i])) as [p' E].
    { intros k Hk. apply H. simpl. apply elem_of_cons. auto. }
    exists p'. rewrite E. now rewrite <- app_assoc.
Qed.

Lemma attach_fold_noop a ts st :
  (forall t, t ∈ ts ->
     t ∈ user_tenant_ids st \/ find_tenant (st_store st) t = None) ->
  foldl (attach a) st ts = st.
Proof.
  induction ts as [|t ts IH]; intros H; simpl; [done|].
  rewrite attach_skip.
  - apply IH. intros t' Ht'. apply H, elem_of_cons. auto.
  - apply H, elem_of_cons. auto.
Qed.

Lemma settled_total k st :
  settled k st ->
  org_to_tenant st !!! k ∈ user_tenant_ids st
  \/ find_tenant (st_store st) (org_to_tenant st !!! k) = None.
Proof.
  intros (t & Ht & Hs). now rewrite (lookup_total_correct _ _ _ Ht).
Qed.

Lemma sync_org_noop a st org :
  (forall k, k ∈ org_keys org -> settled k st) -> sync_org a st org = st.
Proof.
  unfold org_keys, sync_org. destruct (Py.truthy org); [|done].
  destruct (Py.contains "/" org).
  - unfold sync_path. destruct (Py.split_once "/" org) as [root_org child].
    set (parts := Py.split "-" child). intros H.
    destruct (H root_org) as (t & Ht & Hs); [apply elem_of_cons; auto|].
    rewrite (ensure_tenant_present _ _ _ _ _ Ht).
    destruct (levels_fold_noop root_org parts (Py.enumerate parts) st
                (org_to_tenant st !!! root_org) [org_to_tenant st !!! root_org])
      as [p' E].
    { intros k Hk. destruct (H k) as (t' & Ht' & _); [apply elem_of_cons; auto|eauto]. }
    rewrite E. apply attach_fold_noop. intros t' Ht'.
    apply elem_of_app in Ht' as [Ht'|Ht'].
    + apply list_elem_of_singleton in Ht'. subst t'.
      apply settled_total, H, elem_of_cons. auto.
    + apply list_elem_of_fmap in Ht' as (k & -> & Hk).
      apply settled_total, H, elem_of_cons. auto.
  - unfold sync_flat. intros H.
    destruct (H org) as (t & Ht & Hs); [now apply list_elem_of_singleton|].
    rewrite (ensure_tenant_present _ _ _ _ _ Ht). apply attach_skip.
    now rewrite (lookup_total_correct _ _ _ Ht).
Qed.

Lemma sync_loop_noop a orgs st :
  (forall org k, org ∈ orgs -> k ∈ org_keys org -> settled k st) ->
  foldl (sync_org a) st orgs = st.
Proof.
  induction orgs as [|org orgs IH]; intros H; simpl; [done|].
  rewrite sync_org_noop.
  - apply IH. intros org' k Ho. apply H, elem_of_cons. auto.
  - intros k. apply H, elem_of_cons. auto.
Qed.

(** *** A pass settles the keys it meets *)

Lemma levels_fold_keys root parts l st p ids ks :
  (forall k, k ∈ ks -> exists t, t ∈ ids /\ org_to_tenant st !! k = Some t) ->
  forall k, k ∈ ks ++ level_keys root parts l ->
    exists t, t ∈ (foldl (level_step root parts) (st, p, ids) l).2 /\
              org_to_tenant (foldl (level_step root parts) (st, p, ids) l).1.1 !! k
              = Some t.
Proof.
  revert st p ids ks; induction l as [|[i part] l IH]; intros st p ids ks H k Hk.
  - simpl in *. rewrite app_nil_r in Hk. now apply H.
  - simpl. apply (IH _ _ _ (ks ++ [full_org_path root parts i])).
    + intros k' Hk'. apply elem_of_app in Hk' as [Hk'|Hk'].
      * destruct (H k' Hk') as (t & Ht1 & Ht2). exists t.
        split; [apply elem_of_app; auto|now apply ensure_tenant_keeps].
      * apply list_elem_of_singleton in Hk'. subst k'.
        eexists. split; [|apply ensure_tenant_lookup].
        apply elem_of_app. right. now apply list_elem_of_singleton.
    + simpl in Hk. now rewrite <- app_assoc.
Qed.

Lemma attach_fold_org_to_tenant a ts st :
  org_to_tenant (foldl (attach a) st ts) = org_to_tenant st.
Proof.
  apply (attach_fold_preserves a (fun st' => org_to_tenant st' = org_to_tenant st));
    [|done].
  intros st' t H. now rewrite attach_org_to_tenant.
Qed.

Lemma attach_fold_done a ts st t :
  t ∈ ts ->
  t ∈ user_tenant_ids (foldl (attach a) st ts)
  \/ find_tenant (st_store (foldl (attach a) st ts)) t = None.
Proof.
  revert st; induction ts as [|t' ts IH]; intros st H; [now apply elem_of_nil in H|].
  apply elem_of_cons in H as [->|H]; simpl; [|now apply IH].
  apply (attach_fold_preserves a
           (fun st' => t' ∈ user_tenant_ids st'
                       \/ find_tenant (st_store st') t' = None)).
  - intros st' t [Hs|Hs]; [left; now apply attach_grows|right].
    unfold find_tenant in *. now rewrite attach_tenants.
  - apply attach_done.
Qed.

Lemma sync_org_settles a st org k :
  k ∈ org_keys org -> settled k (sync_org a st org).
Proof.
  unfold org_keys, sync_org. destruct (Py.truthy org); [|intros H; now apply elem_of_nil in H].
  destruct (Py.contains "/" org).
  - unfold sync_path. destruct (Py.split_once "/" org) as [root_org child].
    set (parts := Py.split "-" child). intros Hk.
    set (st1 := ensure_tenant root_org root_org None st).
    pose proof (levels_fold_keys root_org parts (Py.enumerate parts) st1
                  (org_to_tenant st1 !!! root_org) [org_to_tenant st1 !!! root_org]
                  [root_org]) as L.
    destruct (foldl _ _ _) as [[st2 p] ids]. simpl in L.
    destruct (L ltac:(intros k' Hk'; apply list_elem_of_singleton in Hk'; subst k';
                      eexists; split; [now apply list_elem_of_singleton
                                      |apply ensure_tenant_lookup]) k Hk)
      as (t & Ht1 & Ht2).
    exists t. rewrite attach_fold_org_to_tenant. split; [done|].
    now apply attach_fold_done.
  - unfold sync_flat. intros Hk. apply list_elem_of_singleton in Hk. subst k.
    eexists. rewrite attach_org_to_tenant. split; [apply ensure_tenant_lookup|].
    apply attach_done.
Qed.

Lemma sync_loop_settles a orgs st org k :
  sync_inv a st -> org ∈ orgs -> k ∈ org_keys org ->
  settled k (foldl (sync_org a) st orgs).
Proof.
  revert st; induction orgs as [|org' orgs IH]; intros st I Ho Hk;
    [now apply elem_of_nil in Ho|].
  simpl. apply elem_of_cons in Ho as [->|Ho].
  - apply (settled_loop a).
    + apply (sync_loop_preserves a (sync_inv a) (sync_inv_ensure a) (sync_inv_attach a) [org']).
      exact I.
    + now apply sync_org_settles.
  - apply IH; [|done|done].
    now apply (sync_inv_loop a [org']).
Qed.

(** ** Which tables each part writes *)

Lemma sync_loop_accounts a orgs st :
  accounts (st_store (foldl (sync_org a) st orgs)) = accounts (st_store st).
Proof.
  apply (sync_loop_preserves a
           (fun st' => accounts (st_store st') = accounts (st_store st))); [| |done].
  - intros name key parent st' H. unfold ensure_tenant.
    now destruct (org_to_tenant st' !! key).
  - intros st' t H. unfold attach. destruct (decide _); [done|].
    destruct (find_tenant _ _); [|done]. simpl.
    unfold create_tenant_member. now destruct (is_member _ _ _).
Qed.

Lemma sync_loop_integrates a orgs st :
  integrates (st_store (foldl (sync_org a) st orgs)) = integrates (st_store st).
Proof.
  apply (sync_loop_preserves a
           (fun st' => integrates (st_store st') = integrates (st_store st))); [| |done].
  - intros name key parent st' H. unfold ensure_tenant.
    now destruct (org_to_tenant st' !! key).
  - intros st' t H. unfold attach. destruct (decide _); [done|].
    destruct (find_tenant _ _); [|done]. simpl.
    unfold create_tenant_member. now destruct (is_member _ _ _).
Qed.

Lemma sync_loop_calls a orgs st :
  calls (st_store (foldl (sync_org a) st orgs)) = calls (st_store st).
Proof.
  apply (sync_loop_preserves a
           (fun st' => calls (st_store st') = calls (st_store st))); [| |done].
  - intros name key parent st' H. unfold ensure_tenant.
    now destruct (org_to_tenant st' !! key).
  - intros st' t H. unfold attach. destruct (decide _); [done|].
    destruct (find_tenant _ _); [|done]. simpl.
    unfold create_tenant_member. now destruct (is_member _ _ _).
Qed.

Lemma select_current_tenant_tables a st :
  tenants (select_current_tenant a st) = tenants (st_store st) /\
  mappings (select_current_tenant a st) = mappings (st_store st) /\
  joins (select_current_tenant a st) = joins (st_store st) /\
  integrates (select_current_tenant a st) = integrates (st_store st) /\
  calls (select_current_tenant a st) = calls (st_store st).
Proof.
  unfold select_current_tenant.
  destruct (current_tenant_of _ _); [done|].
  destruct (user_tenant_ids st); [done|].
  now destruct (find_tenant _ _).
Qed.

Lemma select_current_tenant_set a st t :
  current_tenant_of (st_store st) a = Some t -> select_current_tenant a st = st_store st.
Proof. unfold select_current_tenant. now intros ->. Qed.

Lemma current_tenant_of_ext s s' a :
  accounts s = accounts s' -> current_tenant_of s a = current_tenant_of s' a.
Proof. unfold current_tenant_of, find_account. now intros ->. Qed.

(** An already chosen current tenant survives a sync. *)
Lemma sync_keeps_current_tenant a user_info s t :
  current_tenant_of s a = Some t ->
  current_tenant_of (_sync_user_organizations a user_info s) a = Some t.
Proof.
  intros H. unfold _sync_user_organizations.
  destruct (ui_organizations user_info) as [|o orgs]; [exact H|].
  rewrite select_current_tenant_set with (t := t).
  - erewrite current_tenant_of_ext; [exact H|]. now rewrite sync_loop_accounts.
  - erewrite current_tenant_of_ext; [exact H|]. now rewrite sync_loop_accounts.
Qed.

(** Settled keys stay settled when the dict and the list are read again
    from a store with the same three tables. *)
Lemma settled_reload a k st s' :
  sync_inv a st -> settled k st ->
  tenants s' = tenants (st_store st) ->
  mappings s' = mappings (st_store st) ->
  joins s' = joins (st_store st) ->
  settled k (sync_init a s').
Proof.
  intros [I1 I2] (t & Ht & Hs) Et Em Ej. exists t. simpl. split.
  - now rewrite Em, <- I1.
  - unfold find_tenant. rewrite Et. destruct Hs as [Hs|Hs]; [left|now right].
    apply joined_ids_spec. apply I2 in Hs. unfold find_tenant, is_member.
    now rewrite Et, Ej.
Qed.

(** ** Idempotence of the sync *)

(** C2: running [_sync_user_organizations] a second time with the same
    organisation list adds no [Tenant], no [CasdoorOrganizationMapping]
    and no [TenantAccountJoin] row to what the first run left, and a
    current tenant that is set before a run is the same after it. *)
Theorem sync_twice_adds_nothing (a : nat) (user_info : OAuthUserInfo) (s : Store) :
  let s1 := _sync_user_organizations a user_info s in
  let s2 := _sync_user_organizations a user_info s1 in
  tenants s2 = tenants s1 /\
  mappings s2 = mappings s1 /\
  joins s2 = joins s1 /\
  (forall t, current_tenant_of s a = Some t ->
             current_tenant_of s1 a = Some t /\ current_tenant_of s2 a = Some t) /\
  (forall t, current_tenant_of s1 a = Some t -> current_tenant_of s2 a = Some t).
Proof.
  intros s1 s2.
  assert (tenants s2 = tenants s1 /\ mappings s2 = mappings s1 /\ joins s2 = joins s1)
    as (Ht & Hm & Hj).
  { subst s2 s1. unfold _sync_user_organizations.
    destruct (ui_organizations user_info) as [|o orgs] eqn:E; [done|].
    set (st1 := foldl (sync_org a)
                  (sync_init a (record_call (CallSyncUserOrganizations a) s))
                  (o :: orgs)).
    set (sb := record_call (CallSyncUserOrganizations a) (select_current_tenant a st1)).
    assert (sync_inv a st1) as I by apply sync_inv_loop, sync_inv_init.
    destruct (select_current_tenant_tables a st1) as (T1 & M1 & J1 & _).
    rewrite sync_loop_noop.
    - destruct (select_current_tenant_tables a (sync_init a sb)) as (T2 & M2 & J2 & _).
      rewrite T2, M2, J2. done.
    - intros org k Ho Hk. apply (settled_reload a k st1); try done.
      apply (sync_loop_settles a (o :: orgs) _ org); [apply sync_inv_init|done|done]. }
  repeat split; try done.
  - now apply sync_keeps_current_tenant.
  - now apply sync_keeps_current_tenant, sync_keeps_current_tenant.
  - intros H. now apply sync_keeps_current_tenant.
Qed.

(** ** Attaching to tenants made in this pass *)

Lemma joined_ids_lt_fresh s a t :
  t ∈ map tenant_id (get_join_tenants s a) -> t < fresh_tenant_id s.
Proof.
  intros H. apply joined_ids_spec in H as [H _].
  apply find_tenant_is_Some in H as (x & Hx & <-). now apply tenant_id_lt_fresh.
Qed.

Lemma attach_fold_new a ts st :
  NoDup ts ->
  (forall t, t ∈ ts ->
     (t ∉ user_tenant_ids st) /\ is_Some (find_tenant (st_store st) t)
     /\ is_member (st_store st) a t = false) ->
  foldl (attach a) st ts =
  mkSync (add_joins (map (fun t => mkJoin t a "owner") ts) (st_store st))
         (org_to_tenant st) (tenant_to_org st) (user_tenant_ids st ++ ts).
Proof.
  revert st; induction ts as [|t ts IH]; intros st ND H.
  - destruct st as [[] ? ? ?]. unfold add_joins. simpl. now rewrite !app_nil_r.
  - apply NoDup_cons in ND as [Nt ND]. simpl.
    destruct (H t) as (H1 & [x H2] & H3); [apply elem_of_cons; auto|].
    rewrite (attach_new a st t x H1 H2 H3). rewrite IH; [|done|].
    + unfold add_joins. simpl. now rewrite <- !app_assoc.
    + intros t' Ht'. destruct (H t') as (H1' & H2' & H3'); [apply elem_of_cons; auto|].
      simpl. split; [|split].
      * rewrite elem_of_app, list_elem_of_singleton. intros [?| ->]; done.
      * exact H2'.
      * destruct (is_member (add_join _ _) a t') eqn:M; [|done].
        apply is_member_add_join in M as [M|[M _]]; [congruence|].
        simpl in M. now subst.
Qed.

(** ** One hierarchical organisation, from scratch *)

(** C3: for the organisation string "Acme/dept-team" and a store without a
    mapping for any of its three keys, the sync creates exactly three
    tenants: "Acme" without parent, "Acme/dept" named "dept" under it, and
    "Acme/dept-team" named "team" under that one, each with its mapping,
    and makes the account an owner of all three. *)
Theorem acme_dept_team_three_levels (a : nat) (user_info : OAuthUserInfo) (s : Store) :
  ui_organizations user_info = ["Acme/dept-team"] ->
  (forall m, m ∈ mappings s ->
     mapping_casdoor_org_id m ∉ ["Acme"; "Acme/dept"; "Acme/dept-team"]) ->
  exists t1 t2 t3,
    (forall x, x ∈ tenants s -> tenant_id x < t1) /\ t1 < t2 /\ t2 < t3 /\
    let s' := _sync_user_organizations a user_info s in
    tenants s' = tenants s ++
      [mkTenant t1 "Acme" (Some "Acme") None "basic" "normal";
       mkTenant t2 "dept" (Some "Acme/dept") (Some t1) "basic" "normal";
       mkTenant t3 "team" (Some "Acme/dept-team") (Some t2) "basic" "normal"] /\
    mappings s' = mappings s ++
      [mkMapping "Acme" t1; mkMapping "Acme/dept" t2; mkMapping "Acme/dept-team" t3] /\
    joins s' = joins s ++
      [mkJoin t1 a "owner"; mkJoin t2 a "owner"; mkJoin t3 a "owner"].
Proof.
  intros Eo Hm.
  assert (forall k, k ∈ ["Acme"; "Acme/dept"; "Acme/dept-team"] ->
            load_org_to_tenant (mappings s) !! k = None) as Hk.
  { intros k Hk. apply load_org_to_tenant_None. intros m Hmm E. apply (Hm m Hmm). now rewrite E. }
  unfold _sync_user_organizations. rewrite Eo.
  set (sa := record_call (CallSyncUserOrganizations a) s).
  set (st0 := sync_init a sa).
  cbn [foldl]. unfold sync_org.
  change (Py.truthy "Acme/dept-team") with true.
  change (Py.contains "/" "Acme/dept-team") with true.
  cbv iota. unfold sync_path.
  change (Py.split_once "/" "Acme/dept-team") with ("Acme", "dept-team").
  cbv iota beta.
  change (Py.split "-" "dept-team") with ["dept"; "team"].
  change (Py.enumerate ["dept"; "team"]) with [(0, "dept"); (1, "team")].
  cbn [foldl]. unfold level_step.
  change (full_org_path "Acme" ["dept"; "team"] 0) with "Acme/dept".
  change (full_org_path "Acme" ["dept"; "team"] 1) with "Acme/dept-team".
  pose proof (ensure_tenant_absent "Acme" "Acme" None st0
                (Hk "Acme" ltac:(set_solver))) as E1.
  cbv zeta in E1. rewrite E1. cbn [org_to_tenant]. rewrite lookup_total_insert_eq.
  cbn [st_store tenant_to_org user_tenant_ids] in *.
  set (t1 := fresh_tenant_id (st_store st0)) in *.
  match goal with |- context [ensure_tenant "dept" "Acme/dept" ?p ?st] =>
    pose proof (ensure_tenant_absent "dept" "Acme/dept" p st
      ltac:(cbn [org_to_tenant];
          rewrite lookup_insert_ne by done; apply Hk; set_solver)) as E2 end.
  cbv zeta in E2. rewrite E2. cbn [org_to_tenant]. rewrite lookup_total_insert_eq.
  cbn [st_store tenant_to_org user_tenant_ids] in *.
  match type of E2 with _ = mkSync (add_mapping (mkMapping _ ?t) _) _ _ _ =>
    set (t2 := t) in * end.
  match goal with |- context [ensure_tenant "team" "Acme/dept-team" ?p ?st] =>
    pose proof (ensure_tenant_absent "team" "Acme/dept-team" p st
      ltac:(cbn [org_to_tenant];
          rewrite !lookup_insert_ne by done; apply Hk; set_solver)) as E3 end.
  cbv zeta in E3. rewrite E3. cbn [org_to_tenant]. rewrite lookup_total_insert_eq.
  cbn [st_store tenant_to_org user_tenant_ids] in *.
  match type of E3 with _ = mkSync (add_mapping (mkMapping _ ?t) _) _ _ _ =>
    set (t3 := t) in * end.
  clear E1 E2 E3.
  assert (t1 < t2) as L12.
  { apply tenant_id_lt_fresh with
      (x := mkTenant t1 "Acme" (Some "Acme") None "basic" "normal").
    simpl. set_solver. }
  assert (t2 < t3) as L23.
  { apply tenant_id_lt_fresh with
      (x := mkTenant t2 "dept" (Some "Acme/dept") (Some t1) "basic" "normal").
    simpl. set_solver. }
  exists t1, t2, t3. split; [intros x Hx; now apply (tenant_id_lt_fresh sa)|].
  split; [done|]. split; [done|]. cbv zeta.
  match goal with |- context [select_current_tenant a ?st] =>
    destruct (select_current_tenant_tables a st) as (-> & -> & -> & _) end.
  change (([t1] ++ [t2]) ++ [t3]) with [t1; t2; t3].
  rewrite attach_fold_new.
  - simpl. rewrite <- !app_assoc. done.
  - rewrite !NoDup_cons, !elem_of_cons, !elem_of_nil.
    repeat split; try lia. apply NoDup_nil_2.
  - intros t Ht. cbn [st_store user_tenant_ids].
    assert (t1 <= t) as Lt.
    { rewrite !elem_of_cons, elem_of_nil in Ht. lia. }
    split; [|split].
    + intros Hu. apply (joined_ids_lt_fresh sa) in Hu. unfold t1 in Lt. simpl in Lt. lia.
    + apply find_tenant_is_Some. simpl.
      rewrite !elem_of_cons, elem_of_nil in Ht.
      destruct Ht as [->|[->|[->|[]]]].
      * exists (mkTenant t1 "Acme" (Some "Acme") None "basic" "normal").
        split; [set_solver|done].
      * exists (mkTenant t2 "dept" (Some "Acme/dept") (Some t1) "basic" "normal").
        split; [set_solver|done].
      * exists (mkTenant t3 "team" (Some "Acme/dept-team") (Some t2) "basic" "normal").
        split; [set_solver|done].
    + apply (is_member_fresh sa). exact Lt.
Qed.

(** ** A trailing separator *)

Lemma truthy_append_slash root : Py.truthy (root ++ "/") = true.
Proof. now destruct root. Qed.

Lemma contains_append_slash root : Py.contains "/" (root ++ "/") = true.
Proof.
  induction root as [|c root IH]; [reflexivity|].
  change (String c root ++ "/")%string with (String c (root ++ "/")).
  cbn -[Ascii.eqb]. now destruct (Ascii.eqb "/" c).
Qed.

Lemma split_once_append_slash root :
  Py.contains "/" root = false ->
  Py.split_once "/" (root ++ "/") = (root, "").
Proof.
  induction root as [|c root IH]; [reflexivity|].
  change (String c root ++ "/")%string with (String c (root ++ "/")).
  cbn -[Ascii.eqb]. destruct (Ascii.eqb "/" c); [discriminate|].
  intros H. now rewrite (IH H).
Qed.

Lemma append_slash_neq (root : string) : root <> (root ++ "/")%string.
Proof.
  induction root as [|c root IH]; [discriminate|].
  change (String c root ++ "/")%string with (String c (root ++ "/")).
  intros [= E]. now apply IH.
Qed.

(** C4, as amended: for an organisation string [root/] whose root holds no
    separator, the split of the empty remainder is the one empty segment,
    and the sync treats the string as a one-level path.  From a store
    without a mapping for [root] or [root/] it creates the root tenant
    keyed [root] and also a child tenant keyed [root/], with the empty
    name and the root as parent, and makes the account an owner of both. *)
Theorem root_slash_creates_empty_child (a : nat) (user_info : OAuthUserInfo) (s : Store) (root : string) :
  Py.contains "/" root = false ->
  ui_organizations user_info = [(root ++ "/")%string] ->
  (forall m, m ∈ mappings s ->
     mapping_casdoor_org_id m <> root /\ mapping_casdoor_org_id m <> (root ++ "/")%string) ->
  exists t1 t2,
    (forall x, x ∈ tenants s -> tenant_id x < t1) /\ t1 < t2 /\
    let s' := _sync_user_organizations a user_info s in
    tenants s' = tenants s ++
      [mkTenant t1 root (Some root) None "basic" "normal";
       mkTenant t2 "" (Some (root ++ "/")%string) (Some t1) "basic" "normal"] /\
    mappings s' = mappings s ++ [mkMapping root t1; mkMapping (root ++ "/")%string t2] /\
    joins s' = joins s ++ [mkJoin t1 a "owner"; mkJoin t2 a "owner"].
Proof.
  intros Hc Eo Hm.
  assert (forall k, k ∈ [root; (root ++ "/")%string] ->
            load_org_to_tenant (mappings s) !! k = None) as Hk.
  { intros k Hk. apply load_org_to_tenant_None. intros m Hmm E.
    destruct (Hm m Hmm) as [N1 N2]. rewrite E in N1, N2.
    rewrite !elem_of_cons, elem_of_nil in Hk. tauto. }
  unfold _sync_user_organizations. rewrite Eo.
  set (sa := record_call (CallSyncUserOrganizations a) s).
  set (st0 := sync_init a sa).
  cbn [foldl]. unfold sync_org.
  rewrite truthy_append_slash, contains_append_slash.
  unfold sync_path. rewrite (split_once_append_slash root Hc).
  change (Py.split "-" "") with [""].
  change (Py.enumerate [""]) with [(0, "")].
  cbn [foldl]. unfold level_step.
  change (full_org_path root [""] 0) with (root ++ "/")%string.
  pose proof (ensure_tenant_absent root root None st0
                (Hk root ltac:(in_list))) as E1.
  cbv zeta in E1. rewrite E1. cbn [org_to_tenant]. rewrite lookup_total_insert_eq.
  cbn [st_store tenant_to_org user_tenant_ids] in *.
  set (t1 := fresh_tenant_id (st_store st0)) in *.
  match goal with |- context [ensure_tenant "" (root ++ "/")%string ?p ?st] =>
    pose proof (ensure_tenant_absent "" (root ++ "/")%string p st
      ltac:(cbn [org_to_tenant];
          rewrite lookup_insert_ne by apply append_slash_neq;
          apply Hk; in_list)) as E2 end.
  cbv zeta in E2. rewrite E2. cbn [org_to_tenant]. rewrite lookup_total_insert_eq.
  cbn [st_store tenant_to_org user_tenant_ids] in *.
  match type of E2 with _ = mkSync (add_mapping (mkMapping _ ?t) _) _ _ _ =>
    set (t2 := t) in * end.
  clear E1 E2.
  assert (t1 < t2) as L12.
  { apply tenant_id_lt_fresh with
      (x := mkTenant t1 root (Some root) None "basic" "normal").
    simpl. in_list. }
  exists t1, t2. split; [intros x Hx; now apply (tenant_id_lt_fresh sa)|].
  split; [done|]. cbv zeta.
  match goal with |- context [select_current_tenant a ?st] =>
    destruct (select_current_tenant_tables a st) as (-> & -> & -> & _) end.
  change ([t1] ++ [t2]) with [t1; t2].
  rewrite attach_fold_new.
  - simpl. rewrite <- !app_assoc. done.
  - rewrite !NoDup_cons, !elem_of_cons, !elem_of_nil.
    repeat split; try lia. apply NoDup_nil_2.
  - intros t Ht. cbn [st_store user_tenant_ids].
    assert (t1 <= t) as Lt.
    { rewrite !elem_of_cons, elem_of_nil in Ht. lia. }
    split; [|split].
    + intros Hu. apply (joined_ids_lt_fresh sa) in Hu. unfold t1 in Lt. simpl in Lt. lia.
    + apply find_tenant_is_Some. simpl.
      rewrite !elem_of_cons, elem_of_nil in Ht.
      destruct Ht as [->|[->|[]]].
      * exists (mkTenant t1 root (Some root) None "basic" "normal").
        split; [in_list|done].
      * exists (mkTenant t2 "" (Some (root ++ "/")%string) (Some t1) "basic" "normal").
        split; [in_list|done].
    + apply (is_member_fresh sa). exact Lt.
Qed.

(** ** Choosing the current tenant *)

Lemma find_account_update a f s :
  (forall acc, account_id (f acc) = account_id acc) ->
  find_account (update_account a f s) a = f <$> find_account s a.
Proof.
  intros Hf. unfold find_account, update_account. simpl.
  induction (accounts s) as [|acc l IH]; [reflexivity|]. simpl.
  destruct (Nat.eqb (account_id acc) a) eqn:E.
  - now rewrite Hf, E.
  - now rewrite E.
Qed.

Lemma attached_since_loop a s0 ids0 orgs st :
  sync_inv a st -> attached_since a s0 ids0 st ->
  sync_inv a (foldl (sync_org a) st orgs)
  /\ attached_since a s0 ids0 (foldl (sync_org a) st orgs).
Proof.
  intros H1 H2.
  apply (sync_loop_preserves a
           (fun st => sync_inv a st /\ attached_since a s0 ids0 st)); [| |done].
  - intros name key parent st' [I A]. split; [now apply sync_inv_ensure|].
    destruct A as (new_ids & A1 & A2). exists new_ids.
    rewrite ensure_tenant_user_tenant_ids. split; [done|].
    unfold ensure_tenant. now destruct (org_to_tenant st' !! key).
  - intros st' t [I A]. split; [now apply sync_inv_attach|].
    destruct A as (new_ids & A1 & A2).
    destruct (decide (t ∈ user_tenant_ids st')) as [Hin|Hin].
    { rewrite attach_skip by auto. now exists new_ids. }
    destruct (find_tenant (st_store st') t) as [x|] eqn:F.
    2:{ rewrite attach_skip by auto. now exists new_ids. }
    assert (is_member (st_store st') a t = false) as Hm.
    { destruct (is_member _ _ _) eqn:M; [|done]. destruct Hin.
      apply I. rewrite F. eauto. }
    rewrite (attach_new a st' t x Hin F Hm). exists (new_ids ++ [t]). simpl.
    rewrite A1, A2, map_app, !app_assoc. done.
Qed.

Lemma select_current_tenant_head a st acc :
  sync_inv a st ->
  find_account (st_store st) a = Some acc ->
  account_current_tenant acc = None ->
  current_tenant_of (select_current_tenant a st) a = head (user_tenant_ids st).
Proof.
  intros [_ I2] Hacc Hcur. unfold select_current_tenant.
  assert (current_tenant_of (st_store st) a = None) as ->.
  { unfold current_tenant_of. now rewrite Hacc. }
  destruct (user_tenant_ids st) as [|first rest] eqn:E.
  - unfold current_tenant_of. now rewrite Hacc.
  - destruct (proj1 (I2 first)) as [[x Hx] _]; [apply elem_of_cons; auto|].
    rewrite Hx. apply find_tenant_Some in Hx as [_ ->].
    unfold current_tenant_of. rewrite find_account_update by done.
    now rewrite Hacc.
Qed.

(** What the last step of the sync selects.  The comment above it reads
    "if the user has no current workspace, set the first organisation as
    the current workspace"; the step takes [user_tenant_ids[0]], and that
    list starts with the tenants the account had joined before the sync.
    So the first tenant attached during the sync is selected only for an
    account that had joined no tenant; otherwise the first earlier
    membership is. *)
Lemma current_tenant_after_sync (a : nat) (user_info : OAuthUserInfo) (s : Store)
    (acc : Account) :
  ui_organizations user_info <> [] ->
  find_account s a = Some acc ->
  account_current_tenant acc = None ->
  let s' := _sync_user_organizations a user_info s in
  (forall t, head (map tenant_id (get_join_tenants s a)) = Some t ->
             current_tenant_of s' a = Some t) /\
  (get_join_tenants s a = [] ->
   (forall j js, joins s' = joins s ++ j :: js ->
                 current_tenant_of s' a = Some (join_tenant_id j)) /\
   (joins s' = joins s -> current_tenant_of s' a = None)).
Proof.
  intros Ho Hacc Hcur s'. subst s'. unfold _sync_user_organizations.
  destruct (ui_organizations user_info) as [|o orgs]; [done|].
  set (sa := record_call (CallSyncUserOrganizations a) s).
  destruct (attached_since_loop a sa (map tenant_id (get_join_tenants s a))
              (o :: orgs) (sync_init a sa)) as [I (new_ids & A1 & A2)].
  { apply sync_inv_init. }
  { exists []. simpl. now rewrite !app_nil_r. }
  set (st1 := foldl (sync_org a) (sync_init a sa) (o :: orgs)) in *.
  assert (find_account (st_store st1) a = Some acc) as Hacc1.
  { unfold find_account, st1. now rewrite sync_loop_accounts. }
  rewrite (select_current_tenant_head a st1 acc I Hacc1 Hcur).
  destruct (select_current_tenant_tables a st1) as (_ & _ & -> & _).
  rewrite A1, A2. simpl. split.
  - intros t Ht. destruct (map tenant_id (get_join_tenants s a)); [done|].
    simpl in *. done.
  - intros ->. simpl. split.
    + intros j js E. apply app_inv_head in E.
      destruct new_ids as [|t new_ids]; [done|]. simpl in E. now inversion E.
    + intros E. rewrite <- (app_nil_r (joins s)) in E at 2.
      apply app_inv_head in E. now destruct new_ids.
Qed.

(** ** The account lookup *)

Lemma accounts_by_email_spec email s acc :
  acc ∈ accounts_by_email email s <->
  acc ∈ accounts s /\ account_email acc = email.
Proof.
  unfold accounts_by_email. rewrite !list_elem_of_In, filter_In.
  now rewrite String.eqb_eq.
Qed.

Lemma accounts_by_email_unique email s l1 acc l2 :
  accounts s = l1 ++ acc :: l2 ->
  account_email acc = email ->
  (forall x, x ∈ l1 ++ l2 -> account_email x <> email) ->
  accounts_by_email email s = [acc].
Proof.
  intros E He Hn. unfold accounts_by_email. rewrite E, List.filter_app. simpl.
  apply String.eqb_eq in He. rewrite He.
  assert (forall l, (forall x, x ∈ l -> account_email x <> email) ->
            List.filter (fun a => String.eqb (account_email a) email) l = []) as Z.
  { induction l as [|x l IH]; intros H; [done|]. simpl.
    destruct (String.eqb_spec (account_email x) email) as [Ex|Nx].
    - destruct (H x); [apply elem_of_cons; auto|done].
    - apply IH. intros y Hy. apply H, elem_of_cons. auto. }
  rewrite !Z; [done| |]; intros x Hx; apply Hn, elem_of_app; auto.
Qed.

Lemma accounts_by_email_shared email s l1 acc1 l2 acc2 l3 :
  accounts s = l1 ++ acc1 :: l2 ++ acc2 :: l3 ->
  account_email acc1 = email -> account_email acc2 = email ->
  2 <= length (accounts_by_email email s).
Proof.
  intros E H1 H2. apply String.eqb_eq in H1, H2.
  unfold accounts_by_email. rewrite E, List.filter_app. simpl. rewrite H1.
  rewrite List.filter_app. simpl. rewrite H2.
  rewrite length_app. simpl. rewrite length_app. simpl. lia.
Qed.

(** C8, as amended: the lookup first asks the provider link for
    (provider, id) and returns the linked account when there is one; only
    otherwise does it look at the accounts whose email equals the
    identity's email: none gives nothing, exactly one gives that account,
    and several make it raise [MultipleResultsFound] instead of returning
    one of them.  The store is left as it was in every case. *)
Theorem lookup_by_openid_then_unique_email (provider : string)
    (user_info : OAuthUserInfo) (s : Store) :
  let r := _get_account_by_openid_or_email provider user_info s in
  r.2 = s /\
  (forall acc, get_by_openid provider (ui_id user_info) s = Some acc ->
               r.1 = inr (Some acc)) /\
  (get_by_openid provider (ui_id user_info) s = None ->
   (forall acc, r.1 = inr (Some acc) ->
                acc ∈ accounts s /\ account_email acc = ui_email user_info) /\
   ((forall acc, acc ∈ accounts s -> account_email acc <> ui_email user_info) ->
    r.1 = inr None) /\
   (forall l1 acc l2,
      accounts s = l1 ++ acc :: l2 ->
      account_email acc = ui_email user_info ->
      (forall x, x ∈ l1 ++ l2 -> account_email x <> ui_email user_info) ->
      r.1 = inr (Some acc)) /\
   (forall l1 acc1 l2 acc2 l3,
      accounts s = l1 ++ acc1 :: l2 ++ acc2 :: l3 ->
      account_email acc1 = ui_email user_info ->
      account_email acc2 = ui_email user_info ->
      r.1 = inl MultipleResultsFound)).
Proof.
  unfold _get_account_by_openid_or_email, bind, gets. simpl.
  destruct (get_by_openid provider (ui_id user_info) s) as [found|] eqn:G.
  - split; [done|]. split; [now intros acc [= ->]|done].
  - pose proof (accounts_by_email_spec (ui_email user_info) s) as Sp.
    pose proof (accounts_by_email_shared (ui_email user_info) s) as Sh.
    destruct (accounts_by_email (ui_email user_info) s) as [|x [|y rows]] eqn:R;
      simpl; (split; [done|]); (split; [done|]); intros _.
    + split; [done|]. split; [done|]. split.
      * intros l1 acc l2 E He Hn.
        now rewrite (accounts_by_email_unique _ _ _ _ _ E He Hn) in R.
      * intros l1 acc1 l2 acc2 l3 E H1 H2.
        pose proof (Sh _ _ _ _ _ E H1 H2) as L. simpl in L. lia.
    + split; [|split; [|split]].
      * intros acc [= <-]. apply Sp, list_elem_of_singleton. done.
      * intros Hn. destruct (Hn x); apply Sp, list_elem_of_singleton; done.
      * intros l1 acc l2 E He Hn.
        rewrite (accounts_by_email_unique _ _ _ _ _ E He Hn) in R. now inversion R.
      * intros l1 acc1 l2 acc2 l3 E H1 H2.
        pose proof (Sh _ _ _ _ _ E H1 H2) as L. simpl in L. lia.
    + split; [done|]. split; [|split].
      * intros Hn. destruct (Hn x); apply Sp; apply elem_of_cons; auto.
      * intros l1 acc l2 E He Hn.
        now rewrite (accounts_by_email_unique _ _ _ _ _ E He Hn) in R.
      * done.
Qed.

(** ** The callback before the login proper *)

(** C10: a callback to a configured provider without a [code] argument
    (or with an empty one) is answered with the 400 error "Authorization
    code is required"; the store, call log included, is untouched, so
    the provider is not contacted. *)
Theorem callback_without_code_is_400 (env : Env) (req : Request) (provider : string)
    (client : OAuthClient) (s : Store) :
  get_oauth_providers env provider = Some client ->
  Py.truthy_opt (args_code req) = false ->
  OAuthCallback_get env req provider s
  = (inr (Json "Authorization code is required" 400), s).
Proof.
  intros Hp Hc. unfold OAuthCallback_get. now rewrite Hp, Hc.
Qed.

(** C7: when the callback carries a valid invite token whose invitation
    is bound to another email than the identity's, the answer is the
    redirect with "Invalid invitation token."; no table is written, and
    the only calls made are the two calls to the provider. *)
Theorem invite_mismatch_redirects (env : Env) (req : Request) (provider : string)
    (client : OAuthClient) (code token tok : string) (user_info : OAuthUserInfo)
    (invitation : list (string * string)) (s : Store) :
  get_oauth_providers env provider = Some client ->
  args_code req = Some code -> Py.truthy code = true ->
  provider_get_access_token env client code = inr token ->
  provider_get_user_info env client token = inr user_info ->
  args_state req = Some tok -> Py.truthy tok = true ->
  is_valid_invite_token env tok = true ->
  get_invitation_by_token env tok = Some invitation -> invitation <> [] ->
  dict_get "email" invitation <> Some (ui_email user_info) ->
  let r := OAuthCallback_get env req provider s in
  r.1 = inr (signin_message env "Invalid invitation token.") /\
  accounts r.2 = accounts s /\ tenants r.2 = tenants s /\
  mappings r.2 = mappings s /\ joins r.2 = joins s /\
  integrates r.2 = integrates s /\
  calls r.2 = calls s ++ [CallGetAccessToken provider code;
                          CallGetUserInfo provider token].
Proof.
  intros Hp Hc Hct Ha Hu Hs Hst Hv Hi Hne Hm.
  unfold OAuthCallback_get. rewrite Hp, Hc, Hs. simpl. rewrite Hct, Hst. simpl.
  unfold exchange, bind, modify, raise, ret. rewrite Ha, Hu.
  unfold invite_redirect. rewrite Hv, Hi.
  destruct invitation as [|kv invitation]; [done|].
  rewrite bool_decide_eq_false_2 by done. simpl.
  rewrite <- app_assoc. done.
Qed.

(** ** [_generate_account] *)

(** C5, as amended: for an identity without a matching account, when
    registration is disabled the call raises [AccountRegisterError] and
    writes nothing, so no account is created; the description is the
    freeze-list one exactly when billing is enabled and the email is on
    the freeze list, and the generic one otherwise, also for a frozen
    email while billing is disabled.  The two descriptions differ. *)
Theorem registration_disabled_error (env : Env) (req : Request) (provider : string)
    (user_info : OAuthUserInfo) (s : Store) :
  _get_account_by_openid_or_email provider user_info s = (inr None, s) ->
  is_allow_register env = false ->
  _generate_account env req provider user_info s
  = (inl (AccountRegisterError
            (if BILLING_ENABLED (dify_config env)
                && is_email_in_freeze env (ui_email user_info)
             then freeze_description else "Invalid email or password")), s)
  /\ freeze_description <> "Invalid email or password".
Proof.
  intros Hl Hr. split; [|discriminate].
  unfold _generate_account, bind. rewrite Hl. unfold resolve_account, provision.
  rewrite Hr. simpl.
  now destruct (BILLING_ENABLED (dify_config env)
                && is_email_in_freeze env (ui_email user_info)).
Qed.

Lemma lookup_keeps_store provider user_info s :
  (_get_account_by_openid_or_email provider user_info s).2 = s.
Proof.
  unfold _get_account_by_openid_or_email, bind, gets. simpl.
  destruct (get_by_openid _ _ _); [done|].
  now destruct (accounts_by_email _ _) as [|x [|y rows]].
Qed.

Lemma create_tenant_member_calls t a role s :
  calls (create_tenant_member t a role s) = calls s.
Proof. unfold create_tenant_member. now destruct (is_member _ _ _). Qed.

Lemma create_tenant_member_accounts t a role s :
  accounts (create_tenant_member t a role s) = accounts s.
Proof. unfold create_tenant_member. now destruct (is_member _ _ _). Qed.

Lemma ensure_workspace_calls env acc s s1 :
  ensure_workspace env acc s = (inr tt, s1) ->
  exists pre, calls s1 = calls s ++ pre.
Proof.
  unfold ensure_workspace, bind, gets.
  destruct (get_join_tenants s (account_id acc)).
  - destruct (negb _); [discriminate|].
    unfold create_default_workspace. simpl. intros [= <-]. simpl.
    rewrite create_tenant_member_calls. simpl. eauto.
  - intros [= <-]. exists []. now rewrite app_nil_r.
Qed.

Lemma link_account_integrate_spec provider open_id a s :
  exists s2,
    link_account_integrate provider open_id a s = (inr tt, s2) /\
    calls s2 = calls s ++ [CallLinkAccountIntegrate provider open_id a] /\
    accounts s2 = accounts s /\
    (exists i, i ∈ integrates s2 /\ integrate_provider i = provider
               /\ integrate_open_id i = open_id /\ integrate_account_id i = a).
Proof.
  unfold link_account_integrate, bind, modify. simpl.
  eexists. split; [reflexivity|].
  destruct (existsb _ _) eqn:E; simpl.
  - split; [done|]. split; [done|].
    apply existsb_exists in E as (i & Hi & E).
    apply andb_true_iff in E as [E E3]. apply andb_true_iff in E as [E1 E2].
    apply String.eqb_eq in E1, E2. apply Nat.eqb_eq in E3.
    exists i. now rewrite list_elem_of_In.
  - split; [done|]. split; [done|]. exists (mkIntegrate provider open_id a).
    split; [|done].
    apply elem_of_app. right. now apply list_elem_of_singleton.
Qed.

Lemma provision_calls env req provider user_info s a s1 :
  provision env req provider user_info s = (inr a, s1) ->
  exists pre, calls s1 = calls s ++ pre.
Proof.
  unfold provision. destruct (negb _).
  { destruct (_ && _); discriminate. }
  unfold register, bind, gets, modify, ret.
  match goal with |- context [link_account_integrate ?p ?o ?b ?st] =>
    destruct (link_account_integrate_spec p o b st) as (s2 & -> & C & _) end.
  intros [= <- <-]. simpl. rewrite C. simpl. eauto.
Qed.

Lemma sync_calls_integrates a user_info s :
  integrates (_sync_user_organizations a user_info s) = integrates s /\
  exists post, calls (_sync_user_organizations a user_info s)
               = calls s ++ [CallSyncUserOrganizations a] ++ post.
Proof.
  unfold _sync_user_organizations.
  destruct (ui_organizations user_info) as [|o orgs].
  - simpl. split; [done|]. eexists. now rewrite <- app_assoc.
  - match goal with |- context [select_current_tenant a ?st] =>
      destruct (select_current_tenant_tables a st) as (_ & _ & _ & -> & ->) end.
    rewrite sync_loop_integrates, sync_loop_calls. simpl.
    split; [done|]. exists []. done.
Qed.

(** What a successful [_generate_account] leaves: the store is the one the
    sync returns when run on the store the link left, the link row is in
    it, and the log ends with the link and the sync, in this order. *)
Lemma generate_account_trace env req provider user_info s a s' :
  _generate_account env req provider user_info s = (inr a, s') ->
  exists s2 pre post,
    s' = _sync_user_organizations a user_info s2 /\
    calls s2 = calls s ++ pre
               ++ [CallLinkAccountIntegrate provider (ui_id user_info) a] /\
    calls s' = calls s ++ pre
               ++ [CallLinkAccountIntegrate provider (ui_id user_info) a;
                   CallSyncUserOrganizations a] ++ post /\
    (exists i, i ∈ integrates s' /\ integrate_provider i = provider
               /\ integrate_open_id i = ui_id user_info
               /\ integrate_account_id i = a).
Proof.
  unfold _generate_account, bind.
  pose proof (lookup_keeps_store provider user_info s) as Hs.
  destruct (_get_account_by_openid_or_email provider user_info s)
    as [[e|account] s0]; [discriminate|]. simpl in Hs. subst s0.
  assert (forall b s1,
            resolve_account env req provider user_info account s = (inr b, s1) ->
            exists pre, calls s1 = calls s ++ pre) as Hres.
  { intros b s1. unfold resolve_account. destruct account as [acc|].
    - unfold bind, ret. destruct (ensure_workspace env acc s) as [[e|[]] s1'] eqn:W;
        [discriminate|]. intros [= <- <-]. now apply (ensure_workspace_calls env acc).
    - apply provision_calls. }
  destruct (resolve_account env req provider user_info account s) as [[e|b] s1];
    [discriminate|].
  destruct (Hres b s1 eq_refl) as [pre Hpre].
  destruct (link_account_integrate_spec provider (ui_id user_info) b s1)
    as (s2 & -> & C & _ & L).
  unfold modify, ret. intros [= <- <-].
  destruct (sync_calls_integrates b user_info s2) as [I [post P]].
  exists s2, pre, post. split; [done|]. split; [now rewrite C, Hpre, app_assoc|].
  split; [rewrite P, C, Hpre, <- !app_assoc; done|].
  now rewrite I.
Qed.

(** C9: whenever [_generate_account] returns an account, whichever way
    the account was obtained, it has called [link_account_integrate] for
    (provider, id) and that account and then [_sync_user_organizations]
    for it: the log ends with the two calls in this order, the link row
    is in the store, and the store returned is the one the sync produced
    from the store the link left. *)
Theorem generate_account_links_then_syncs (env : Env) (req : Request)
    (provider : string) (user_info : OAuthUserInfo) (s s' : Store) (a : nat) :
  _generate_account env req provider user_info s = (inr a, s') ->
  (exists pre post,
     calls s' = calls s ++ pre
                ++ [CallLinkAccountIntegrate provider (ui_id user_info) a;
                    CallSyncUserOrganizations a] ++ post) /\
  (exists i, i ∈ integrates s' /\ integrate_provider i = provider
             /\ integrate_open_id i = ui_id user_info
             /\ integrate_account_id i = a) /\
  (exists s2, s' = _sync_user_organizations a user_info s2 /\
              exists i, i ∈ integrates s2 /\ integrate_provider i = provider
                        /\ integrate_open_id i = ui_id user_info
                        /\ integrate_account_id i = a).
Proof.
  intros H. destruct (generate_account_trace _ _ _ _ _ _ _ H)
    as (s2 & pre & post & E & C2 & C' & L).
  split; [eauto|]. split; [done|]. exists s2. split; [done|].
  destruct (sync_calls_integrates a user_info s2) as [I _].
  now rewrite E, I in L.
Qed.

(** ** The status gate *)

Lemma status_of_update_account a b f s :
  (forall acc, account_id (f acc) = account_id acc) ->
  (forall acc, account_status (f acc) = account_status acc) ->
  status_of (update_account b f s) a = status_of s a.
Proof.
  intros Hi Hs. unfold status_of, find_account, update_account. simpl.
  induction (accounts s) as [|acc l IH]; [reflexivity|]. simpl.
  destruct (Nat.eqb (account_id acc) b) eqn:Eb.
  - rewrite Hi. destruct (Nat.eqb (account_id acc) a); [simpl; now rewrite Hs|done].
  - destruct (Nat.eqb (account_id acc) a); done.
Qed.

Lemma status_of_ext s s' a :
  accounts s = accounts s' -> status_of s a = status_of s' a.
Proof. unfold status_of, find_account. now intros ->. Qed.

Lemma status_of_add_account x s a st :
  status_of s a = Some st -> status_of (add_account x s) a = Some st.
Proof.
  unfold status_of, find_account. simpl.
  destruct (List.find _ (accounts s)) as [acc|] eqn:F; [|discriminate].
  now rewrite (find_app_l _ _ _ _ F).
Qed.

Lemma sync_keeps_status a b user_info s :
  status_of (_sync_user_organizations b user_info s) a = status_of s a.
Proof.
  unfold _sync_user_organizations.
  destruct (ui_organizations user_info) as [|o orgs]; [done|].
  unfold select_current_tenant.
  set (st := foldl _ _ _).
  assert (status_of (st_store st) a = status_of s a) as E.
  { apply status_of_ext. unfold st. now rewrite sync_loop_accounts. }
  destruct (current_tenant_of _ _); [done|].
  destruct (user_tenant_ids st); [done|].
  destruct (find_tenant _ _); [|done].
  now rewrite status_of_update_account.
Qed.

Lemma generate_account_keeps_status env req provider user_info s r s' a st :
  _generate_account env req provider user_info s = (r, s') ->
  status_of s a = Some st -> status_of s' a = Some st.
Proof.
  unfold _generate_account, bind.
  pose proof (lookup_keeps_store provider user_info s) as Hs.
  destruct (_get_account_by_openid_or_email provider user_info s)
    as [[e|account] s0]; simpl in Hs; subst s0; [now intros [= <- <-]|].
  intros H Hst.
  assert (forall r1 s1,
            resolve_account env req provider user_info account s = (r1, s1) ->
            status_of s1 a = Some st) as Hres.
  { intros r1 s1. unfold resolve_account. destruct account as [acc|].
    - unfold ensure_workspace, bind, gets, ret, raise. cbv beta.
      destruct (get_join_tenants s (account_id acc)).
      + destruct (negb _); [now intros [= <- <-]|].
        unfold create_default_workspace.
        cbv beta iota zeta delta [create_tenant]. intros [= <- <-].
        match goal with |- status_of (record_call _ ?x) _ = _ =>
          change (status_of x a = Some st) end.
        rewrite status_of_update_account by done.
        erewrite status_of_ext; [exact Hst|]. now rewrite create_tenant_member_accounts.
      + now intros [= <- <-].
    - unfold provision. destruct (negb _).
      { destruct (_ && _); now intros [= <- <-]. }
      unfold register, bind, gets, modify, ret.
      match goal with |- context [link_account_integrate ?p ?o ?b ?x] =>
        destruct (link_account_integrate_spec p o b x) as (s2 & -> & _ & A & _) end.
      intros [= <- <-]. rewrite status_of_update_account by done.
      erewrite status_of_ext; [|exact A]. now apply status_of_add_account. }
  destruct (resolve_account env req provider user_info account s) as [[e|b] s1] eqn:R.
  - injection H as <- <-. now apply (Hres _ _ eq_refl).
  - destruct (link_account_integrate_spec provider (ui_id user_info) b s1)
      as (s2 & E2 & _ & A & _).
    rewrite E2 in H. unfold modify, ret in H. injection H as <- <-.
    rewrite sync_keeps_status. erewrite status_of_ext; [|exact A].
    now apply (Hres _ _ eq_refl).
Qed.

(** C1, as amended: for an account that is BANNED, a callback that gets as
    far as [_generate_account] returning this account is answered with the
    redirect "Account is banned."; the rejection comes after
    [_generate_account], which has by then linked the identity and run the
    organisation sync, and nothing is written after it: no activation, no
    owner workspace, no session. *)
Theorem banned_rejected_after_generate_account (env : Env) (req : Request)
    (provider : string) (client : OAuthClient) (code token : string)
    (user_info : OAuthUserInfo) (s s2 : Store) (a : nat) :
  get_oauth_providers env provider = Some client ->
  args_code req = Some code -> Py.truthy code = true ->
  provider_get_access_token env client code = inr token ->
  provider_get_user_info env client token = inr user_info ->
  (forall tok, args_state req = Some tok -> Py.truthy tok = true ->
               is_valid_invite_token env tok = false) ->
  _generate_account env req provider user_info
    (record_call (CallGetUserInfo provider token)
       (record_call (CallGetAccessToken provider code) s)) = (inr a, s2) ->
  status_of s a = Some BANNED ->
  OAuthCallback_get env req provider s
  = (inr (signin_message env "Account is banned."), s2)
  /\ status_of s2 a = Some BANNED
  /\ exists pre post,
       calls s2 = calls s
                  ++ [CallGetAccessToken provider code; CallGetUserInfo provider token]
                  ++ pre
                  ++ [CallLinkAccountIntegrate provider (ui_id user_info) a;
                      CallSyncUserOrganizations a] ++ post.
Proof.
  intros Hp Hc Hct Ha Hu Hinv Hg Hb.
  assert (status_of s2 a = Some BANNED) as Hb2.
  { now apply (generate_account_keeps_status _ _ _ _ _ _ _ _ _ Hg). }
  split; [|split; [done|]].
  - unfold OAuthCallback_get. rewrite Hp, Hc. simpl. rewrite Hct. simpl.
    unfold exchange, bind, modify, raise, ret. rewrite Ha, Hu.
    assert (invite_redirect env
              (if Py.truthy_opt (args_state req) then args_state req else None)
              user_info = None) as ->.
    { unfold invite_redirect. destruct (args_state req) as [tok|] eqn:Es; [|done].
      simpl. destruct (Py.truthy tok) eqn:Et; [|done]. now rewrite (Hinv tok). }
    unfold login_account. rewrite Hg. unfold check_status, bind, gets.
    now rewrite Hb2.
  - destruct (generate_account_trace _ _ _ _ _ _ _ Hg)
      as (s3 & pre & post & _ & _ & C & _).
    exists pre, post. rewrite C. simpl. now rewrite <- !app_assoc.
Qed.

(** * Concrete runs *)

(** C1 fails as stated: Ann's account is BANNED and her identity lists the
    organisation "Acme".  The callback answers with the banned redirect,
    but by then the sync has run: the "Acme" tenant, its mapping and
    Ann's owner membership have been written, and so has the link. *)
Lemma banned_login_syncs_before_rejection :
  status_of (ann_store BANNED) 1 = Some BANNED /\
  let r := OAuthCallback_get demo_env demo_request "casdoor" (ann_store BANNED) in
  r.1 = inr (signin_message demo_env "Account is banned.") /\
  tenants r.2 = [old_tenant; acme_tenant 8] /\
  mappings r.2 = [mkMapping "Acme" 8] /\
  joins r.2 = [mkJoin 7 1 "normal"; mkJoin 8 1 "owner"] /\
  integrates r.2 = [mkIntegrate "casdoor" "cas-ann" 1] /\
  calls r.2 = [CallGetAccessToken "casdoor" "code-1";
               CallGetUserInfo "casdoor" "token-for-code-1";
               CallLinkAccountIntegrate "casdoor" "cas-ann" 1;
               CallSyncUserOrganizations 1] /\
  tenants r.2 <> tenants (ann_store BANNED) /\
  joins r.2 <> joins (ann_store BANNED).
Proof. vm_compute. repeat split; discriminate. Qed.

Lemma banned_rejected_after_generate_account_witness :
  get_oauth_providers demo_env "casdoor" = Some casdoor_client /\
  status_of (ann_store BANNED) 1 = Some BANNED /\
  OAuthCallback_get demo_env demo_request "casdoor" (ann_store BANNED)
  = (inr (signin_message demo_env "Account is banned."),
     (_generate_account demo_env demo_request "casdoor" ann
        (exchanged (ann_store BANNED))).2)
  /\ status_of (_generate_account demo_env demo_request "casdoor" ann
                  (exchanged (ann_store BANNED))).2 1 = Some BANNED.
Proof.
  split; [reflexivity|]. split; [reflexivity|].
  destruct (banned_rejected_after_generate_account demo_env demo_request "casdoor"
              casdoor_client "code-1" "token-for-code-1" ann (ann_store BANNED)
              (_generate_account demo_env demo_request "casdoor" ann
                 (exchanged (ann_store BANNED))).2 1)
    as (H1 & H2 & _); try reflexivity.
  - intros tok H. discriminate H.
  - split; [exact H1|exact H2].
Defined.

Lemma sync_twice_adds_nothing_witness :
  let s1 := _sync_user_organizations 1 (with_orgs ["Acme/dept-team"; "Solo"])
              (ann_store ACTIVE) in
  let s2 := _sync_user_organizations 1 (with_orgs ["Acme/dept-team"; "Solo"]) s1 in
  length (tenants s1) = 5 /\ tenants s2 = tenants s1 /\
  mappings s2 = mappings s1 /\ joins s2 = joins s1.
Proof.
  intros s1 s2. split; [reflexivity|].
  destruct (sync_twice_adds_nothing 1 (with_orgs ["Acme/dept-team"; "Solo"])
              (ann_store ACTIVE)) as (H1 & H2 & H3 & _).
  split; [exact H1|]. split; [exact H2|exact H3].
Defined.

Lemma acme_dept_team_three_levels_witness :
  exists t1 t2 t3,
    t1 < t2 /\ t2 < t3 /\
    tenants (_sync_user_organizations 1 (with_orgs ["Acme/dept-team"]) (ann_store ACTIVE))
    = [old_tenant;
       mkTenant t1 "Acme" (Some "Acme") None "basic" "normal";
       mkTenant t2 "dept" (Some "Acme/dept") (Some t1) "basic" "normal";
       mkTenant t3 "team" (Some "Acme/dept-team") (Some t2) "basic" "normal"] /\
    joins (_sync_user_organizations 1 (with_orgs ["Acme/dept-team"]) (ann_store ACTIVE))
    = [mkJoin 7 1 "normal"; mkJoin t1 1 "owner"; mkJoin t2 1 "owner";
       mkJoin t3 1 "owner"].
Proof.
  destruct (acme_dept_team_three_levels 1 (with_orgs ["Acme/dept-team"])
              (ann_store ACTIVE) eq_refl) as (t1 & t2 & t3 & _ & L1 & L2 & T & _ & J).
  - intros m Hm. simpl in Hm. now apply elem_of_nil in Hm.
  - exists t1, t2, t3. split; [exact L1|]. split; [exact L2|].
    split; [exact T|exact J].
Defined.

(** C4 fails as stated: for "root/" the sync does not stop at what the
    flat case for "root" does (one tenant, one membership); it goes on to
    create a child tenant keyed "root/" with the empty name and a second
    membership. *)
Lemma root_slash_is_not_the_flat_case :
  let flat := _sync_user_organizations 1 (with_orgs ["root"]) (ann_store ACTIVE) in
  let slash := _sync_user_organizations 1 (with_orgs ["root/"]) (ann_store ACTIVE) in
  tenants flat = [old_tenant; mkTenant 8 "root" (Some "root") None "basic" "normal"] /\
  joins flat = [mkJoin 7 1 "normal"; mkJoin 8 1 "owner"] /\
  tenants slash = [old_tenant;
                   mkTenant 8 "root" (Some "root") None "basic" "normal";
                   mkTenant 9 "" (Some "root/") (Some 8) "basic" "normal"] /\
  joins slash = [mkJoin 7 1 "normal"; mkJoin 8 1 "owner"; mkJoin 9 1 "owner"] /\
  tenants slash <> tenants flat /\ joins slash <> joins flat.
Proof. vm_compute. repeat split; discriminate. Qed.

Lemma root_slash_creates_empty_child_witness :
  Py.contains "/" "root" = false /\
  exists t1 t2,
    t1 < t2 /\
    tenants (_sync_user_organizations 1 (with_orgs ["root/"]) (ann_store ACTIVE))
    = [old_tenant;
       mkTenant t1 "root" (Some "root") None "basic" "normal";
       mkTenant t2 "" (Some "root/") (Some t1) "basic" "normal"].
Proof.
  split; [reflexivity|].
  destruct (root_slash_creates_empty_child 1 (with_orgs ["root/"])
              (ann_store ACTIVE) "root" eq_refl eq_refl)
    as (t1 & t2 & _ & L & T & _).
  - intros m Hm. simpl in Hm. now apply elem_of_nil in Hm.
  - exists t1, t2. split; [exact L|exact T].
Defined.

(** C5 fails as stated: registration is disabled and the email is on the
    freeze list, but billing is disabled, and the error is the generic
    one, not the freeze-list one. *)
Lemma frozen_email_without_billing_gets_generic_error :
  is_allow_register demo_env = false /\
  is_email_in_freeze demo_env (ui_email ann) = true /\
  _get_account_by_openid_or_email "casdoor" ann empty_store = (inr None, empty_store) /\
  _generate_account demo_env demo_request "casdoor" ann empty_store
  = (inl (AccountRegisterError "Invalid email or password"), empty_store) /\
  _generate_account demo_env demo_request "casdoor" ann empty_store
  <> (inl (AccountRegisterError freeze_description), empty_store).
Proof. vm_compute. repeat split; discriminate. Qed.

Lemma registration_disabled_error_witness :
  is_allow_register demo_env = false /\
  _generate_account demo_env demo_request "casdoor" ann empty_store
  = (inl (AccountRegisterError "Invalid email or password"), empty_store).
Proof.
  split; [reflexivity|].
  exact (proj1 (registration_disabled_error demo_env demo_request "casdoor" ann
                  empty_store eq_refl eq_refl)).
Defined.

(** C6: the claim, and the comment above the step ("set the first
    organisation as the current workspace"), are not met.  Ann has no
    current tenant and is already a member of tenant 7.  The sync attaches
    her to one tenant, the new "Acme" tenant 8, and selects tenant 7 as
    current. *)
Lemma current_tenant_is_not_the_first_attached :
  let s := ann_store ACTIVE in
  let s' := _sync_user_organizations 1 ann s in
  current_tenant_of s 1 = None /\
  joins s' = joins s ++ [mkJoin 8 1 "owner"] /\
  current_tenant_of s' 1 = Some 7 /\
  current_tenant_of s' 1 <> Some 8.
Proof. vm_compute. repeat split; discriminate. Qed.

Lemma invite_mismatch_redirects_witness :
  dict_get "email" [("email", "bob@example.com")] <> Some (ui_email ann) /\
  (OAuthCallback_get demo_env invite_request "casdoor" empty_store).1
  = inr (signin_message demo_env "Invalid invitation token.") /\
  accounts (OAuthCallback_get demo_env invite_request "casdoor" empty_store).2 = [] /\
  tenants (OAuthCallback_get demo_env invite_request "casdoor" empty_store).2 = [].
Proof.
  split; [discriminate|].
  destruct (invite_mismatch_redirects demo_env invite_request "casdoor" casdoor_client
              "code-1" "token-for-code-1" "invite-1" ann
              [("email", "bob@example.com")] empty_store)
    as (H1 & H2 & H3 & _); try reflexivity; try discriminate.
  split; [exact H1|]. split; [exact H2|exact H3].
Defined.

(** C8 fails as stated: two accounts share Ann's email and none is linked
    to her identity.  The lookup returns neither the first of them nor
    nothing: it raises [MultipleResultsFound]. *)
Lemma shared_email_lookup_raises :
  let r := _get_account_by_openid_or_email "casdoor" ann twin_store in
  get_by_openid "casdoor" "cas-ann" twin_store = None /\
  accounts_by_email "ann@example.com" twin_store = accounts twin_store /\
  length (accounts twin_store) = 2 /\
  r = (inl MultipleResultsFound, twin_store) /\
  ~ (exists found, r.1 = inr found).
Proof.
  vm_compute. repeat split; try reflexivity. intros [found H]. discriminate H.
Qed.

Lemma lookup_by_openid_then_unique_email_witness :
  get_by_openid "casdoor" "cas-ann" crossed_store = Some bob_account /\
  _get_account_by_openid_or_email "casdoor" ann crossed_store
  = (inr (Some bob_account), crossed_store) /\
  get_by_openid "casdoor" "cas-ann" (ann_store ACTIVE) = None /\
  (_get_account_by_openid_or_email "casdoor" ann (ann_store ACTIVE)).1
  = inr (Some (ann_account ACTIVE)).
Proof.
  split; [reflexivity|].
  destruct (lookup_by_openid_then_unique_email "casdoor" ann crossed_store)
    as (H1 & H2 & _).
  split.
  { rewrite <- H1 at 2. rewrite <- (H2 bob_account eq_refl). apply surjective_pairing. }
  split; [reflexivity|].
  destruct (lookup_by_openid_then_unique_email "casdoor" ann (ann_store ACTIVE))
    as (_ & _ & H3).
  destruct (H3 eq_refl) as (_ & _ & H4 & _).
  apply (H4 [] _ []); [reflexivity|reflexivity|].
  intros x Hx. now apply elem_of_nil in Hx.
Defined.

Lemma generate_account_links_then_syncs_witness :
  _generate_account demo_env demo_request "casdoor" ann (ann_store ACTIVE)
  = (inr 1, (_generate_account demo_env demo_request "casdoor" ann (ann_store ACTIVE)).2)
  /\ exists pre post,
       calls (_generate_account demo_env demo_request "casdoor" ann (ann_store ACTIVE)).2
       = calls (ann_store ACTIVE) ++ pre
         ++ [CallLinkAccountIntegrate "casdoor" "cas-ann" 1;
             CallSyncUserOrganizations 1] ++ post.
Proof.
  split; [reflexivity|].
  exact (proj1 (generate_account_links_then_syncs demo_env demo_request "casdoor" ann
                  (ann_store ACTIVE) _ 1 eq_refl)).
Defined.

Lemma callback_without_code_is_400_witness :
  get_oauth_providers demo_env "casdoor" = Some casdoor_client /\
  OAuthCallback_get demo_env codeless_request "casdoor" (ann_store ACTIVE)
  = (inr (Json "Authorization code is required" 400), ann_store ACTIVE).
Proof.
  split; [reflexivity|].
  exact (callback_without_code_is_400 demo_env codeless_request "casdoor"
           casdoor_client (ann_store ACTIVE) eq_refl eq_refl).
Defined.

(** * Further properties of the organisation sync *)

Lemma grown_from_loop a s0 orgs st :
  grown_from a s0 st -> grown_from a s0 (foldl (sync_org a) st orgs).
Proof.
  apply (sync_loop_preserves a (grown_from a s0)).
  - intros name key parent st' (ts & js & T & M & J & Ft & Fj).
    unfold ensure_tenant. destruct (org_to_tenant st' !! key); [now exists ts, js|].
    exists (ts ++ [mkTenant (fresh_tenant_id (st_store st')) name (Some key) parent
                     "basic" "normal"]), js. simpl.
    rewrite T, M, map_app, <- !app_assoc. repeat split; try done.
    apply Forall_app. split; [done|]. apply Forall_singleton.
    repeat split; simpl; eauto.
  - intros st' t (ts & js & T & M & J & Ft & Fj).
    unfold attach. destruct (decide _); [now exists ts, js|].
    destruct (find_tenant _ _) as [x|]; [|now exists ts, js].
    unfold create_tenant_member. destruct (is_member _ _ _); [now exists ts, js|].
    exists ts, (js ++ [mkJoin (tenant_id x) a "owner"]). simpl.
    rewrite J, <- !app_assoc. repeat split; try done.
    apply Forall_app. split; [done|]. now apply Forall_singleton.
Qed.

Lemma sync_grows (a : nat) (user_info : OAuthUserInfo) (s : Store) :
  let s' := _sync_user_organizations a user_info s in
  exists ts js,
    tenants s' = tenants s ++ ts /\
    mappings s' = mappings s ++ map mapping_of_tenant ts /\
    joins s' = joins s ++ js /\
    Forall organisation_tenant ts /\ Forall (owner_join_of a) js /\
    integrates s' = integrates s.
Proof.
  intros s'. subst s'. unfold _sync_user_organizations.
  destruct (ui_organizations user_info) as [|o orgs].
  { exists [], []. simpl. rewrite !app_nil_r. repeat split; done. }
  set (sa := record_call (CallSyncUserOrganizations a) s).
  destruct (grown_from_loop a sa (o :: orgs) (sync_init a sa))
    as (ts & js & T & M & J & Ft & Fj).
  { exists [], []. simpl. rewrite !app_nil_r. repeat split; done. }
  destruct (select_current_tenant_tables a (foldl (sync_org a) (sync_init a sa) (o :: orgs)))
    as (-> & -> & -> & -> & _).
  exists ts, js. rewrite sync_loop_integrates. repeat split; done.
Qed.

(** X1: the sync only appends: the tenant, mapping and membership tables it
    returns are the old ones followed by new rows.  Every new tenant
    carries an organisation key, plan "basic" and status "normal", and
    comes with exactly its own mapping row; every new membership is an
    owner membership of the account.  The link table is untouched. *)
Theorem sync_only_appends (a : nat) (user_info : OAuthUserInfo) (s : Store) :
  let s' := _sync_user_organizations a user_info s in
  exists ts js,
    tenants s' = tenants s ++ ts /\
    mappings s' = mappings s ++ map mapping_of_tenant ts /\
    joins s' = joins s ++ js /\
    Forall organisation_tenant ts /\ Forall (owner_join_of a) js /\
    integrates s' = integrates s.
Proof. apply sync_grows. Qed.

Lemma sync_tables a o orgs s :
  let st := foldl (sync_org a)
              (sync_init a (record_call (CallSyncUserOrganizations a) s)) (o :: orgs) in
  forall user_info, ui_organizations user_info = o :: orgs ->
  tenants (_sync_user_organizations a user_info s) = tenants (st_store st) /\
  mappings (_sync_user_organizations a user_info s) = mappings (st_store st) /\
  joins (_sync_user_organizations a user_info s) = joins (st_store st).
Proof.
  intros st user_info E. unfold _sync_user_organizations. rewrite E. fold st.
  destruct (select_current_tenant_tables a st) as (-> & -> & -> & _). done.
Qed.

(** X2: organisation keys stay unique: when no two mapping rows share a key
    before the sync, none do after it. *)
Theorem sync_keeps_mapping_keys_unique (a : nat) (user_info : OAuthUserInfo) (s : Store) :
  NoDup (map mapping_casdoor_org_id (mappings s)) ->
  NoDup (map mapping_casdoor_org_id (mappings (_sync_user_organizations a user_info s))).
Proof.
  intros H. destruct (ui_organizations user_info) as [|o orgs] eqn:E.
  { unfold _sync_user_organizations. now rewrite E. }
  destruct (sync_tables a o orgs s user_info E) as (_ & -> & _).
  apply (sync_loop_preserves a
           (fun st => sync_inv a st
                      /\ NoDup (map mapping_casdoor_org_id (mappings (st_store st)))));
    [| |split; [apply sync_inv_init|exact H]].
  - intros name key parent st [I N]. split; [now apply sync_inv_ensure|].
    unfold ensure_tenant. destruct (org_to_tenant st !! key) eqn:K; [done|]. simpl.
    rewrite map_app. apply NoDup_app. split; [done|]. split; [|apply NoDup_singleton].
    intros k Hk Hk'. apply list_elem_of_singleton in Hk'. simpl in Hk'. subst k.
    destruct I as [I1 _]. rewrite I1 in K.
    apply list_elem_of_fmap in Hk as (m & Em & Hm).
    now apply (proj1 (load_org_to_tenant_None _ _) K m).
  - intros st t [I N]. split; [now apply sync_inv_attach|]. now rewrite attach_mappings.
Qed.

(** Tenant keys stay unique: a tenant the sync creates never takes the
    primary key of an existing row. *)
Lemma sync_keeps_tenant_ids_unique (a : nat) (user_info : OAuthUserInfo) (s : Store) :
  NoDup (map tenant_id (tenants s)) ->
  NoDup (map tenant_id (tenants (_sync_user_organizations a user_info s))).
Proof.
  intros H. destruct (ui_organizations user_info) as [|o orgs] eqn:E.
  { unfold _sync_user_organizations. now rewrite E. }
  destruct (sync_tables a o orgs s user_info E) as (-> & _ & _).
  apply (sync_loop_preserves a
           (fun st => NoDup (map tenant_id (tenants (st_store st))))); [| |exact H].
  - intros name key parent st N.
    unfold ensure_tenant. destruct (org_to_tenant st !! key) eqn:K; [done|]. simpl.
    rewrite map_app. apply NoDup_app. split; [done|]. split; [|apply NoDup_singleton].
    intros k Hk Hk'. apply list_elem_of_singleton in Hk'. simpl in Hk'. subst k.
    apply list_elem_of_fmap in Hk as (x & Ex & Hx).
    apply tenant_id_lt_fresh in Hx. lia.
  - intros st t N. now rewrite attach_tenants.
Qed.

(** X3: memberships stay unique: when no two membership rows share the pair
    (tenant, account) before the sync, none do after it. *)
Theorem sync_keeps_memberships_unique (a : nat) (user_info : OAuthUserInfo) (s : Store) :
  NoDup (map join_pair (joins s)) ->
  NoDup (map join_pair (joins (_sync_user_organizations a user_info s))).
Proof.
  intros H. destruct (ui_organizations user_info) as [|o orgs] eqn:E.
  { unfold _sync_user_organizations. now rewrite E. }
  destruct (sync_tables a o orgs s user_info E) as (_ & _ & ->).
  apply (sync_loop_preserves a
           (fun st => NoDup (map join_pair (joins (st_store st))))); [| |exact H].
  - intros name key parent st N.
    unfold ensure_tenant. now destruct (org_to_tenant st !! key).
  - intros st t N. unfold attach. destruct (decide _); [done|].
    destruct (find_tenant _ _) as [x|]; [|done]. simpl.
    unfold create_tenant_member. destruct (is_member _ _ _) eqn:M; [done|]. simpl.
    rewrite map_app. apply NoDup_app. split; [done|]. split; [|apply NoDup_singleton].
    intros p Hp Hp'. apply list_elem_of_singleton in Hp'. subst p.
    apply list_elem_of_fmap in Hp as (j & Ej & Hj). injection Ej as E1 E2.
    assert (is_member (st_store st) a (tenant_id x) = true) as M'.
    { apply is_member_true. exists j. auto. }
    congruence.
Qed.

(** ** Keys and the strings they come from *)

Lemma split_nonempty c s : Py.split c s <> [].
Proof.
  destruct s as [|d s]; simpl; [done|].
  destruct (Ascii.eqb c d); [done|]. now destruct (Py.split c s).
Qed.

Lemma join_cons_String sep d w ws :
  Py.join sep (String d w :: ws) = String d (Py.join sep (w :: ws)).
Proof. destruct ws; reflexivity. Qed.

(** [sep.join(s.split(sep)) == s] for a one-character separator. *)
Lemma join_split c s : Py.join (String c EmptyString) (Py.split c s) = s.
Proof.
  induction s as [|d s IH]; [reflexivity|]. cbn -[Ascii.eqb Py.join].
  destruct (Ascii.eqb_spec c d) as [->|N].
  - pose proof (split_nonempty d s) as Hn.
    destruct (Py.split d s) as [|w ws]; [done|].
    change (Py.join (String d "") ("" :: w :: ws))
      with (String d (Py.join (String d "") (w :: ws))).
    now rewrite IH.
  - pose proof (split_nonempty c s) as Hn.
    destruct (Py.split c s) as [|w ws]; [done|].
    now rewrite join_cons_String, IH.
Qed.

(** [a, b = s.split(c, 1)] gives back [s == a + c + b], and [a] holds no
    [c]. *)
Lemma split_once_spec c s a b :
  Py.contains c s = true -> Py.split_once c s = (a, b) ->
  s = (a ++ String c b)%string /\ Py.contains c a = false.
Proof.
  revert a b; induction s as [|d s IH]; intros a b; [discriminate|].
  cbn -[Ascii.eqb]. destruct (Ascii.eqb_spec c d) as [->|N].
  - intros _ [= <- <-]. done.
  - intros Hc. destruct (Py.split_once c s) as [a' b'] eqn:E.
    intros [= <- <-]. destruct (IH a' b' Hc eq_refl) as [-> Ha].
    split; [reflexivity|]. cbn -[Ascii.eqb].
    destruct (Ascii.eqb_spec c d); [done|exact Ha].
Qed.

Lemma combine_app_same_length {A B} (l1 l2 : list A) (k1 k2 : list B) :
  length l1 = length k1 ->
  combine (l1 ++ l2) (k1 ++ k2) = combine l1 k1 ++ combine l2 k2.
Proof.
  revert k1; induction l1 as [|x l1 IH]; intros [|y k1] H; try discriminate; simpl.
  - reflexivity.
  - f_equal. apply IH. now injection H.
Qed.

Lemma enumerate_last {A} (l : list A) (x : A) :
  Py.enumerate (l ++ [x]) = Py.enumerate l ++ [(length l, x)].
Proof.
  unfold Py.enumerate. rewrite length_app. simpl.
  rewrite Nat.add_1_r, seq_S. simpl.
  rewrite combine_app_same_length; [reflexivity|]. now rewrite length_seq.
Qed.

Lemma deepest_level_key (org root_org child_org_part : string) :
  Py.contains "/" org = true ->
  Py.split_once "/" org = (root_org, child_org_part) ->
  let org_path_parts := Py.split "-" child_org_part in
  full_org_path root_org org_path_parts (length org_path_parts - 1) = org /\
  last (Py.enumerate org_path_parts)
  = Some (length org_path_parts - 1, default "" (last org_path_parts)).
Proof.
  intros Hc Hs parts. destruct (split_once_spec _ _ _ _ Hc Hs) as [-> _].
  pose proof (split_nonempty "-" child_org_part) as Hn. fold parts in Hn.
  assert (0 < length parts) as Hl by (destruct parts; [done|simpl; lia]).
  split.
  - unfold full_org_path.
    replace (length parts - 1 + 1) with (length parts) by lia.
    rewrite firstn_all. unfold parts. now rewrite (join_split "-").
  - destruct (exists_last Hn) as (l & x & E). rewrite E, enumerate_last, !last_snoc.
    rewrite length_app. simpl. do 2 f_equal. lia.
Qed.

(** X4: the cumulative key of the deepest level is the organisation string as
    it was received, and that level is the last one the loop visits. *)
Theorem deepest_level_key_is_the_organisation (org root_org child_org_part : string) :
  Py.contains "/" org = true ->
  Py.split_once "/" org = (root_org, child_org_part) ->
  let org_path_parts := Py.split "-" child_org_part in
  full_org_path root_org org_path_parts (length org_path_parts - 1) = org /\
  last (Py.enumerate org_path_parts)
  = Some (length org_path_parts - 1, default "" (last org_path_parts)).
Proof. apply deepest_level_key. Qed.

Lemma org_in_org_keys org : Py.truthy org = true -> org ∈ org_keys org.
Proof.
  intros Ht. unfold org_keys. rewrite Ht.
  destruct (Py.contains "/" org) eqn:Hc; [|now apply list_elem_of_singleton].
  destruct (Py.split_once "/" org) as [root_org child] eqn:Hs.
  destruct (deepest_level_key org root_org child Hc Hs) as [E L].
  apply elem_of_cons. right. unfold level_keys. apply list_elem_of_fmap.
  exists (length (Py.split "-" child) - 1, default "" (last (Py.split "-" child))).
  split; [symmetry; exact E|].
  apply last_Some in L as [l' ->]. apply elem_of_app. right.
  now apply list_elem_of_singleton.
Qed.

(** X5: after the sync every key the loop went through -- for a path the root
    and every cumulative level, the organisation string itself in every
    case -- is in the mapping table, and the account is a member of the
    tenant it is mapped to, unless that tenant has no row. *)
Theorem sync_maps_and_joins_every_level (a : nat) (user_info : OAuthUserInfo)
    (s : Store) (org : string) :
  org ∈ ui_organizations user_info -> Py.truthy org = true ->
  let s' := _sync_user_organizations a user_info s in
  org ∈ org_keys org /\
  forall k, k ∈ org_keys org ->
    exists t, load_org_to_tenant (mappings s') !! k = Some t /\
              (is_Some (find_tenant s' t) -> is_member s' a t = true).
Proof.
  intros Ho Ht s'. split; [now apply org_in_org_keys|]. intros k Hk.
  destruct (ui_organizations user_info) as [|o orgs] eqn:E; [now apply elem_of_nil in Ho|].
  set (sa := record_call (CallSyncUserOrganizations a) s).
  set (st := foldl (sync_org a) (sync_init a sa) (o :: orgs)).
  assert (sync_inv a st) as [I1 I2] by apply sync_inv_loop, sync_inv_init.
  destruct (sync_loop_settles a (o :: orgs) (sync_init a sa) org k
              (sync_inv_init a sa) Ho Hk) as (t & Kt & St). fold st in Kt, St.
  destruct (sync_tables a o orgs s user_info E) as (T & M & J). fold sa st in T, M, J.
  exists t. subst s'. unfold find_tenant, is_member. rewrite T, M, J, <- I1.
  split; [done|]. intros Hf. destruct St as [St|St].
  - now apply I2 in St.
  - unfold find_tenant in St. rewrite St in Hf. now destruct Hf.
Qed.

(** ** One flat organisation *)

(** X6: an organisation string without separator that has no mapping yet gets
    exactly one tenant, named and keyed by the string and without parent,
    one mapping and one owner membership. *)
Theorem flat_organisation_from_scratch (a : nat) (user_info : OAuthUserInfo)
    (s : Store) (org : string) :
  ui_organizations user_info = [org] ->
  Py.truthy org = true -> Py.contains "/" org = false ->
  (forall m, m ∈ mappings s -> mapping_casdoor_org_id m <> org) ->
  let s' := _sync_user_organizations a user_info s in
  let t := fresh_tenant_id s in
  (forall x, x ∈ tenants s -> tenant_id x <> t) /\
  tenants s' = tenants s ++ [mkTenant t org (Some org) None "basic" "normal"] /\
  mappings s' = mappings s ++ [mkMapping org t] /\
  joins s' = joins s ++ [mkJoin t a "owner"].
Proof.
  intros Eo Ht Hc Hm s' t.
  split. { intros x Hx. apply tenant_id_lt_fresh in Hx. unfold t. lia. }
  subst s'.
  destruct (sync_tables a org [] s user_info Eo) as (-> & -> & ->).
  cbn [foldl]. unfold sync_org. rewrite Ht, Hc. unfold sync_flat.
  set (sa := record_call (CallSyncUserOrganizations a) s).
  rewrite (ensure_tenant_absent org org None (sync_init a sa)).
  2:{ simpl. now apply load_org_to_tenant_None. }
  cbv zeta. cbn [org_to_tenant]. rewrite lookup_total_insert_eq.
  change (fresh_tenant_id (st_store (sync_init a sa))) with t.
  erewrite attach_new; [done| | |].
  - simpl. intros Hu. apply (joined_ids_lt_fresh sa) in Hu.
    change (fresh_tenant_id sa) with t in Hu. lia.
  - simpl. unfold find_tenant. simpl. rewrite find_app_r.
    + simpl. now rewrite Nat.eqb_refl.
    + apply (find_tenant_fresh sa). reflexivity.
  - apply (is_member_fresh sa). reflexivity.
Qed.

(** X7: an organisation string without separator that is already mapped
    creates no tenant and no mapping.  When the mapped tenant has a row and
    the account is not yet a member, one owner membership is added;
    otherwise (already a member, or a mapping whose tenant is gone) the
    membership table is unchanged too.  With several mapping rows for the
    key, the last one decides. *)
Theorem flat_organisation_already_mapped (a : nat) (user_info : OAuthUserInfo)
    (s : Store) (org : string) (t : nat) :
  ui_organizations user_info = [org] ->
  Py.truthy org = true -> Py.contains "/" org = false ->
  load_org_to_tenant (mappings s) !! org = Some t ->
  let s' := _sync_user_organizations a user_info s in
  tenants s' = tenants s /\ mappings s' = mappings s /\
  joins s' = match find_tenant s t with
             | Some _ => if is_member s a t then joins s
                         else joins s ++ [mkJoin t a "owner"]
             | None => joins s
             end.
Proof.
  intros Eo Ht Hc Hk s'. subst s'.
  destruct (sync_tables a org [] s user_info Eo) as (-> & -> & ->).
  cbn [foldl]. unfold sync_org. rewrite Ht, Hc. unfold sync_flat.
  set (sa := record_call (CallSyncUserOrganizations a) s).
  rewrite (ensure_tenant_present org org None (sync_init a sa) t Hk).
  assert (org_to_tenant (sync_init a sa) !!! org = t) as ->
    by apply (lookup_total_correct _ _ _ Hk).
  assert (find_tenant (st_store (sync_init a sa)) t = find_tenant s t) as F0
    by reflexivity.
  assert (is_member (st_store (sync_init a sa)) a t = is_member s a t) as M0
    by reflexivity.
  destruct (find_tenant s t) as [x|] eqn:F.
  - destruct (is_member s a t) eqn:M.
    + rewrite attach_skip; [done|]. left. apply (joined_ids_spec sa).
      split; [|exact M]. change (is_Some (find_tenant s t)). rewrite F. eauto.
    + erewrite attach_new; [done| |exact F0|exact M0].
      intros Hu. apply (joined_ids_spec sa) in Hu as [_ Hu].
      change (is_member s a t = true) in Hu. congruence.
  - rewrite attach_skip; [done|]. now right.
Qed.

(** ** Empty entries *)

Lemma sync_loop_skips_empty a orgs st :
  foldl (sync_org a) st (List.filter Py.truthy orgs) = foldl (sync_org a) st orgs.
Proof.
  revert st; induction orgs as [|o orgs IH]; intros st; [reflexivity|]. simpl.
  destruct (Py.truthy o) eqn:T; simpl.
  - apply IH.
  - assert (sync_org a st o = st) as -> by (unfold sync_org; now rewrite T).
    apply IH.
Qed.

(** X8: empty strings in the organisation list are skipped: the tenant,
    mapping and membership tables come out as they do for the list
    without them; a list of empty strings alone writes no row at all. *)
Theorem sync_skips_empty_entries (a : nat) (user_info stripped : OAuthUserInfo)
    (s : Store) :
  ui_organizations stripped = List.filter Py.truthy (ui_organizations user_info) ->
  let s1 := _sync_user_organizations a user_info s in
  let s2 := _sync_user_organizations a stripped s in
  tenants s1 = tenants s2 /\ mappings s1 = mappings s2 /\ joins s1 = joins s2.
Proof.
  intros E s1 s2. subst s1 s2.
  destruct (ui_organizations user_info) as [|o orgs] eqn:Eo.
  { simpl in E. unfold _sync_user_organizations. now rewrite E, Eo. }
  destruct (sync_tables a o orgs s user_info Eo) as (-> & -> & ->).
  rewrite <- sync_loop_skips_empty.
  destruct (List.filter Py.truthy (o :: orgs)) as [|o' orgs'] eqn:F.
  - unfold _sync_user_organizations. rewrite E. done.
  - destruct (sync_tables a o' orgs' s stripped E) as (-> & -> & ->). done.
Qed.

(** * Further properties of the two endpoints *)

Lemma get_oauth_providers_Some env provider client :
  get_oauth_providers env provider = Some client ->
  provider_configured env provider /\
  redirect_uri client
  = (CONSOLE_API_URL (dify_config env) ++ "/console/api/oauth/authorize/"
     ++ provider)%string.
Proof.
  unfold get_oauth_providers, provider_configured.
  destruct (String.eqb_spec provider "github") as [->|N1].
  - destruct (GITHUB_CLIENT_ID _) as [i|], (GITHUB_CLIENT_SECRET _) as [k|];
      try discriminate. simpl.
    destruct (Py.truthy i), (Py.truthy k); try discriminate.
    intros [= <-]. split; [left; done|reflexivity].
  - destruct (String.eqb_spec provider "casdoor") as [->|N2]; [|discriminate].
    destruct (CASDOOR_CLIENT_ID _) as [i|], (CASDOOR_CLIENT_SECRET _) as [k|];
      try discriminate. simpl.
    destruct (Py.truthy i), (Py.truthy k); try discriminate.
    intros [= <-]. split; [right; done|reflexivity].
Qed.

Lemma get_oauth_providers_None env provider :
  get_oauth_providers env provider = None -> ~ provider_configured env provider.
Proof.
  unfold get_oauth_providers, provider_configured.
  intros H [(-> & Hi & Hk)|(-> & Hi & Hk)]; simpl in H.
  - destruct (GITHUB_CLIENT_ID _) as [i|], (GITHUB_CLIENT_SECRET _) as [k|];
      try discriminate. simpl in *. now rewrite Hi, Hk in H.
  - destruct (CASDOOR_CLIENT_ID _) as [i|], (CASDOOR_CLIENT_SECRET _) as [k|];
      try discriminate. simpl in *. now rewrite Hi, Hk in H.
Qed.

(** X10: a provider has a client exactly when its name is "github" or
    "casdoor" and its client id and secret are both set and non-empty;
    the redirect URI given to the client is the callback route of that
    same provider. *)
Theorem provider_client_iff_configured (env : Env) (provider : string) :
  (is_Some (get_oauth_providers env provider) <-> provider_configured env provider) /\
  forall client, get_oauth_providers env provider = Some client ->
    redirect_uri client
    = (CONSOLE_API_URL (dify_config env) ++ "/console/api/oauth/authorize/"
       ++ provider)%string.
Proof.
  split.
  - split.
    + intros [client H]. now apply get_oauth_providers_Some in H.
    + intros H. destruct (get_oauth_providers env provider) eqn:E; [eauto|].
      now apply get_oauth_providers_None in E.
  - intros client H. now apply get_oauth_providers_Some in H.
Qed.

(** X11: for a provider that is unknown or not fully configured, both endpoints
    answer 400 "Invalid provider"; the callback does so before reading the
    request and leaves the store, call log included, as it was. *)
Theorem unconfigured_provider_is_invalid (env : Env) (req : Request)
    (get_authorization_url : OAuthClient -> option string -> string)
    (invite_token_arg : option string) (provider : string) (s : Store) :
  ~ provider_configured env provider ->
  OAuthLogin_get env get_authorization_url invite_token_arg provider
  = Json "Invalid provider" 400 /\
  OAuthCallback_get env req provider s = (inr (Json "Invalid provider" 400), s).
Proof.
  intros H. unfold OAuthLogin_get, OAuthCallback_get.
  destruct (get_oauth_providers env provider) as [client|] eqn:E; [|done].
  destruct H. now apply get_oauth_providers_Some in E.
Qed.

(** X12: a request error from either of the two provider calls is answered with
    400 "OAuth process failed"; no table is written. *)
Theorem provider_request_error_is_400 (env : Env) (req : Request) (provider : string)
    (client : OAuthClient) (code text : string) (s : Store) :
  get_oauth_providers env provider = Some client ->
  args_code req = Some code -> Py.truthy code = true ->
  (provider_get_access_token env client code = inl (RequestError text)
   \/ exists token, provider_get_access_token env client code = inr token
                    /\ provider_get_user_info env client token
                       = inl (RequestError text)) ->
  let r := OAuthCallback_get env req provider s in
  r.1 = inr (Json "OAuth process failed" 400) /\ same_tables s r.2.
Proof.
  intros Hp Hc Hct H. unfold OAuthCallback_get. rewrite Hp, Hc. simpl. rewrite Hct.
  simpl. unfold exchange, bind, modify, raise, ret.
  destruct H as [H|(token & H1 & H2)].
  - rewrite H. simpl. repeat split; done.
  - rewrite H1, H2. simpl. repeat split; done.
Qed.

Lemma callback_after_exchange env req provider client code token user_info s :
  get_oauth_providers env provider = Some client ->
  args_code req = Some code -> Py.truthy code = true ->
  provider_get_access_token env client code = inr token ->
  provider_get_user_info env client token = inr user_info ->
  OAuthCallback_get env req provider s
  = let s' := record_call (CallGetUserInfo provider token)
                (record_call (CallGetAccessToken provider code) s) in
    match invite_redirect env (invite_token_of req) user_info with
    | Some r => (inr r, s')
    | None => login_account env req provider user_info s'
    end.
Proof.
  intros Hp Hc Hct Ha Hu. unfold OAuthCallback_get. rewrite Hp, Hc. simpl.
  rewrite Hct. simpl. unfold exchange, bind, modify, raise, ret.
  now rewrite Ha, Hu.
Qed.

(** X13: a valid invite token whose invitation is missing, empty or bound to
    the identity's own email sends the browser to the invite-settings page
    with that token; the account is neither looked up nor created and no
    table is written. *)
Theorem valid_invite_goes_to_invite_settings (env : Env) (req : Request)
    (provider : string) (client : OAuthClient) (code token tok : string)
    (user_info : OAuthUserInfo) (s : Store) :
  get_oauth_providers env provider = Some client ->
  args_code req = Some code -> Py.truthy code = true ->
  provider_get_access_token env client code = inr token ->
  provider_get_user_info env client token = inr user_info ->
  args_state req = Some tok -> Py.truthy tok = true ->
  is_valid_invite_token env tok = true ->
  (match get_invitation_by_token env tok with
   | Some ((_ :: _) as invitation) =>
       dict_get "email" invitation = Some (ui_email user_info)
   | _ => True
   end) ->
  let r := OAuthCallback_get env req provider s in
  r.1 = inr (Redirect (CONSOLE_WEB_URL (dify_config env)
                       ++ "/signin/invite-settings?invite_token=" ++ tok) None) /\
  same_tables s r.2 /\
  calls r.2 = calls s ++ [CallGetAccessToken provider code;
                          CallGetUserInfo provider token].
Proof.
  intros Hp Hc Hct Ha Hu Hs Hst Hv Hi.
  rewrite (callback_after_exchange _ _ _ _ _ _ _ _ Hp Hc Hct Ha Hu).
  unfold invite_token_of, invite_redirect. rewrite Hs. simpl. rewrite Hst, Hv.
  destruct (get_invitation_by_token env tok) as [[|kv invitation]|].
  - simpl. rewrite <- app_assoc. repeat split; done.
  - rewrite bool_decide_eq_true_2 by done. simpl. rewrite <- app_assoc.
    repeat split; done.
  - simpl. rewrite <- app_assoc. repeat split; done.
Qed.

(** ** How [_generate_account] fails *)

Lemma lookup_cases provider user_info s :
  (exists acc, _get_account_by_openid_or_email provider user_info s = (inr (Some acc), s)
               /\ acc ∈ accounts s)
  \/ (_get_account_by_openid_or_email provider user_info s = (inr None, s)
      /\ get_by_openid provider (ui_id user_info) s = None
      /\ accounts_by_email (ui_email user_info) s = [])
  \/ (_get_account_by_openid_or_email provider user_info s = (inl MultipleResultsFound, s)
      /\ get_by_openid provider (ui_id user_info) s = None
      /\ 2 <= length (accounts_by_email (ui_email user_info) s)).
Proof.
  unfold _get_account_by_openid_or_email, bind, gets. simpl.
  destruct (get_by_openid provider (ui_id user_info) s) as [acc|] eqn:G.
  - left. exists acc. split; [done|]. unfold get_by_openid in G.
    destruct (List.find _ (integrates s)); [|discriminate]. simpl in G.
    apply find_some in G as [G _]. now apply list_elem_of_In.
  - destruct (accounts_by_email (ui_email user_info) s) as [|x [|y rows]] eqn:R.
    + right. left. done.
    + left. exists x. split; [done|].
      apply (accounts_by_email_spec (ui_email user_info)). rewrite R.
      now apply list_elem_of_singleton.
    + right. right. repeat split; try done. simpl. lia.
Qed.

Lemma generate_account_raises env req provider user_info s e s' :
  _generate_account env req provider user_info s = (inl e, s') ->
  s' = s /\
  ((e = MultipleResultsFound
    /\ get_by_openid provider (ui_id user_info) s = None
    /\ 2 <= length (accounts_by_email (ui_email user_info) s))
   \/ (e = WorkSpaceNotAllowedCreateError
       /\ is_allow_create_workspace env = false
       /\ exists acc, _get_account_by_openid_or_email provider user_info s
                      = (inr (Some acc), s)
                      /\ get_join_tenants s (account_id acc) = [])
   \/ (exists description, e = AccountRegisterError description
       /\ is_allow_register env = false
       /\ _get_account_by_openid_or_email provider user_info s = (inr None, s))).
Proof.
  unfold _generate_account, bind.
  destruct (lookup_cases provider user_info s)
    as [(acc & -> & Hacc)|[(-> & G & R)|(-> & G & R)]].
  - unfold resolve_account, ensure_workspace, bind, gets, raise, ret. cbv beta.
    destruct (get_join_tenants s (account_id acc)) eqn:J.
    + destruct (is_allow_create_workspace env) eqn:W; simpl.
      * discriminate.
      * intros [= <- <-]. split; [done|]. right. left. eauto 6.
    + simpl. discriminate.
  - unfold resolve_account, provision.
    destruct (is_allow_register env) eqn:A; simpl.
    + discriminate.
    + destruct (_ && _); intros [= <- <-]; (split; [done|]); right; right; eauto.
  - intros [= <- <-]. split; [done|]. left. done.
Qed.

(** X14: [_generate_account] fails before it writes.  With a non-empty
    [languages] (the function reads [languages[0]] without a check) it
    raises in three cases only, and in each the store is returned
    untouched: several accounts share the identity's email and
    none is linked to it ([MultipleResultsFound]); the account found is in
    no workspace and workspaces may not be created
    ([WorkSpaceNotAllowedCreateError]); no account matches and registration
    is closed ([AccountRegisterError]). *)
Theorem generate_account_fails_before_writing (env : Env) (req : Request)
    (provider : string) (user_info : OAuthUserInfo) (s s' : Store) (e : Exn) :
  languages env <> [] ->
  _generate_account env req provider user_info s = (inl e, s') ->
  s' = s /\
  ((e = MultipleResultsFound
    /\ get_by_openid provider (ui_id user_info) s = None
    /\ 2 <= length (accounts_by_email (ui_email user_info) s))
   \/ (e = WorkSpaceNotAllowedCreateError
       /\ is_allow_create_workspace env = false
       /\ exists acc, _get_account_by_openid_or_email provider user_info s
                      = (inr (Some acc), s)
                      /\ get_join_tenants s (account_id acc) = [])
   \/ (exists description, e = AccountRegisterError description
       /\ is_allow_register env = false
       /\ _get_account_by_openid_or_email provider user_info s = (inr None, s))).
Proof. intros _. apply generate_account_raises. Qed.

(** ** After [_generate_account] *)

Lemma no_invite_redirect env req user_info :
  (forall tok, args_state req = Some tok -> Py.truthy tok = true ->
               is_valid_invite_token env tok = false) ->
  invite_redirect env (invite_token_of req) user_info = None.
Proof.
  intros H. unfold invite_redirect, invite_token_of.
  destruct (args_state req) as [tok|] eqn:Es; [|done].
  simpl. destruct (Py.truthy tok) eqn:Et; [|done]. now rewrite (H tok).
Qed.

Lemma find_account_ext s s' a :
  accounts s = accounts s' -> find_account s a = find_account s' a.
Proof. unfold find_account. now intros ->. Qed.

Lemma finish_login_spec env req a s :
  finish_login env req a s =
  if has_membership s a then
    (inr (Redirect (CONSOLE_WEB_URL (dify_config env))
            (Some (issue_tokens env a (remote_ip req)))),
     record_call (CallLogin a) s)
  else if is_allow_create_workspace env then
    (inr (Redirect (CONSOLE_WEB_URL (dify_config env))
            (Some (issue_tokens env a (remote_ip req)))),
     record_call (CallLogin a)
       (create_default_workspace a
          (from_option account_name "" (find_account s a)) s).2)
  else (inr (signin_message env workspace_not_found_message), s).
Proof.
  unfold finish_login, bind, try_catch, create_owner_tenant_if_not_exist,
    has_membership, login, modify, ret.
  destruct (existsb _ _); [reflexivity|].
  destruct (is_allow_create_workspace env); reflexivity.
Qed.

Lemma finish_login_find_account env req a s :
  exists f, (forall acc, account_id (f acc) = account_id acc
                         /\ account_status (f acc) = account_status acc
                         /\ account_initialized_at (f acc) = account_initialized_at acc)
            /\ find_account (finish_login env req a s).2 a = f <$> find_account s a.
Proof.
  rewrite finish_login_spec. destruct (has_membership s a).
  { exists id. split; [done|]. simpl. now destruct (find_account _ _). }
  destruct (is_allow_create_workspace env).
  2:{ exists id. split; [done|]. simpl. now destruct (find_account _ _). }
  exists (set_current_tenant (fresh_tenant_id s)). split; [done|].
  unfold create_default_workspace. cbv beta iota zeta delta [create_tenant]. simpl.
  erewrite find_account_ext; [|reflexivity].
  rewrite <- (find_account_update a (set_current_tenant (fresh_tenant_id s))) by done.
  apply find_account_ext. simpl. now rewrite create_tenant_member_accounts.
Qed.

Lemma callback_after_generate env req provider client code token user_info s a s2 :
  get_oauth_providers env provider = Some client ->
  args_code req = Some code -> Py.truthy code = true ->
  provider_get_access_token env client code = inr token ->
  provider_get_user_info env client token = inr user_info ->
  (forall tok, args_state req = Some tok -> Py.truthy tok = true ->
               is_valid_invite_token env tok = false) ->
  _generate_account env req provider user_info (after_exchange provider code token s)
  = (inr a, s2) ->
  OAuthCallback_get env req provider s
  = check_status env req (in_db_session provider user_info s) a s2.
Proof.
  intros Hp Hc Hct Ha Hu Hinv Hg.
  rewrite (callback_after_exchange _ _ _ _ _ _ _ _ Hp Hc Hct Ha Hu).
  rewrite (no_invite_redirect _ _ _ Hinv). cbv zeta.
  unfold login_account. fold (after_exchange provider code token s). now rewrite Hg.
Qed.

(** X19: first-login activation: when a PENDING account is found through
    the provider link -- so that the object [_generate_account] returns
    belongs to [db.session] -- the callback leaves its row ACTIVE with
    [initialized_at] set to the current time. *)
Theorem pending_account_is_activated (env : Env) (req : Request) (provider : string)
    (client : OAuthClient) (code token : string) (user_info : OAuthUserInfo)
    (s s2 : Store) (a : nat) :
  get_oauth_providers env provider = Some client ->
  args_code req = Some code -> Py.truthy code = true ->
  provider_get_access_token env client code = inr token ->
  provider_get_user_info env client token = inr user_info ->
  (forall tok, args_state req = Some tok -> Py.truthy tok = true ->
               is_valid_invite_token env tok = false) ->
  is_Some (get_by_openid provider (ui_id user_info) s) ->
  _generate_account env req provider user_info (after_exchange provider code token s)
  = (inr a, s2) ->
  status_of s2 a = Some PENDING ->
  exists acc,
    find_account (OAuthCallback_get env req provider s).2 a = Some acc /\
    account_status acc = ACTIVE /\
    account_initialized_at acc = Some (naive_utc_now env).
Proof.
  intros Hp Hc Hct Ha Hu Hinv [linked Hl] Hg Hst.
  rewrite (callback_after_generate _ _ _ _ _ _ _ _ _ _ Hp Hc Hct Ha Hu Hinv Hg).
  unfold in_db_session. rewrite Hl.
  unfold check_status, bind, gets. rewrite Hst. unfold modify.
  destruct (finish_login_find_account env req a
              (update_account a (activate (naive_utc_now env)) s2)) as (f & Hf & ->).
  rewrite find_account_update by done.
  unfold status_of in Hst. destruct (find_account s2 a) as [acc0|]; [|discriminate].
  simpl. eexists. split; [reflexivity|].
  destruct (Hf (activate (naive_utc_now env) acc0)) as (_ & -> & ->). done.
Qed.

(** X20: no second activation: for an account that is neither BANNED nor
    PENDING the callback changes neither its status nor its
    [initialized_at]; a BANNED one is left as it is as well. *)
Theorem initialized_account_is_not_reactivated (env : Env) (req : Request)
    (provider : string) (client : OAuthClient) (code token : string)
    (user_info : OAuthUserInfo) (s s2 : Store) (a : nat) (acc0 : Account) :
  get_oauth_providers env provider = Some client ->
  args_code req = Some code -> Py.truthy code = true ->
  provider_get_access_token env client code = inr token ->
  provider_get_user_info env client token = inr user_info ->
  (forall tok, args_state req = Some tok -> Py.truthy tok = true ->
               is_valid_invite_token env tok = false) ->
  _generate_account env req provider user_info (after_exchange provider code token s)
  = (inr a, s2) ->
  find_account s2 a = Some acc0 ->
  account_status acc0 <> PENDING ->
  exists acc,
    find_account (OAuthCallback_get env req provider s).2 a = Some acc /\
    account_status acc = account_status acc0 /\
    account_initialized_at acc = account_initialized_at acc0.
Proof.
  intros Hp Hc Hct Ha Hu Hinv Hg Hacc Hst.
  rewrite (callback_after_generate _ _ _ _ _ _ _ _ _ _ Hp Hc Hct Ha Hu Hinv Hg).
  unfold check_status, bind, gets, status_of. rewrite Hacc. simpl.
  destruct (account_status acc0) eqn:St; try done.
  - destruct (finish_login_find_account env req a s2) as (f & Hf & ->).
    rewrite Hacc. simpl. eexists. split; [reflexivity|].
    destruct (Hf acc0) as (_ & -> & ->). done.
  - destruct (finish_login_find_account env req a s2) as (f & Hf & ->).
    rewrite Hacc. simpl. eexists. split; [reflexivity|].
    destruct (Hf acc0) as (_ & -> & ->). done.
  - unfold ret. simpl. eauto.
  - destruct (finish_login_find_account env req a s2) as (f & Hf & ->).
    rewrite Hacc. simpl. eexists. split; [reflexivity|].
    destruct (Hf acc0) as (_ & -> & ->). done.
Qed.

Lemma has_membership_update_account s a b f :
  has_membership (update_account b f s) a = has_membership s a.
Proof. reflexivity. Qed.

Lemma check_status_passes env req attached a s st :
  status_of s a = Some st -> st <> BANNED ->
  exists s1, (accounts s1 = accounts s \/ accounts s1
              = accounts (update_account a (activate (naive_utc_now env)) s)) /\
             check_status env req attached a s = finish_login env req a s1 /\
             joins s1 = joins s /\ calls s1 = calls s /\ tenants s1 = tenants s.
Proof.
  intros Hst Hb. unfold check_status, bind, gets. rewrite Hst.
  destruct st; try done.
  - destruct attached.
    + exists (update_account a (activate (naive_utc_now env)) s).
      split; [now right|done].
    + exists s. split; [now left|done].
  - exists s. split; [now left|done].
  - exists s. split; [now left|done].
  - exists s. split; [now left|done].
Qed.

Lemma create_tenant_member_has_membership t a role s :
  has_membership (create_tenant_member t a role s) a = true.
Proof.
  unfold create_tenant_member, has_membership.
  destruct (is_member s a (tenant_id t)) eqn:M.
  - apply is_member_true in M as (j & Hj & _ & E).
    apply existsb_exists. exists j. split; [now apply list_elem_of_In|].
    now apply Nat.eqb_eq.
  - simpl. rewrite existsb_app. simpl. rewrite Nat.eqb_refl. apply orb_true_r.
Qed.

Lemma default_workspace_has_membership a name s :
  has_membership (record_call (CallLogin a) (create_default_workspace a name s).2) a
  = true.
Proof.
  unfold create_default_workspace. cbv beta iota zeta delta [create_tenant].
  match goal with
  | |- context [create_tenant_member ?t a ?r ?x] =>
      change (has_membership (create_tenant_member t a r x) a = true)
  end.
  apply create_tenant_member_has_membership.
Qed.

(** X21: a callback that passes the status check and finds the account in a
    workspace, or may create one, ends by calling [AccountService.login]
    for that account and redirects to the console with the three tokens
    the login returned. *)
Theorem login_issues_the_session (env : Env) (req : Request) (provider : string)
    (client : OAuthClient) (code token : string) (user_info : OAuthUserInfo)
    (s s2 : Store) (a : nat) (st : AccountStatus) :
  get_oauth_providers env provider = Some client ->
  args_code req = Some code -> Py.truthy code = true ->
  provider_get_access_token env client code = inr token ->
  provider_get_user_info env client token = inr user_info ->
  (forall tok, args_state req = Some tok -> Py.truthy tok = true ->
               is_valid_invite_token env tok = false) ->
  _generate_account env req provider user_info (after_exchange provider code token s)
  = (inr a, s2) ->
  status_of s2 a = Some st -> st <> BANNED ->
  has_membership s2 a = true \/ is_allow_create_workspace env = true ->
  let r := OAuthCallback_get env req provider s in
  r.1 = inr (Redirect (CONSOLE_WEB_URL (dify_config env))
               (Some (issue_tokens env a (remote_ip req)))) /\
  last (calls r.2) = Some (CallLogin a) /\
  has_membership r.2 a = true.
Proof.
  intros Hp Hc Hct Ha Hu Hinv Hg Hst Hb Hw r. subst r.
  rewrite (callback_after_generate _ _ _ _ _ _ _ _ _ _ Hp Hc Hct Ha Hu Hinv Hg).
  destruct (check_status_passes env req (in_db_session provider user_info s) a s2 st Hst Hb) as (s1 & _ & -> & J & _ & _).
  rewrite finish_login_spec.
  assert (has_membership s1 a = has_membership s2 a) as ->
    by (unfold has_membership; now rewrite J).
  destruct (has_membership s2 a) eqn:M.
  - simpl. rewrite last_snoc. repeat split; try done.
    unfold has_membership in *. simpl. now rewrite J.
  - destruct Hw as [Hw|Hw]; [discriminate|]. rewrite Hw. simpl.
    rewrite last_snoc. repeat split; try done.
    apply default_workspace_has_membership.
Qed.

(** An account in no workspace, where none may be created, is not logged
    in: the callback answers with the workspace-not-found redirect,
    [AccountService.login] is not called and no row is written after
    [_generate_account]. *)
Lemma login_without_workspace_is_rejected (env : Env) (req : Request)
    (provider : string) (client : OAuthClient) (code token : string)
    (user_info : OAuthUserInfo) (s s2 : Store) (a : nat) (st : AccountStatus) :
  get_oauth_providers env provider = Some client ->
  args_code req = Some code -> Py.truthy code = true ->
  provider_get_access_token env client code = inr token ->
  provider_get_user_info env client token = inr user_info ->
  (forall tok, args_state req = Some tok -> Py.truthy tok = true ->
               is_valid_invite_token env tok = false) ->
  _generate_account env req provider user_info (after_exchange provider code token s)
  = (inr a, s2) ->
  status_of s2 a = Some st -> st <> BANNED ->
  has_membership s2 a = false -> is_allow_create_workspace env = false ->
  let r := OAuthCallback_get env req provider s in
  r.1 = inr (signin_message env workspace_not_found_message) /\
  calls r.2 = calls s2 /\ tenants r.2 = tenants s2 /\ joins r.2 = joins s2.
Proof.
  intros Hp Hc Hct Ha Hu Hinv Hg Hst Hb Hm Hw r. subst r.
  rewrite (callback_after_generate _ _ _ _ _ _ _ _ _ _ Hp Hc Hct Ha Hu Hinv Hg).
  destruct (check_status_passes env req (in_db_session provider user_info s) a s2 st Hst Hb) as (s1 & _ & -> & J & C & T).
  rewrite finish_login_spec.
  assert (has_membership s1 a = has_membership s2 a) as ->
    by (unfold has_membership; now rewrite J).
  rewrite Hm, Hw. done.
Qed.

Lemma check_status_returns env req attached a s :
  exists response, (check_status env req attached a s).1 = inr response.
Proof.
  unfold check_status, bind, gets, modify, ret. simpl.
  destruct (status_of s a) as [[]|], attached; simpl;
    try (rewrite finish_login_spec);
    repeat match goal with
           | |- context [if ?b then _ else _] => destruct b
           end; simpl; eauto.
Qed.

(** X18: once the provider exchange has succeeded, and with a non-empty
    [languages], the only exception that leaves the callback is
    [MultipleResultsFound], raised when no account is linked to the
    identity and several accounts share its email; no table has been
    written then.  Every [AccountRegisterError] and
    [WorkSpaceNotAllowedCreateError] has become a redirect. *)
Theorem callback_raises_only_on_ambiguous_email (env : Env) (req : Request)
    (provider : string) (client : OAuthClient) (code token : string)
    (user_info : OAuthUserInfo) (s s' : Store) (e : Exn) :
  languages env <> [] ->
  get_oauth_providers env provider = Some client ->
  args_code req = Some code -> Py.truthy code = true ->
  provider_get_access_token env client code = inr token ->
  provider_get_user_info env client token = inr user_info ->
  OAuthCallback_get env req provider s = (inl e, s') ->
  e = MultipleResultsFound /\
  get_by_openid provider (ui_id user_info) s = None /\
  2 <= length (accounts_by_email (ui_email user_info) s) /\
  same_tables s s'.
Proof.
  intros _ Hp Hc Hct Ha Hu.
  rewrite (callback_after_exchange _ _ _ _ _ _ _ _ Hp Hc Hct Ha Hu). cbv zeta.
  destruct (invite_redirect _ _ _); [discriminate|].
  unfold login_account. fold (after_exchange provider code token s).
  destruct (_generate_account env req provider user_info
              (after_exchange provider code token s)) as [[e0|a] s0] eqn:G.
  - apply generate_account_raises in G
      as [-> [(-> & G1 & G2)|[(-> & _)|(d & -> & _)]]]; try discriminate.
    intros [= <- <-]. repeat split; done.
  - destruct (check_status_returns env req
                (in_db_session provider user_info
                   (after_exchange provider code token s)) a s0) as [response R].
    destruct (check_status env req _ a s0) as [[e1|r1] s1]; simpl in R; discriminate.
Qed.

Lemma lookup_result_ext provider user_info s s' :
  accounts s = accounts s' -> integrates s = integrates s' ->
  (_get_account_by_openid_or_email provider user_info s).1
  = (_get_account_by_openid_or_email provider user_info s').1.
Proof.
  intros Ea Ei.
  unfold _get_account_by_openid_or_email, bind, gets, get_by_openid,
    accounts_by_email, find_account. cbv beta iota. rewrite Ea, Ei.
  destruct (_ ≫= _); [reflexivity|]. cbv beta iota. rewrite ?Ea.
  now destruct (List.filter _ (accounts s')) as [|x [|y rows]].
Qed.

(** X15: an account found by the lookup that is in no workspace, while
    workspaces may not be created, is turned away with the
    workspace-not-found redirect: nothing is linked, synced or written. *)
Theorem account_without_workspace_is_turned_away (env : Env) (req : Request)
    (provider : string) (client : OAuthClient) (code token : string)
    (user_info : OAuthUserInfo) (s : Store) (acc : Account) :
  get_oauth_providers env provider = Some client ->
  args_code req = Some code -> Py.truthy code = true ->
  provider_get_access_token env client code = inr token ->
  provider_get_user_info env client token = inr user_info ->
  (forall tok, args_state req = Some tok -> Py.truthy tok = true ->
               is_valid_invite_token env tok = false) ->
  (_get_account_by_openid_or_email provider user_info s).1 = inr (Some acc) ->
  get_join_tenants s (account_id acc) = [] ->
  is_allow_create_workspace env = false ->
  OAuthCallback_get env req provider s
  = (inr (signin_message env workspace_not_found_message),
     after_exchange provider code token s).
Proof.
  intros Hp Hc Hct Ha Hu Hinv Hl Hj Hw.
  rewrite (callback_after_exchange _ _ _ _ _ _ _ _ Hp Hc Hct Ha Hu).
  rewrite (no_invite_redirect _ _ _ Hinv). cbv zeta.
  fold (after_exchange provider code token s).
  unfold login_account, _generate_account, bind.
  pose proof (lookup_keeps_store provider user_info
                (after_exchange provider code token s)) as Hs.
  rewrite <- (lookup_result_ext provider user_info
                (after_exchange provider code token s) s eq_refl eq_refl) in Hl.
  destruct (_get_account_by_openid_or_email provider user_info
              (after_exchange provider code token s)) as [r0 s0].
  simpl in Hl, Hs. subst r0 s0.
  unfold resolve_account, ensure_workspace, bind, gets.
  change (get_join_tenants (after_exchange provider code token s) (account_id acc))
    with (get_join_tenants s (account_id acc)).
  rewrite Hj, Hw. reflexivity.
Qed.

(** ** What a successful [_generate_account] writes *)

Lemma create_tenant_member_tenants t a role s :
  tenants (create_tenant_member t a role s) = tenants s.
Proof. unfold create_tenant_member. now destruct (is_member _ _ _). Qed.


Lemma link_account_integrate_tables provider open_id a s :
  exists s2,
    link_account_integrate provider open_id a s = (inr tt, s2) /\
    accounts s2 = accounts s /\ tenants s2 = tenants s /\
    mappings s2 = mappings s /\ joins s2 = joins s /\
    calls s2 = calls s ++ [CallLinkAccountIntegrate provider open_id a].
Proof.
  unfold link_account_integrate, bind, modify. simpl.
  eexists. split; [reflexivity|]. now destruct (existsb _ _).
Qed.




Lemma sync_find_account a user_info s :
  exists f,
    (forall acc, account_id (f acc) = account_id acc
                 /\ account_email (f acc) = account_email acc
                 /\ account_name (f acc) = account_name acc
                 /\ account_interface_language (f acc) = account_interface_language acc)
    /\ find_account (_sync_user_organizations a user_info s) a
       = f <$> find_account s a.
Proof.
  unfold _sync_user_organizations.
  destruct (ui_organizations user_info) as [|o orgs].
  { exists id. split; [done|]. simpl. now destruct (find_account _ _). }
  unfold select_current_tenant.
  set (st := foldl _ _ _).
  assert (find_account (st_store st) a = find_account s a) as E.
  { apply find_account_ext. unfold st. now rewrite sync_loop_accounts. }
  destruct (current_tenant_of _ _), (user_tenant_ids st) as [|first rest];
    try (exists id; split; [done|]; rewrite E; now destruct (find_account s a)).
  destruct (find_tenant _ _) as [x|];
    [|exists id; split; [done|]; rewrite E; now destruct (find_account s a)].
  exists (set_current_tenant (tenant_id x)). split; [done|].
  rewrite find_account_update by done. now rewrite E.
Qed.

(** X17: when no account matches and registration is open, [_generate_account]
    creates one and returns it: the account has a key no account had, the
    identity's email, the identity's name or "Dify" when that is missing or
    empty -- so never an empty name --, and an interface language taken
    from [languages], which is taken to be non-empty as [languages[0]] is
    read without a check. *)
Theorem unknown_identity_is_provisioned (env : Env) (req : Request)
    (provider : string) (user_info : OAuthUserInfo) (s : Store) :
  _get_account_by_openid_or_email provider user_info s = (inr None, s) ->
  is_allow_register env = true ->
  languages env <> [] ->
  let r := _generate_account env req provider user_info s in
  let a := fresh_account_id s in
  r.1 = inr a /\ find_account s a = None /\
  exists acc,
    find_account r.2 a = Some acc /\
    account_email acc = ui_email user_info /\
    account_name acc = (if Py.truthy_opt (ui_name user_info)
                        then default "Dify" (ui_name user_info) else "Dify") /\
    account_name acc <> "" /\
    account_interface_language acc ∈ languages env.
Proof.
  intros Hl Hr Hne r a. subst r.
  assert (find_account s a = None) as Hfresh.
  { unfold find_account. destruct (List.find _ (accounts s)) as [x|] eqn:F; [|done].
    apply find_some in F as [F1 F2]. apply Nat.eqb_eq in F2.
    assert (account_id x ∈ mentioned_account_ids s) as Hm.
    { unfold mentioned_account_ids. apply elem_of_app. left.
      apply list_elem_of_fmap. exists x. now rewrite list_elem_of_In. }
    apply max_list_elem_of_le in Hm. unfold a, fresh_account_id in F2. lia. }
  unfold _generate_account, bind. rewrite Hl.
  unfold resolve_account, provision. rewrite Hr. cbn [negb].
  unfold register, bind, gets, modify, ret. fold a.
  set (name := if Py.truthy_opt (ui_name user_info)
               then default "Dify" (ui_name user_info) else "Dify").
  set (new := mkAccount a (ui_email user_info) name ACTIVE
                (List.hd "en-US" (languages env)) (Some (naive_utc_now env)) None).
  destruct (link_account_integrate_tables provider (ui_id user_info) a
              (add_account new s)) as (s2 & -> & A2 & _).
  set (lang := match accept_languages_best_match req (languages env) with
               | Some l => if Py.truthy l && bool_decide (l ∈ languages env) then l
                           else List.hd "en-US" (languages env)
               | None => List.hd "en-US" (languages env)
               end).
  destruct (link_account_integrate_tables provider (ui_id user_info) a
              (update_account a (set_interface_language lang) s2))
    as (s4 & -> & A4 & _).
  cbn [fst snd]. split; [done|]. split; [done|].
  destruct (sync_find_account a user_info s4) as (f & Hf & ->).
  rewrite (find_account_ext s4 (update_account a (set_interface_language lang) s2) a A4).
  rewrite find_account_update by done.
  rewrite (find_account_ext s2 (add_account new s) a A2).
  assert (find_account (add_account new s) a = Some new) as ->.
  { unfold find_account in *. simpl. rewrite find_app_r by done. simpl.
    now rewrite Nat.eqb_refl. }
  simpl. eexists. split; [reflexivity|].
  destruct (Hf (set_interface_language lang new)) as (_ & -> & -> & ->). simpl.
  repeat split.
  - unfold name. destruct (ui_name user_info) as [[|c n]|]; simpl; discriminate.
  - unfold lang.
    assert (List.hd "en-US" (languages env) ∈ languages env) as Hhd.
    { destruct (languages env); [done|]. simpl. apply elem_of_cons. auto. }
    destruct (accept_languages_best_match req (languages env)) as [l|]; [|done].
    destruct (Py.truthy l); simpl; [|done].
    destruct (bool_decide (l ∈ languages env)) eqn:B; [|done].
    now apply bool_decide_eq_true in B.
Qed.

(** * The tenant hierarchy *)

Lemma children_of_spec s tid t :
  t ∈ children_of s tid <-> t ∈ tenants s /\ tenant_parent_id t = Some tid.
Proof.
  unfold children_of. rewrite !list_elem_of_In, filter_In.
  now rewrite bool_decide_eq_true.
Qed.

Lemma get_children_levelled level bound s :
  levelled level bound s ->
  forall depth tid,
    1 <= depth -> bound + 1 <= depth + level tid ->
    is_Some (get_children depth s tid).
Proof.
  intros L. induction depth as [|d IH]; intros tid H1 H2; [lia|].
  simpl. apply mapM_is_Some, Forall_forall. intros child Hc. simpl.
  apply children_of_spec in Hc as [Hc Hp]. destruct (L child tid Hc Hp) as [L1 L2].
  destruct (IH (tenant_id child)) as [kids ->]; [lia|lia|]. simpl. eauto.
Qed.

(** X22: when the parent links form no cycle, the hierarchy can be listed: once
    the allowed depth exceeds the number of levels, [get_children] returns
    for every tenant key, and so do [get_tenant_hierarchy] and
    [get_all_tenants_with_hierarchy]. *)
Theorem hierarchy_of_acyclic_store_is_listed (level : nat -> nat) (bound : nat)
    (s : Store) (depth : nat) :
  levelled level bound s -> bound < depth ->
  (forall tid, is_Some (get_children depth s tid)) /\
  (forall tid, is_Some (get_tenant_hierarchy depth s tid)) /\
  is_Some (get_all_tenants_with_hierarchy depth s).
Proof.
  intros L Hd.
  assert (forall tid, is_Some (get_children depth s tid)) as H.
  { intros tid. apply (get_children_levelled level bound s L); lia. }
  split; [exact H|]. split.
  - intros tid. unfold get_tenant_hierarchy.
    destruct (find_tenant s tid) as [t|]; [|eauto].
    destruct (H (tenant_id t)) as [kids ->]. simpl. eauto.
  - unfold get_all_tenants_with_hierarchy.
    apply mapM_is_Some, Forall_forall. intros t _. simpl.
    destruct (H (tenant_id t)) as [kids ->]. simpl. eauto.
Qed.

Lemma get_children_more_depth s :
  forall d d' tid kids,
    get_children d s tid = Some kids -> d <= d' ->
    get_children d' s tid = Some kids.
Proof.
  induction d as [|d IH]; intros d' tid kids H Hd; [discriminate|].
  destruct d' as [|d']; [lia|]. simpl in *.
  apply mapM_Some in H. apply mapM_Some.
  eapply Forall2_impl; [exact H|]. intros child node Hn. simpl in *.
  destruct (get_children d s (tenant_id child)) as [k|] eqn:E; [|discriminate].
  rewrite (IH d' _ _ E); [exact Hn|lia].
Qed.

(** The answer does not depend on the depth allowed: a listing obtained
    within some depth is obtained unchanged within any larger one. *)
Lemma hierarchy_does_not_depend_on_depth (s : Store) (d d' tid : nat) :
  d <= d' ->
  (forall kids, get_children d s tid = Some kids ->
                get_children d' s tid = Some kids) /\
  (forall h, get_tenant_hierarchy d s tid = Some h ->
             get_tenant_hierarchy d' s tid = Some h) /\
  (forall l, get_all_tenants_with_hierarchy d s = Some l ->
             get_all_tenants_with_hierarchy d' s = Some l).
Proof.
  intros Hd. split; [|split].
  - intros kids H. now apply (get_children_more_depth s d).
  - intros h. unfold get_tenant_hierarchy.
    destruct (find_tenant s tid) as [t|]; [|done].
    destruct (get_children d s (tenant_id t)) as [k|] eqn:E; [|discriminate].
    now rewrite (get_children_more_depth s d d' _ _ E Hd).
  - intros l. unfold get_all_tenants_with_hierarchy. rewrite !mapM_Some.
    intros H. eapply Forall2_impl; [exact H|]. intros t node Hn. simpl in *.
    destruct (get_children d s (tenant_id t)) as [k|] eqn:E; [|discriminate].
    now rewrite (get_children_more_depth s d d' _ _ E Hd).
Qed.

(** X23: nothing guards against a cycle: for a tenant that is its own ancestor
    the recursion never ends, whatever depth is allowed, and
    [get_tenant_hierarchy] of it fails the same way. *)
Theorem parent_cycle_exhausts_every_depth (s : Store) (tid : nat) :
  tc (is_child s) tid tid ->
  forall depth,
    get_children depth s tid = None /\
    (is_Some (find_tenant s tid) -> get_tenant_hierarchy depth s tid = None).
Proof.
  intros Hloop depth.
  assert (forall d x, tc (is_child s) x x -> get_children d s x = None) as H.
  { induction d as [|d IH]; intros x Hx; [reflexivity|]. simpl.
    apply tc_rtc in Hx as Hx'. inversion Hx as [? ? Hxy|? y ? Hxy Hyx]; subst.
    - destruct Hxy as (t & Ht & Hid & Hp).
      apply mapM_None, Exists_exists. exists t. split.
      + now apply children_of_spec.
      + simpl. rewrite Hid, (IH x Hx). done.
    - pose proof Hxy as (t & Ht & Hid & Hp).
      apply mapM_None, Exists_exists. exists t. split.
      + now apply children_of_spec.
      + simpl. rewrite Hid, (IH y); [done|].
        eapply tc_rtc_r; [exact Hyx|]. now apply rtc_once. }
  split; [now apply H|].
  intros [t Ht]. unfold get_tenant_hierarchy. rewrite Ht.
  apply find_tenant_Some in Ht as [_ ->]. now rewrite (H depth tid Hloop).
Qed.

Lemma find_tenant_NoDup s t :
  NoDup (map tenant_id (tenants s)) -> t ∈ tenants s ->
  find_tenant s (tenant_id t) = Some t.
Proof.
  intros N Ht. destruct (find_tenant s (tenant_id t)) as [x|] eqn:F.
  - apply find_tenant_Some in F as [Hx E]. f_equal.
    apply list_elem_of_lookup in Hx as [i Hi]. apply list_elem_of_lookup in Ht as [j Hj].
    assert (i = j) as ->.
    { apply (NoDup_lookup _ i j (tenant_id t) N);
        rewrite list_lookup_fmap; [rewrite Hi|rewrite Hj]; simpl; congruence. }
    congruence.
  - rewrite find_tenant_None in F. now destruct (F t Ht).
Qed.

(** X24: the two listings agree: with unique tenant keys, the entry that
    [get_all_tenants_with_hierarchy] builds for a root tenant is what
    [get_tenant_hierarchy] returns for that tenant's key, and the roots
    come in table order. *)
Theorem all_tenants_listing_agrees_with_single (depth : nat) (s : Store) :
  NoDup (map tenant_id (tenants s)) ->
  get_all_tenants_with_hierarchy depth s
  = mapM (fun t => get_tenant_hierarchy depth s (tenant_id t) ≫= id) (root_tenants s).
Proof.
  intros N. unfold get_all_tenants_with_hierarchy.
  apply Forall_mapM_ext, Forall_forall. intros t Ht.
  unfold root_tenants in Ht. apply list_elem_of_In, filter_In in Ht as [Ht _].
  apply list_elem_of_In in Ht.
  unfold get_tenant_hierarchy. rewrite (find_tenant_NoDup s t N Ht).
  now destruct (get_children depth s (tenant_id t)).
Qed.

(** ** The sync and the parent links *)

Section ParentInduction.
Variable a : nat.
Variable P : SyncState -> Prop.
Hypothesis P_ensure : forall name key parent st,
  P st ->
  (forall p, parent = Some p -> exists k, org_to_tenant st !! k = Some p) ->
  P (ensure_tenant name key parent st).
Hypothesis P_attach : forall st t, P st -> P (attach a st t).

Lemma levels_fold_preserves_mapped root parts l st p ids :
  P st -> (exists k, org_to_tenant st !! k = Some p) ->
  P (foldl (level_step root parts) (st, p, ids) l).1.1.
Proof.
  revert st p ids; induction l as [|[i part] l IH]; intros st p ids H Hp; simpl.
  - exact H.
  - apply IH.
    + apply P_ensure; [exact H|]. now intros p' [= <-].
    + eexists. apply ensure_tenant_lookup.
Qed.

Lemma sync_org_preserves_mapped st org : P st -> P (sync_org a st org).
Proof.
  intros H. unfold sync_org.
  destruct (Py.truthy org); [|exact H].
  destruct (Py.contains "/" org).
  - unfold sync_path. destruct (Py.split_once "/" org) as [root_org child].
    assert (P (ensure_tenant root_org root_org None st)) as H1.
    { apply P_ensure; [exact H|]. intros p Hp. discriminate Hp. }
    pose proof (levels_fold_preserves_mapped root_org (Py.split "-" child)
                  (Py.enumerate (Py.split "-" child))
                  (ensure_tenant root_org root_org None st)
                  (org_to_tenant (ensure_tenant root_org root_org None st) !!! root_org)
                  [org_to_tenant (ensure_tenant root_org root_org None st) !!! root_org]
                  H1 (ex_intro _ root_org (ensure_tenant_lookup _ _ _ _))) as H2.
    destruct (foldl _ _ _) as [[st2 p] ids]. simpl in H2.
    now apply attach_fold_preserves.
  - unfold sync_flat. apply P_attach. apply P_ensure; [exact H|].
    intros p Hp. discriminate Hp.
Qed.

Lemma sync_loop_preserves_mapped orgs st : P st -> P (foldl (sync_org a) st orgs).
Proof.
  revert st; induction orgs as [|org orgs IH]; intros st H; simpl; auto.
  apply IH. now apply sync_org_preserves_mapped.
Qed.
End ParentInduction.

Lemma parent_id_lt_fresh s t q :
  t ∈ tenants s -> tenant_parent_id t = Some q -> q < fresh_tenant_id s.
Proof.
  intros Ht Hq. apply fresh_tenant_id_gt. unfold mentioned_tenant_ids.
  rewrite !elem_of_app. right. left. apply list_elem_of_omap. eauto.
Qed.

Lemma levelled_add_leaf level bound s name key parent :
  levelled level bound s ->
  (forall p, parent = Some p -> p < fresh_tenant_id s) ->
  acyclic (add_tenant (mkTenant (fresh_tenant_id s) name key parent "basic" "normal") s).
Proof.
  intros L Hp. set (f := fresh_tenant_id s).
  set (lp := match parent with Some p => level p | None => 0 end).
  exists (fun i => if decide (i = f) then S lp else level i), (Nat.max bound (S lp)).
  intros t q Ht Hq. simpl in Ht. apply elem_of_app in Ht as [Ht|Ht].
  - pose proof (tenant_id_lt_fresh s t Ht) as L1.
    pose proof (parent_id_lt_fresh s t q Ht Hq) as L2. fold f in L1, L2.
    rewrite !decide_False by lia. destruct (L t q Ht Hq). lia.
  - apply list_elem_of_singleton in Ht. subst t. simpl in *.
    pose proof (Hp q Hq) as L2. fold f in L2.
    destruct (decide (q = f)) as [E|_]; [lia|].
    rewrite decide_True by done.
    unfold lp. rewrite Hq. lia.
Qed.

Lemma levelled_tc level bound s p c :
  levelled level bound s -> tc (is_child s) p c -> level p < level c.
Proof.
  intros L H.
  induction H as [p c (t & Ht & <- & Hp)|p m c (t & Ht & <- & Hp) _ IH].
  - apply (L t p Ht Hp).
  - pose proof (L t p Ht Hp) as [? _]. lia.
Qed.

Lemma acyclic_no_loop s x : acyclic s -> ~ tc (is_child s) x x.
Proof.
  intros (level & bound & L) H. apply (levelled_tc _ _ _ _ _ L) in H. lia.
Qed.

Lemma sync_keeps_acyclic a user_info s :
  acyclic s -> acyclic (_sync_user_organizations a user_info s).
Proof.
  intros H. unfold _sync_user_organizations.
  destruct (ui_organizations user_info) as [|o orgs]; [exact H|].
  set (sa := record_call (CallSyncUserOrganizations a) s).
  assert (forall x y, tenants x = tenants y -> acyclic y -> acyclic x) as Ext.
  { intros x y E (level & bound & L). exists level, bound.
    intros t p. rewrite E. apply L. }
  apply (Ext _ (st_store (foldl (sync_org a) (sync_init a sa) (o :: orgs)))).
  { apply select_current_tenant_tables. }
  apply (sync_loop_preserves_mapped a
           (fun st => sync_inv a st /\ acyclic (st_store st)));
    [| |split; [apply sync_inv_init|exact H]].
  - intros name key parent st [I (level & bound & L)] Hp.
    split; [now apply sync_inv_ensure|].
    unfold ensure_tenant. destruct (org_to_tenant st !! key); [now exists level, bound|].
    simpl. apply (Ext _ (add_tenant
                           (mkTenant (fresh_tenant_id (st_store st)) name (Some key)
                              parent "basic" "normal") (st_store st))); [done|].
    apply (levelled_add_leaf level bound); [exact L|].
    intros p Ep. destruct (Hp p Ep) as [k Hk]. destruct I as [I1 _]. rewrite I1 in Hk.
    apply load_org_to_tenant_Some in Hk as (m & Hm & _ & <-).
    now apply mapping_id_lt_fresh.
  - intros st t [I Ac]. split; [now apply sync_inv_attach|].
    apply (Ext _ (st_store st)); [apply attach_tenants|exact Ac].
Qed.

(** X9: the sync creates no cycle: when the parent links of the tenant table
    are free of cycles before it, they are after it -- no tenant is its
    own ancestor -- so the hierarchy can still be listed. *)
Theorem sync_keeps_parent_links_acyclic (a : nat) (user_info : OAuthUserInfo)
    (s : Store) :
  acyclic s ->
  let s' := _sync_user_organizations a user_info s in
  acyclic s' /\ forall x, ~ tc (is_child s') x x.
Proof.
  intros H s'. pose proof (sync_keeps_acyclic a user_info s H) as H'.
  split; [exact H'|]. intros x. now apply acyclic_no_loop.
Qed.

(** * The API keys of an app *)

Module ApiKeysFacts.
Import ApiKeys.

Lemma get_resource_owns user resource_id s :
  (exists r, _get_resource resource_id (current_tenant_id user) s = inr r)
  <-> owns_app user resource_id s.
Proof.
  unfold _get_resource, owns_app. split.
  - intros [r H]. destruct (List.find _ (apps s)) as [x|] eqn:F; [|discriminate].
    apply find_some in F as [F1 F2]. apply andb_true_iff in F2 as [E1 E2].
    apply String.eqb_eq in E1, E2. exists x. now rewrite list_elem_of_In.
  - intros (r & Hr & E1 & E2). destruct (List.find _ (apps s)) as [x|] eqn:F; [eauto|].
    apply list_elem_of_In in Hr. pose proof (find_none _ _ F r Hr) as N. simpl in N.
    rewrite E1, E2, !String.eqb_refl in N. discriminate.
Qed.

Lemma get_resource_not_owned user resource_id s :
  ~ owns_app user resource_id s ->
  _get_resource resource_id (current_tenant_id user) s = inl (Abort 404 "App not found.").
Proof.
  intros H. destruct (_get_resource resource_id (current_tenant_id user) s) as [e|r] eqn:E.
  - unfold _get_resource in *. now destruct (List.find _ (apps s)).
  - destruct H. apply get_resource_owns. eauto.
Qed.

(** X25: tenant isolation: for an app that is not an app of the user's current
    tenant, listing, creating and deleting keys all answer 404 "App not
    found." and leave the store as it is, whatever the user's role. *)
Theorem keys_of_foreign_app_are_out_of_reach
    (generate_api_key : string -> nat -> string) (new_id : string)
    (user : CurrentUser) (resource_id api_key_id : string) (s : KeyStore) :
  ~ owns_app user resource_id s ->
  list_get user resource_id s = inl (Abort 404 "App not found.") /\
  list_post generate_api_key new_id user resource_id s
  = (inl (Abort 404 "App not found."), s) /\
  key_delete user resource_id api_key_id s = (inl (Abort 404 "App not found."), s).
Proof.
  intros H. unfold list_get, list_post, key_delete.
  now rewrite (get_resource_not_owned user resource_id s H).
Qed.

Lemma resource_keys_snoc s k resource_id :
  resource_keys (mkKeyStore (apps s) (api_tokens s ++ [k])) resource_id
  = resource_keys s resource_id
    ++ (if key_of_resource resource_id k then [k] else []).
Proof. unfold resource_keys. simpl. now rewrite List.filter_app. Qed.

(** X26: the cap on keys: creating a key never takes an app with at most
    [max_keys] keys above [max_keys], and leaves the keys of every other
    app as they are. *)
Theorem key_cap_is_kept (generate_api_key : string -> nat -> string) (new_id : string)
    (user : CurrentUser) (resource_id : string) (s : KeyStore) :
  let s' := (list_post generate_api_key new_id user resource_id s).2 in
  (length (resource_keys s resource_id) <= max_keys ->
   length (resource_keys s' resource_id) <= max_keys) /\
  (forall other, other <> resource_id ->
                 resource_keys s' other = resource_keys s other).
Proof.
  unfold list_post.
  destruct (_get_resource _ _ _); [done|].
  destruct (negb _); [done|].
  destruct (Nat.leb_spec max_keys (length (resource_keys s resource_id))) as [L|L];
    [done|].
  cbn [snd]. split.
  - intros _. rewrite resource_keys_snoc, length_app.
    destruct (key_of_resource _ _); simpl; lia.
  - intros other Hne. rewrite resource_keys_snoc.
    unfold key_of_resource at 1. cbn [token_type token_app_id].
    rewrite bool_decide_eq_false_2 by congruence.
    rewrite andb_false_r. apply app_nil_r.
Qed.

(** X27: creating a key succeeds exactly for an editor of the app's tenant while
    the app has fewer than [max_keys] keys; the checks come in the order
    404, 403, 400, and a refused request leaves the store as it is. *)
Theorem key_creation_outcome (generate_api_key : string -> nat -> string)
    (new_id : string) (user : CurrentUser) (resource_id : string) (s : KeyStore) :
  let r := list_post generate_api_key new_id user resource_id s in
  (~ owns_app user resource_id s ->
   r = (inl (Abort 404 "App not found."), s)) /\
  (owns_app user resource_id s -> is_editor user = false ->
   r = (inl Forbidden, s)) /\
  (owns_app user resource_id s -> is_editor user = true ->
   max_keys <= length (resource_keys s resource_id) ->
   r.1 = inl (Abort 400 "Cannot create more than 10 API keys for this resource type.")
   /\ r.2 = s) /\
  (owns_app user resource_id s -> is_editor user = true ->
   length (resource_keys s resource_id) < max_keys ->
   exists k, r.1 = inr (k, 201) /\
             token_id k = new_id /\ token_app_id k = Some resource_id /\
             token_tenant_id k = Some (current_tenant_id user) /\
             token_type k = "app" /\
             token_token k = generate_api_key "app-" 24 /\
             api_tokens r.2 = api_tokens s ++ [k] /\ apps r.2 = apps s).
Proof.
  intros r. subst r. unfold list_post. split; [|split; [|split]].
  - intros H. now rewrite (get_resource_not_owned user resource_id s H).
  - intros H He. apply get_resource_owns in H as [x ->]. now rewrite He.
  - intros H He L. apply get_resource_owns in H as [x ->]. rewrite He. cbn [negb].
    destruct (Nat.leb_spec max_keys (length (resource_keys s resource_id))); [done|lia].
  - intros H He L. apply get_resource_owns in H as [x ->]. rewrite He. cbn [negb].
    destruct (Nat.leb_spec max_keys (length (resource_keys s resource_id))); [lia|].
    eexists. repeat split.
Qed.

Lemma filter_other_ids (l : list ApiToken) api_key_id :
  (forall k, k ∈ l -> token_id k <> api_key_id) ->
  List.filter (fun k => negb (String.eqb (token_id k) api_key_id)) l = l.
Proof.
  induction l as [|x l IH]; intros H; [reflexivity|]. simpl.
  destruct (String.eqb_spec (token_id x) api_key_id) as [E|N].
  - destruct (H x); [apply elem_of_cons; auto|done].
  - simpl. f_equal. apply IH. intros k Hk. apply H, elem_of_cons. auto.
Qed.

Lemma filter_removes_member (l : list ApiToken) k api_key_id :
  In k l -> token_id k = api_key_id ->
  length (List.filter (fun k => negb (String.eqb (token_id k) api_key_id)) l)
  < length l.
Proof.
  induction l as [|y l IH]; intros Hk E; [destruct Hk|]. simpl.
  pose proof (List.filter_length_le
                (fun k => negb (String.eqb (token_id k) api_key_id)) l) as Hle.
  destruct Hk as [->|Hk].
  - rewrite E, String.eqb_refl. simpl. lia.
  - specialize (IH Hk E).
    destruct (negb (String.eqb (token_id y) api_key_id)); simpl; lia.
Qed.

(** X28: deleting a key requires an admin or owner of the app's tenant and a key
    with that id among the app's keys; then every token with that id is
    gone and every other token is kept, in order.  A refused request
    leaves the store as it is. *)
Theorem key_deletion_outcome (user : CurrentUser) (resource_id api_key_id : string)
    (s : KeyStore) :
  let r := key_delete user resource_id api_key_id s in
  (forall e, r.1 = inl e -> r.2 = s) /\
  (forall v, r.1 = inr v ->
     v = ("success", 204) /\
     owns_app user resource_id s /\ is_admin_or_owner user = true /\
     (exists k, k ∈ resource_keys s resource_id /\ token_id k = api_key_id) /\
     apps r.2 = apps s /\
     (forall k, k ∈ api_tokens r.2 <-> k ∈ api_tokens s /\ token_id k <> api_key_id) /\
     length (api_tokens r.2) < length (api_tokens s)).
Proof.
  intros r. subst r. unfold key_delete.
  destruct (_get_resource resource_id (current_tenant_id user) s) as [e|x] eqn:G.
  { split; [done|]. intros v H. discriminate H. }
  destruct (is_admin_or_owner user) eqn:A; simpl.
  2:{ split; [done|]. intros v H. discriminate H. }
  destruct (List.find _ (api_tokens s)) as [k|] eqn:F; simpl.
  2:{ split; [done|]. intros v H. discriminate H. }
  split; [intros e H; discriminate H|]. intros v [= <-].
  apply find_some in F as [F1 F2].
  apply andb_true_iff in F2 as [F2 E3]. apply andb_true_iff in F2 as [E1 E2].
  apply String.eqb_eq in E3.
  assert (forall y, y ∈ List.filter
                      (fun k => negb (String.eqb (token_id k) api_key_id)) (api_tokens s)
                    <-> y ∈ api_tokens s /\ token_id y <> api_key_id) as Hiff.
  { intros y. rewrite !list_elem_of_In, filter_In, negb_true_iff.
    now rewrite String.eqb_neq. }
  split; [done|]. split; [apply get_resource_owns; eauto|]. split; [done|].
  split; [|split; [done|split; [exact Hiff|]]].
  - exists k. split; [|done]. unfold resource_keys.
    apply list_elem_of_In, filter_In. split; [done|].
    unfold key_of_resource. now rewrite E2, E1.
  - now apply (filter_removes_member _ k).
Qed.

(** X29: round trip: a key an editor creates is the last one listed for the
    app; and when its id is new and the user is an admin or owner,
    deleting it again gives back the token table as it was. *)
Theorem created_key_is_listed_and_can_be_deleted
    (generate_api_key : string -> nat -> string) (new_id : string)
    (user : CurrentUser) (resource_id : string) (s : KeyStore) (k : ApiToken) :
  let r := list_post generate_api_key new_id user resource_id s in
  r.1 = inr (k, 201) ->
  list_get user resource_id r.2 = inr (resource_keys s resource_id ++ [k]) /\
  ((forall x, x ∈ api_tokens s -> token_id x <> new_id) ->
   is_admin_or_owner user = true ->
   key_delete user resource_id new_id r.2 = (inr ("success", 204), s)).
Proof.
  intros r. subst r. unfold list_post.
  destruct (_get_resource resource_id (current_tenant_id user) s) as [e|x] eqn:G;
    [discriminate|].
  destruct (negb (is_editor user)); [discriminate|].
  destruct (Nat.leb max_keys (length (resource_keys s resource_id))); [discriminate|].
  cbn [fst snd]. intros [= <-].
  set (k := mkApiToken new_id (Some resource_id) (Some (current_tenant_id user))
              resource_type (generate_api_key token_prefix 24)).
  set (s' := mkKeyStore (apps s) (api_tokens s ++ [k])).
  assert (_get_resource resource_id (current_tenant_id user) s' = inr x) as G'
    by exact G.
  split.
  - unfold list_get. rewrite G'. f_equal. unfold s'. rewrite resource_keys_snoc.
    unfold key_of_resource, k. simpl. now rewrite bool_decide_eq_true_2.
  - intros Hfresh Ha. unfold key_delete. rewrite G', Ha. cbn [negb].
    assert (List.find (fun y => bool_decide (token_app_id y = Some resource_id)
                                && String.eqb (token_type y) resource_type
                                && String.eqb (token_id y) new_id) (api_tokens s')
            = Some k) as ->.
    { unfold s'. simpl. rewrite find_app_r.
      - simpl. rewrite bool_decide_eq_true_2 by done.
        now rewrite !String.eqb_refl.
      - destruct (List.find _ (api_tokens s)) as [y|] eqn:F; [|done].
        apply find_some in F as [F1 F2]. apply andb_true_iff in F2 as [_ F2].
        apply String.eqb_eq in F2. apply list_elem_of_In in F1.
        now destruct (Hfresh y F1). }
    f_equal. unfold s'. simpl. rewrite List.filter_app. simpl.
    rewrite String.eqb_refl. simpl. rewrite app_nil_r.
    rewrite (filter_other_ids _ _ Hfresh). now destruct s.
Qed.

End ApiKeysFacts.

(** * Further concrete runs *)

Lemma sync_only_appends_witness :
  exists ts js,
    tenants (_sync_user_organizations 1 ann (ann_store ACTIVE))
    = tenants (ann_store ACTIVE) ++ ts /\
    joins (_sync_user_organizations 1 ann (ann_store ACTIVE))
    = joins (ann_store ACTIVE) ++ js /\
    Forall (owner_join_of 1) js.
Proof.
  destruct (sync_only_appends 1 ann (ann_store ACTIVE))
    as (ts & js & T & _ & J & _ & Fj & _).
  exists ts, js. split; [exact T|]. split; [exact J|exact Fj].
Defined.

Lemma sync_keeps_mapping_keys_unique_witness :
  NoDup (map mapping_casdoor_org_id (mappings (ann_store ACTIVE))) /\
  NoDup (map mapping_casdoor_org_id
           (mappings (_sync_user_organizations 1 ann (ann_store ACTIVE)))).
Proof.
  split; [apply NoDup_nil_2|].
  apply (sync_keeps_mapping_keys_unique 1 ann (ann_store ACTIVE)). apply NoDup_nil_2.
Defined.

Lemma sync_keeps_memberships_unique_witness :
  NoDup (map join_pair (joins (ann_store ACTIVE))) /\
  NoDup (map join_pair (joins (_sync_user_organizations 1 ann (ann_store ACTIVE)))).
Proof.
  split; [apply NoDup_singleton|].
  apply (sync_keeps_memberships_unique 1 ann (ann_store ACTIVE)). apply NoDup_singleton.
Defined.

Lemma deepest_level_key_is_the_organisation_witness :
  Py.split_once "/" "Acme/dept-team" = ("Acme", "dept-team") /\
  full_org_path "Acme" ["dept"; "team"] 1 = "Acme/dept-team".
Proof.
  split; [reflexivity|].
  exact (proj1 (deepest_level_key_is_the_organisation "Acme/dept-team" "Acme"
                  "dept-team" eq_refl eq_refl)).
Defined.

Lemma sync_maps_and_joins_every_level_witness :
  exists t,
    load_org_to_tenant
      (mappings (_sync_user_organizations 1 (with_orgs ["Acme/dept-team"])
                   (ann_store ACTIVE))) !! "Acme/dept" = Some t /\
    (is_Some (find_tenant (_sync_user_organizations 1 (with_orgs ["Acme/dept-team"])
                             (ann_store ACTIVE)) t) ->
     is_member (_sync_user_organizations 1 (with_orgs ["Acme/dept-team"])
                  (ann_store ACTIVE)) 1 t = true).
Proof.
  destruct (sync_maps_and_joins_every_level 1 (with_orgs ["Acme/dept-team"])
              (ann_store ACTIVE) "Acme/dept-team") as [_ H].
  - apply list_elem_of_In. left. reflexivity.
  - reflexivity.
  - apply H. apply list_elem_of_In. right. left. reflexivity.
Defined.

Lemma flat_organisation_from_scratch_witness :
  Py.contains "/" "Acme" = false /\
  tenants (_sync_user_organizations 1 ann (ann_store ACTIVE))
  = [old_tenant; mkTenant 8 "Acme" (Some "Acme") None "basic" "normal"] /\
  joins (_sync_user_organizations 1 ann (ann_store ACTIVE))
  = [mkJoin 7 1 "normal"; mkJoin 8 1 "owner"].
Proof.
  split; [reflexivity|].
  destruct (flat_organisation_from_scratch 1 ann (ann_store ACTIVE) "Acme"
              eq_refl eq_refl eq_refl) as (_ & T & _ & J).
  - intros m Hm. apply list_elem_of_In in Hm. destruct Hm.
  - split; [exact T|exact J].
Defined.

Lemma flat_organisation_already_mapped_witness :
  load_org_to_tenant (mappings mapped_store) !! "Acme" = Some 7 /\
  tenants (_sync_user_organizations 1 ann mapped_store) = [old_tenant] /\
  joins (_sync_user_organizations 1 ann mapped_store) = [mkJoin 7 1 "owner"].
Proof.
  split; [reflexivity|].
  destruct (flat_organisation_already_mapped 1 ann mapped_store "Acme" 7
              eq_refl eq_refl eq_refl eq_refl) as (T & _ & J).
  split; [exact T|exact J].
Defined.

Lemma sync_skips_empty_entries_witness :
  tenants (_sync_user_organizations 1 (with_orgs [""; "Acme"; ""]) (ann_store ACTIVE))
  = tenants (_sync_user_organizations 1 ann (ann_store ACTIVE)).
Proof.
  exact (proj1 (sync_skips_empty_entries 1 (with_orgs [""; "Acme"; ""]) ann
                  (ann_store ACTIVE) eq_refl)).
Defined.

Lemma ann_store_acyclic : acyclic (ann_store ACTIVE).
Proof.
  exists id, 0. intros t p Ht Hp. apply list_elem_of_In in Ht.
  destruct Ht as [<-|[]]. discriminate Hp.
Defined.

Lemma sync_keeps_parent_links_acyclic_witness :
  acyclic (ann_store ACTIVE) /\
  acyclic (_sync_user_organizations 1 (with_orgs ["Acme/dept-team"]) (ann_store ACTIVE)).
Proof.
  split; [exact ann_store_acyclic|].
  exact (proj1 (sync_keeps_parent_links_acyclic 1 (with_orgs ["Acme/dept-team"])
                  (ann_store ACTIVE) ann_store_acyclic)).
Defined.

Lemma provider_client_iff_configured_witness :
  provider_configured demo_env "casdoor" /\
  is_Some (get_oauth_providers demo_env "casdoor").
Proof.
  assert (provider_configured demo_env "casdoor") as H.
  { right. split; [reflexivity|]. split; reflexivity. }
  split; [exact H|].
  exact (proj2 (proj1 (provider_client_iff_configured demo_env "casdoor")) H).
Defined.

Lemma unconfigured_provider_is_invalid_witness :
  ~ provider_configured demo_env "github" /\
  OAuthCallback_get demo_env demo_request "github" (ann_store ACTIVE)
  = (inr (Json "Invalid provider" 400), ann_store ACTIVE).
Proof.
  assert (~ provider_configured demo_env "github") as H.
  { intros [(_ & E & _)|(E & _)]; discriminate E. }
  split; [exact H|].
  exact (proj2 (unconfigured_provider_is_invalid demo_env demo_request
                  (fun _ _ => "") None "github" (ann_store ACTIVE) H)).
Defined.

Lemma provider_request_error_is_400_witness :
  provider_get_access_token failing_env casdoor_client "code-1"
  = inl (RequestError "timed out") /\
  (OAuthCallback_get failing_env demo_request "casdoor" (ann_store ACTIVE)).1
  = inr (Json "OAuth process failed" 400).
Proof.
  split; [reflexivity|].
  exact (proj1 (provider_request_error_is_400 failing_env demo_request "casdoor"
                  casdoor_client "code-1" "timed out" (ann_store ACTIVE)
                  eq_refl eq_refl eq_refl (or_introl eq_refl))).
Defined.

Lemma valid_invite_goes_to_invite_settings_witness :
  is_valid_invite_token own_invite_env "invite-1" = true /\
  (OAuthCallback_get own_invite_env invite_request "casdoor" (ann_store ACTIVE)).1
  = inr (Redirect
           "https://console.example.com/signin/invite-settings?invite_token=invite-1"
           None).
Proof.
  split; [reflexivity|].
  exact (proj1 (valid_invite_goes_to_invite_settings own_invite_env invite_request
                  "casdoor" casdoor_client "code-1" "token-for-code-1" "invite-1"
                  (mkUserInfo "cas-ann" (Some "Ann") "ann@example.com" ["Acme"])
                  (ann_store ACTIVE)
                  eq_refl eq_refl eq_refl eq_refl eq_refl eq_refl eq_refl eq_refl
                  eq_refl)).
Defined.

Lemma generate_account_fails_before_writing_witness :
  _generate_account demo_env demo_request "casdoor" ann empty_store
  = (inl (AccountRegisterError "Invalid email or password"), empty_store) /\
  is_allow_register demo_env = false.
Proof.
  split; [reflexivity|].
  destruct (generate_account_fails_before_writing demo_env demo_request "casdoor" ann
              empty_store empty_store (AccountRegisterError "Invalid email or password")
              ltac:(discriminate) eq_refl) as [_ [(E & _)|[(E & _)|(d & _ & R & _)]]].
  - discriminate E.
  - discriminate E.
  - exact R.
Defined.

Lemma account_without_workspace_is_turned_away_witness :
  get_join_tenants lonely_store 1 = [] /\
  OAuthCallback_get strict_env demo_request "casdoor" lonely_store
  = (inr (signin_message strict_env workspace_not_found_message),
     after_exchange "casdoor" "code-1" "token-for-code-1" lonely_store).
Proof.
  split; [reflexivity|].
  apply (account_without_workspace_is_turned_away strict_env demo_request "casdoor"
           casdoor_client "code-1" "token-for-code-1"
           (mkUserInfo "cas-ann" (Some "Ann") "ann@example.com" ["Acme"])
           lonely_store (ann_account ACTIVE)); reflexivity.
Defined.


Lemma unknown_identity_is_provisioned_witness :
  is_allow_register open_env = true /\
  (_generate_account open_env demo_request "casdoor" ann empty_store).1 = inr 1 /\
  exists acc,
    find_account (_generate_account open_env demo_request "casdoor" ann empty_store).2 1
    = Some acc /\ account_email acc = "ann@example.com" /\ account_name acc = "Ann".
Proof.
  split; [reflexivity|].
  destruct (unknown_identity_is_provisioned open_env demo_request "casdoor" ann
              empty_store eq_refl eq_refl) as (R & _ & acc & F & E & N & _).
  { discriminate. }
  split; [exact R|]. exists acc. split; [exact F|]. split; [exact E|exact N].
Defined.

Lemma callback_raises_only_on_ambiguous_email_witness :
  (OAuthCallback_get open_env demo_request "casdoor" twin_store).1
  = inl MultipleResultsFound /\
  2 <= length (accounts_by_email "ann@example.com" twin_store).
Proof.
  split; [reflexivity|].
  destruct (callback_raises_only_on_ambiguous_email open_env demo_request "casdoor"
              casdoor_client "code-1" "token-for-code-1"
              (mkUserInfo "cas-ann" (Some "Ann") "ann@example.com" ["Acme"])
              twin_store
              (OAuthCallback_get open_env demo_request "casdoor" twin_store).2
              MultipleResultsFound ltac:(discriminate)
              eq_refl eq_refl eq_refl eq_refl eq_refl eq_refl)
    as (_ & _ & L & _).
  exact L.
Defined.

Lemma pending_account_is_activated_witness :
  get_by_openid "casdoor" "cas-ann" linked_store = Some (ann_account PENDING) /\
  exists acc,
    find_account (OAuthCallback_get open_env demo_request "casdoor" linked_store).2 1
    = Some acc /\
    account_status acc = ACTIVE /\ account_initialized_at acc = Some 1000.
Proof.
  split; [reflexivity|].
  apply (pending_account_is_activated open_env demo_request "casdoor" casdoor_client
           "code-1" "token-for-code-1"
           (mkUserInfo "cas-ann" (Some "Ann") "ann@example.com" ["Acme"])
           linked_store
           (_generate_account open_env demo_request "casdoor"
              (mkUserInfo "cas-ann" (Some "Ann") "ann@example.com" ["Acme"])
              (after_exchange "casdoor" "code-1" "token-for-code-1" linked_store)).2
           1); try reflexivity.
  exists (ann_account PENDING). reflexivity.
Defined.

(** Ann's PENDING account is not linked and is found by its email, in a
    session of its own: she is logged in, and her row stays PENDING. *)
Lemma pending_account_found_by_email_keeps_its_row :
  let r := OAuthCallback_get open_env demo_request "casdoor" (ann_store PENDING) in
  in_db_session "casdoor" ann (ann_store PENDING) = false /\
  r.1 = inr (Redirect "https://console.example.com"
               (Some (mkTokenPair "access" "refresh" "csrf"))) /\
  status_of r.2 1 = Some PENDING.
Proof. vm_compute. repeat split; reflexivity. Qed.

Lemma initialized_account_is_not_reactivated_witness :
  status_of (ann_store ACTIVE) 1 = Some ACTIVE /\
  exists acc,
    find_account (OAuthCallback_get open_env demo_request "casdoor" (ann_store ACTIVE)).2 1
    = Some acc /\
    account_status acc = ACTIVE /\ account_initialized_at acc = None.
Proof.
  split; [reflexivity|].
  apply (initialized_account_is_not_reactivated open_env demo_request "casdoor"
           casdoor_client "code-1" "token-for-code-1"
           (mkUserInfo "cas-ann" (Some "Ann") "ann@example.com" ["Acme"])
           (ann_store ACTIVE)
           (_generate_account open_env demo_request "casdoor"
              (mkUserInfo "cas-ann" (Some "Ann") "ann@example.com" ["Acme"])
              (after_exchange "casdoor" "code-1" "token-for-code-1" (ann_store ACTIVE))).2
           1 (mkAccount 1 "ann@example.com" "Ann" ACTIVE "en-US" None (Some 7)));
    try reflexivity.
  discriminate.
Defined.

Lemma login_issues_the_session_witness :
  status_of (ann_store ACTIVE) 1 = Some ACTIVE /\
  (OAuthCallback_get open_env demo_request "casdoor" (ann_store ACTIVE)).1
  = inr (Redirect "https://console.example.com"
           (Some (mkTokenPair "access" "refresh" "csrf"))) /\
  last (calls (OAuthCallback_get open_env demo_request "casdoor" (ann_store ACTIVE)).2)
  = Some (CallLogin 1).
Proof.
  split; [reflexivity|].
  destruct (login_issues_the_session open_env demo_request "casdoor" casdoor_client
              "code-1" "token-for-code-1"
              (mkUserInfo "cas-ann" (Some "Ann") "ann@example.com" ["Acme"])
              (ann_store ACTIVE)
              (_generate_account open_env demo_request "casdoor"
                 (mkUserInfo "cas-ann" (Some "Ann") "ann@example.com" ["Acme"])
                 (after_exchange "casdoor" "code-1" "token-for-code-1"
                    (ann_store ACTIVE))).2
              1 ACTIVE) as (R & L & _); try reflexivity.
  - discriminate.
  - left. reflexivity.
  - split; [exact R|exact L].
Defined.

Lemma tree_store_levelled : levelled id 3 tree_store.
Proof.
  intros t p Ht Hp. apply list_elem_of_In in Ht.
  destruct Ht as [<-|[<-|[<-|[]]]]; simpl in *.
  - discriminate Hp.
  - injection Hp as <-. unfold id. lia.
  - injection Hp as <-. unfold id. lia.
Defined.

Lemma hierarchy_of_acyclic_store_is_listed_witness :
  levelled id 3 tree_store /\
  is_Some (get_tenant_hierarchy 4 tree_store 1) /\
  is_Some (get_all_tenants_with_hierarchy 4 tree_store).
Proof.
  split; [exact tree_store_levelled|].
  destruct (hierarchy_of_acyclic_store_is_listed id 3 tree_store 4 tree_store_levelled)
    as (_ & H & A); [lia|].
  split; [exact (H 1)|exact A].
Defined.

Lemma cyclic_store_loops : tc (is_child cyclic_store) 1 1.
Proof.
  apply tc_once. exists (mkTenant 1 "Loop" None (Some 1) "basic" "normal").
  split; [|split; reflexivity]. apply list_elem_of_In. left. reflexivity.
Defined.

Lemma parent_cycle_exhausts_every_depth_witness :
  tc (is_child cyclic_store) 1 1 /\
  get_children 1000 cyclic_store 1 = None /\
  get_tenant_hierarchy 1000 cyclic_store 1 = None.
Proof.
  split; [exact cyclic_store_loops|].
  destruct (parent_cycle_exhausts_every_depth cyclic_store 1 cyclic_store_loops 1000)
    as [C H].
  split; [exact C|]. apply H. eexists. reflexivity.
Defined.

Lemma all_tenants_listing_agrees_with_single_witness :
  NoDup (map tenant_id (tenants tree_store)) /\
  get_all_tenants_with_hierarchy 4 tree_store
  = mapM (fun t => get_tenant_hierarchy 4 tree_store (tenant_id t) ≫= id)
         (root_tenants tree_store).
Proof.
  assert (NoDup (map tenant_id (tenants tree_store))) as N by by_evaluation.
  split; [exact N|].
  exact (all_tenants_listing_agrees_with_single 4 tree_store N).
Defined.

Lemma foreign_app_not_owned : ~ ApiKeys.owns_app owner_of_tenant_2 "app-1" key_store.
Proof.
  intros (r & Hr & _ & E). apply list_elem_of_In in Hr.
  destruct Hr as [<-|[]]. discriminate E.
Defined.

Lemma keys_of_foreign_app_are_out_of_reach_witness :
  ~ ApiKeys.owns_app owner_of_tenant_2 "app-1" key_store /\
  ApiKeys.key_delete owner_of_tenant_2 "app-1" "key-1" key_store
  = (inl (ApiKeys.Abort 404 "App not found."), key_store).
Proof.
  split; [exact foreign_app_not_owned|].
  exact (proj2 (proj2 (ApiKeysFacts.keys_of_foreign_app_are_out_of_reach
                         sample_generate_api_key "key-2" owner_of_tenant_2
                         "app-1" "key-1" key_store foreign_app_not_owned))).
Defined.

Lemma key_cap_is_kept_witness :
  length (ApiKeys.resource_keys key_store "app-1") <= ApiKeys.max_keys /\
  length (ApiKeys.resource_keys
            (ApiKeys.list_post sample_generate_api_key "key-2" owner_of_tenant_1
               "app-1" key_store).2 "app-1") <= ApiKeys.max_keys.
Proof.
  assert (length (ApiKeys.resource_keys key_store "app-1") <= ApiKeys.max_keys) as H.
  { unfold ApiKeys.max_keys. simpl. lia. }
  split; [exact H|].
  exact (proj1 (ApiKeysFacts.key_cap_is_kept sample_generate_api_key "key-2"
                  owner_of_tenant_1 "app-1" key_store) H).
Defined.

Lemma own_app_owned : ApiKeys.owns_app owner_of_tenant_1 "app-1" key_store.
Proof.
  exists (ApiKeys.mkApp "app-1" "tenant-1").
  split; [|split; reflexivity]. apply list_elem_of_In. left. reflexivity.
Defined.

Lemma key_creation_outcome_witness :
  ApiKeys.owns_app owner_of_tenant_1 "app-1" key_store /\
  exists k,
    (ApiKeys.list_post sample_generate_api_key "key-2" owner_of_tenant_1 "app-1"
       key_store).1 = inr (k, 201) /\
    ApiKeys.token_token k = "app-generated".
Proof.
  split; [exact own_app_owned|].
  destruct (ApiKeysFacts.key_creation_outcome sample_generate_api_key "key-2"
              owner_of_tenant_1 "app-1" key_store) as (_ & _ & _ & H).
  destruct (H own_app_owned eq_refl) as (k & R & _ & _ & _ & _ & T & _).
  - unfold ApiKeys.max_keys. simpl. lia.
  - exists k. split; [exact R|exact T].
Defined.

Lemma key_deletion_outcome_witness :
  (ApiKeys.key_delete owner_of_tenant_1 "app-1" "key-1" key_store).1
  = inr ("success", 204) /\
  length (ApiKeys.api_tokens
            (ApiKeys.key_delete owner_of_tenant_1 "app-1" "key-1" key_store).2)
  < length (ApiKeys.api_tokens key_store).
Proof.
  split; [reflexivity|].
  destruct (ApiKeysFacts.key_deletion_outcome owner_of_tenant_1 "app-1" "key-1"
              key_store) as [_ H].
  destruct (H ("success", 204) eq_refl) as (_ & _ & _ & _ & _ & _ & L).
  exact L.
Defined.

Lemma created_key_is_listed_and_can_be_deleted_witness :
  (ApiKeys.list_post sample_generate_api_key "key-2" owner_of_tenant_1 "app-1"
     key_store).1 = inr (key_2, 201) /\
  ApiKeys.key_delete owner_of_tenant_1 "app-1" "key-2"
    (ApiKeys.list_post sample_generate_api_key "key-2" owner_of_tenant_1 "app-1"
       key_store).2
  = (inr ("success", 204), key_store).
Proof.
  split; [reflexivity|].
  destruct (ApiKeysFacts.created_key_is_listed_and_can_be_deleted
              sample_generate_api_key "key-2" owner_of_tenant_1 "app-1" key_store key_2
              eq_refl) as [_ H].
  apply H; [|reflexivity].
  intros x Hx. apply list_elem_of_In in Hx. destruct Hx as [<-|[]]. discriminate.
Defined.
